(** * A shallow embedding of [storage_adapter.js]

    The adapter stores the models of an OpenID Connect provider in one
    PostgreSQL table per model, through the knex query builder.  This file
    embeds

    - the rows and tables, and the few knex queries the adapter issues;
    - every method of [StorageAdapter], first as the effect of its queries
      on a table when they are executed back to back, then as a task of the
      Node.js event loop, suspended at each [await];
    - the module-level purge variables and the scheduling of the purge.

    Instants are [Date] values: integer milliseconds since the epoch, as
    [Date.now()] returns them; [new Date(value)] is the Invalid Date when
    [value] is outside the range of [Date].  The times to live handed to
    [upsert] are integers.  The database is outside the sources: its column
    defaults and primary key are taken from the spec; its reading of the
    JSON texts that the adapter builds, and the instants that its column
    [expires_at] holds, are parameters. *)

From Stdlib Require Import ZArith List Bool Ascii String Lia.
From stdpp Require Import base gmap strings.
Import ListNotations.

Local Open Scope string_scope.
Local Open Scope Z_scope.

(** ** JSON payloads *)

(** A JSON value, as stored in a [jsonb] column. *)
#[local] Unset Elimination Schemes.
Inductive json : Type :=
  | JNull
  | JBool (b : bool)
  | JNum (n : Z)
  | JStr (s : string)
  | JArr (l : list json)
  | JObj (l : list (string * json)).
#[local] Set Elimination Schemes.

(** The payload of a model is an object: a finite map from property names to
    values (a [jsonb] object has no duplicate keys and no key order). *)
Abbreviation jsonb := (gmap string json).

(** An instant, in milliseconds since the epoch. *)
Definition Date := Z.

(** The range of [Date]: 100 000 000 days either side of the epoch. *)
Definition MAX_TIME : Z := 8640000000000000.

Definition in_range (value : Z) : bool :=
  (- MAX_TIME <=? value) && (value <=? MAX_TIME).

(** [new Date(value)]: [None] is the Invalid Date. *)
Definition new_Date (value : Z) : option Date :=
  if in_range value then Some value else None.

(** [data @> '{"key": "value"}']: the payload has the property [key] and
    its value is the string [value]. *)
Definition holds_string (key value : string) (d : jsonb) : bool :=
  match d !! key with
  | Some (JStr s) => String.eqb s value
  | _ => false
  end.

(** The double quote. *)
Definition quote : ascii := "034"%char.

(** The template literal of lines 130, 156 and 211: the value is spliced
    between two double quotes as it is, with no escaping. *)
Definition containment_text (key value : string) : string :=
  ("{" ++ String quote key ++ String quote ": " ++ String quote value
   ++ String quote "}")%string.

(** A character that stands for itself inside a JSON string: printable
    ASCII, neither the double quote nor the backslash. *)
Definition plain_char (c : ascii) : bool :=
  let n := nat_of_ascii c in
  (Nat.leb 32 n && Nat.ltb n 127 && negb (Nat.eqb n 34) && negb (Nat.eqb n 92))%bool.

Fixpoint plain (s : string) : bool :=
  match s with
  | EmptyString => true
  | String c s' => plain_char c && plain s'
  end.

(** ** Rows and tables *)

(** One row of a table [oidc.<model>].  [created_at] is filled by the
    table's column default; [updated_at] and [expires_at] are nullable. *)
Record row : Type := Row {
  id : string;
  data : jsonb;
  created_at : Date;
  updated_at : option Date;
  expires_at : option Date;
}.

Definition table := list row.

(** The object handed to [update] and [insert]: the properties that are
    present are written, the others are left to the row or to the column
    defaults. *)
Record update_props : Type := Props {
  set_id : option string;
  set_data : option jsonb;
  set_expires_at : option (option Date);   (* a [Date], maybe the invalid one *)
  set_updated_at : option Date;
}.

(** ** The knex queries used by the adapter *)

Module Knex.

(** [.where({id})] *)
Definition where_id (i : string) (r : row) : bool := String.eqb (id r) i.

(** [.where('data', '@>', text)], where the database reads [text] as the
    filter [pattern] on payloads. *)
Definition where_data_contains (pattern : jsonb -> bool) (r : row) : bool :=
  pattern (data r).

(** [.whereNull('expires_at').orWhere('expires_at', '>', now)] *)
Definition where_not_expired (now : Date) (r : row) : bool :=
  match expires_at r with
  | None => true
  | Some e => now <? e
  end.

(** [.where('expires_at', '<=', now)]: a NULL never compares. *)
Definition where_expired (now : Date) (r : row) : bool :=
  match expires_at r with
  | None => false
  | Some e => e <=? now
  end.

(** [.whereIn('id', ids)] *)
Definition where_id_in (ids : list string) (r : row) : bool :=
  existsb (String.eqb (id r)) ids.

(** [knex(t).where(p)], awaited: the rows that satisfy [p]. *)
Definition select (p : row -> bool) (t : table) : list row := List.filter p t.

(** The database takes the properties: [expires_at] is not the Invalid
    Date, and is an instant that its column holds. *)
Definition binds (timestamp : Date -> bool) (props : update_props) : bool :=
  match set_expires_at props with
  | Some (Some d) => timestamp d
  | Some None => false
  | None => true
  end.

(** One row after [update(props)], for properties that the database
    takes. *)
Definition assign (props : update_props) (r : row) : row :=
  {| id := default (id r) (set_id props);
     data := default (data r) (set_data props);
     created_at := created_at r;
     updated_at := match set_updated_at props with
                   | Some d => Some d
                   | None => updated_at r
                   end;
     expires_at := match set_expires_at props with
                   | Some (Some d) => Some d
                   | _ => expires_at r
                   end |}.

(** [knex(t).where(p).update(props)], for properties that the database
    takes. *)
Definition update (p : row -> bool) (props : update_props) (t : table) : table :=
  List.map (fun r => if p r then assign props r else r) t.

(** Modelled from the spec: the column defaults of the migration, which is
    not part of the sources: [created_at] is set once at first insertion,
    [updated_at] is absent until the first update, [expires_at] is absent
    unless given.  [db_now] is the instant of the insertion. *)
Definition inserted (props : update_props) (db_now : Date) : row :=
  {| id := default "" (set_id props);
     data := default ∅ (set_data props);
     created_at := db_now;
     updated_at := set_updated_at props;
     expires_at := match set_expires_at props with
                   | Some d => d
                   | None => None
                   end |}.

(** [knex(t).insert(props)], for properties that the database takes.
    Modelled from the spec: the primary key of the migration, which is not
    part of the sources: [id] is unique within the table, and an insertion
    under an id that a row has is rejected ([None]). *)
Definition insert (props : update_props) (db_now : Date) (t : table)
  : option table :=
  let r := inserted props db_now in
  if existsb (fun r' => String.eqb (id r') (id r)) t
  then None
  else Some (t ++ [r])%list.

(** [knex(t).where(p).del()] *)
Definition del (p : row -> bool) (t : table) : table :=
  List.filter (fun r => negb (p r)) t.

(** [.count('id')]: the ids are not null.  (The driver hands the count over
    as a string of digits; it is the number here.) *)
Definition count (t : table) : nat := length t.

(** [.min('created_at')] and [.max('created_at')]: NULL on no row. *)
Definition min_created_at (t : table) : option Date :=
  match t with
  | [] => None
  | r :: t' => Some (fold_left (fun m x => Z.min m (created_at x)) t' (created_at r))
  end.

Definition max_created_at (t : table) : option Date :=
  match t with
  | [] => None
  | r :: t' => Some (fold_left (fun m x => Z.max m (created_at x)) t' (created_at r))
  end.

End Knex.

(** ** Outcome of an awaited call *)

Inductive exn : Type :=
  | TypeError (msg : string)       (* thrown by the adapter *)
  | DatabaseError.                 (* the database rejects a query *)

Inductive outcome (A : Type) : Type :=
  | fulfilled (a : A)
  | rejected (e : exn).
Arguments fulfilled {A} a.
Arguments rejected {A} e.

Section Adapter.

(** The two functions of the runtime and of the [to-snake-case] package that
    the adapter calls: the name of a model in snake case, and the rendering
    of an instant by [toISOString]. *)
Variable toSnakeCase : string -> string.
Variable toISOString : Date -> string.

(** The database's reading of the text handed to [@>]: the test on payloads
    that the text stands for, or [None] when the text is not JSON and the
    query is rejected. *)
Variable jsonb_pattern : string -> option (jsonb -> bool).

(** The instants that the column [expires_at] holds: its type, and with it
    its range, is set by the migration, which is not part of the sources.
    (The instants read from the clock, written to [updated_at] and
    [created_at], are instants of the present, which the database holds.) *)
Variable timestamp : Date -> bool.

(** An expiration that can be stored: [new Date] makes a valid [Date] of
    it, and the database takes that [Date]. *)
Definition storable (value : Z) : bool := in_range value && timestamp value.

(** ** The instance methods, on the table of the instance

    Each function is the effect of the method's queries on the table
    [this.table_name], the queries being executed back to back.  The
    instants read from the clock are arguments. *)

(** Lines 75-81 of [upsert]: [now] is [Date.now()].  The test
    [if (expiresIn)] fails on [undefined] and on [0]. *)
Definition upsert_props (payload : jsonb) (expiresIn : option Z) (now : Date)
  : update_props :=
  let update_props := Props None (Some payload) None None in
  match expiresIn with
  | Some n =>
      if n =? 0 then update_props
      else Props None (Some payload) (Some (new_Date (now + n * 1000))) None
  | None => update_props
  end.

(** Lines 85 and 90: the property added on each branch. *)
Definition with_updated_at (d : Date) (p : update_props) : update_props :=
  Props (set_id p) (set_data p) (set_expires_at p) (Some d).

Definition with_id (i : string) (p : update_props) : update_props :=
  Props (Some i) (set_data p) (set_expires_at p) (set_updated_at p).

(** Lines 83-92 of [upsert]: [now_update] is the [new Date()] of line 85,
    [db_now] the instant at which the database inserts.  [None]: the query
    that writes is rejected, the database does not take its properties or
    the id is taken. *)
Definition upsert_write (i : string) (props : update_props)
    (now_update db_now : Date) (t : table) : option table :=
  let record := Knex.select (Knex.where_id i) t in
  match record with
  | _ :: _ =>
      let props := with_updated_at now_update props in
      if Knex.binds timestamp props
      then Some (Knex.update (Knex.where_id i) props t)
      else None
  | [] =>
      let props := with_id i props in
      if Knex.binds timestamp props then Knex.insert props db_now t else None
  end.

(** [upsert]: a rejected query rejects the call, and nothing is written. *)
Definition upsert (i : string) (payload : jsonb) (expiresIn : option Z)
    (now now_update db_now : Date) (t : table) : outcome unit * table :=
  match upsert_write i (upsert_props payload expiresIn now) now_update db_now t
  with
  | Some t' => (fulfilled tt, t')
  | None => (rejected DatabaseError, t)
  end.

(** The three lookups share their tail (lines 112-116). *)
Definition first_data (record : list row) : outcome (option jsonb) :=
  match record with
  | [] => fulfilled None
  | r :: _ => fulfilled (Some (data r))
  end.

Definition find (i : string) (now : Date) (t : table) : outcome (option jsonb) :=
  first_data
    (Knex.select (fun r => Knex.where_id i r && Knex.where_not_expired now r) t).

(** [findByUid]: the text of line 130 is read by the database. *)
Definition findByUid (uid : string) (now : Date) (t : table)
  : outcome (option jsonb) :=
  match jsonb_pattern (containment_text "uid" uid) with
  | Some pattern =>
      first_data
        (Knex.select
           (fun r => Knex.where_data_contains pattern r
                     && Knex.where_not_expired now r) t)
  | None => rejected DatabaseError
  end.

Definition findByUserCode (userCode : string) (now : Date) (t : table)
  : outcome (option jsonb) :=
  match jsonb_pattern (containment_text "userCode" userCode) with
  | Some pattern =>
      first_data
        (Knex.select
           (fun r => Knex.where_data_contains pattern r
                     && Knex.where_not_expired now r) t)
  | None => rejected DatabaseError
  end.

(** [consume]: [record[0].data] throws when no row has the id.  The update
    writes [data] alone. *)
Definition consume (i : string) (now : Date) (t : table) : outcome unit * table :=
  match Knex.select (Knex.where_id i) t with
  | [] =>
      (rejected (TypeError "Cannot read properties of undefined (reading 'data')"), t)
  | r :: _ =>
      let data := <["consumed" := JStr (toISOString now)]> (data r) in
      (fulfilled tt,
       Knex.update (Knex.where_id i) (Props None (Some data) None None) t)
  end.

Definition destroy (i : string) (t : table) : outcome unit * table :=
  (fulfilled tt, Knex.del (Knex.where_id i) t).

Definition revokeByGrantId (grantId : string) (t : table) : outcome unit * table :=
  match jsonb_pattern (containment_text "grantId" grantId) with
  | Some pattern => (fulfilled tt, Knex.del (Knex.where_data_contains pattern) t)
  | None => (rejected DatabaseError, t)
  end.

(** [get]: the ordering is done by the database; [orderBy] stands for the
    sort on the columns of [options.order_by]. *)
Definition get (ids : option (list string)) (orderBy : list row -> list row)
    (t : table) : list row :=
  orderBy (Knex.select (fun r => match ids with
                                 | Some l => Knex.where_id_in l r
                                 | None => true
                                 end) t).

Definition destroyAll (t : table) : outcome unit * table :=
  (fulfilled tt, Knex.del (fun _ => true) t).

(** ** The models and their tables *)

Definition VOLATILE_TYPES : list string :=
  [ "Session"; "AccessToken"; "AuthorizationCode"; "RefreshToken";
    "ClientCredentials"; "InitialAccessToken"; "RegistrationAccessToken";
    "DeviceCode"; "Interaction"; "ReplayDetection";
    "PushedAuthorizationRequest" ].

Record StorageAdapter : Type := { table_name : string }.

(** The constructor. *)
Definition new_StorageAdapter (name : string) : StorageAdapter :=
  {| table_name := String.append "oidc." (toSnakeCase name) |}.

(** The database: the rows of each table, by table name. *)
Abbreviation database := (gmap string table).

Definition rows (d : database) (tbl : string) : table := default [] (d !! tbl).

(** A query that writes the table [tbl]. *)
Definition on_table (tbl : string) (f : table -> table) (d : database) : database :=
  <[tbl := f (rows d tbl)]> d.

(** ** The class methods, on the database *)

Record stats : Type := Stats {
  type_name : string;
  count : nat;
  date_min : option Date;
  date_max : option Date;
}.

Definition getVolatileRecordsStats (d : database) : list stats :=
  List.map
    (fun volatile_type_name =>
       let volatile_type := new_StorageAdapter volatile_type_name in
       let res := rows d (table_name volatile_type) in
       {| type_name := volatile_type_name;
          count := Knex.count res;
          date_min := Knex.min_created_at res;
          date_max := Knex.max_created_at res |})
    VOLATILE_TYPES.

Definition deleteVolatileRecords (d : database) : database :=
  fold_left
    (fun d volatile_type_name =>
       let volatile_type := new_StorageAdapter volatile_type_name in
       on_table (table_name volatile_type) (fun t => snd (destroyAll t)) d)
    VOLATILE_TYPES d.

(** The deletion issued by [purge] for one model (lines 306-309). *)
Definition purge_table (now : Date) (tbl : string) (d : database) : database :=
  on_table tbl (Knex.del (Knex.where_expired now)) d.

(** The tables [purge] visits. *)
Definition volatile_tables : list string :=
  List.map (fun volatile_type_name =>
              table_name (new_StorageAdapter volatile_type_name))
           VOLATILE_TYPES.

(** ** The purge variables of the module *)

Record purge_vars : Type := Vars {
  purge_single_execution_protection_delay : Z;
  purge_every_upserts_count : Z;
  upserts_since_purge_count : Z;
  purge_scheduled : bool;
  purge_last_date : option Date;
}.

(** Their values when the module is loaded. *)
Definition initial_vars : purge_vars := Vars 2000 1000 0 false None.

(** [purge], its deletions executed back to back: [now] is the
    [new Date()] of line 303. *)
Definition purge (now : Date) (v : purge_vars) (d : database)
  : purge_vars * database :=
  (Vars (purge_single_execution_protection_delay v)
        (purge_every_upserts_count v)
        (upserts_since_purge_count v)
        (purge_scheduled v)
        (Some now),
   fold_left (fun d tbl => purge_table now tbl d) volatile_tables d).

(** [setPurgeProperties]: a property that is absent or zero is skipped. *)
Definition setPurgeProperties (delay every : option Z) (v : purge_vars)
  : purge_vars :=
  let delay' := match delay with
                | Some n => if n =? 0 then purge_single_execution_protection_delay v else n
                | None => purge_single_execution_protection_delay v
                end in
  let every' := match every with
                | Some n => if n =? 0 then purge_every_upserts_count v else n
                | None => purge_every_upserts_count v
                end in
  Vars delay' every' (upserts_since_purge_count v) (purge_scheduled v)
       (purge_last_date v).

Definition getPurgeInfo (v : purge_vars) : purge_vars := v.

(** ** The event loop

    A call of an [async] method runs until its first [await] and is then
    suspended; it is resumed when what it awaits is there: the answer of
    the database to its query, or the timer.  A world is the state of
    the process and of the database between two such runs. *)

(** What a promise is fulfilled with. *)
Inductive value : Type :=
  | VUndefined
  | VData (d : option jsonb)
  | VRows (l : list row).

(** The promise of a method that returns nothing. *)
Definition returns_nothing (o : outcome unit) : outcome value :=
  match o with
  | fulfilled _ => fulfilled VUndefined
  | rejected e => rejected e
  end.

(** The calls a client of the adapter makes. *)
Inductive call : Type :=
  | call_upsert (this : StorageAdapter) (i : string) (payload : jsonb)
                (expiresIn : option Z)
  | call_find (this : StorageAdapter) (i : string)
  | call_findByUid (this : StorageAdapter) (uid : string)
  | call_findByUserCode (this : StorageAdapter) (userCode : string)
  | call_consume (this : StorageAdapter) (i : string)
  | call_destroy (this : StorageAdapter) (i : string)
  | call_revokeByGrantId (this : StorageAdapter) (grantId : string)
  | call_get (this : StorageAdapter) (ids : option (list string))
             (orderBy : list row -> list row)
  | call_destroyAll (this : StorageAdapter).

(** A suspended call: the method, the line of the [await] it is suspended
    at, and its live variables.  [schedulePurge_288] awaits [purge], itself
    suspended at line 305 on the deletions of the [pending] tables. *)
Inductive task : Type :=
  | upsert_83 (tbl i : string) (update_props : update_props)
  | upsert_86 (tbl i : string) (update_props : update_props)
  | upsert_91 (tbl : string) (update_props : update_props)
  | find_104 (tbl i : string) (now : Date)
  | findByUid_128 (tbl uid : string) (now : Date)
  | findByUserCode_154 (tbl userCode : string) (now : Date)
  | consume_179 (tbl i : string)
  | consume_182 (tbl i : string) (data : jsonb)
  | destroy_196 (tbl i : string)
  | revokeByGrantId_210 (tbl grantId : string)
  | get_230 (tbl : string) (ids : option (list string))
            (orderBy : list row -> list row)
  | destroyAll_243 (tbl : string)
  | schedulePurge_288 (now : Date) (pending : list string)
  | schedulePurge_290 (deadline : Date).

Record world : Type := World {
  clock : Date;                          (* the current instant *)
  vars : purge_vars;                     (* the variables of the module *)
  db : database;
  log : list (Date * string);            (* logger.debug, latest first *)
  tasks : gmap nat task;                 (* suspended calls, by promise *)
  settled : gmap nat (outcome value);    (* settled promises *)
  next_promise : nat;
}.

Definition with_vars (f : purge_vars -> purge_vars) (w : world) : world :=
  World (clock w) (f (vars w)) (db w) (log w) (tasks w) (settled w)
        (next_promise w).

Definition with_db (f : database -> database) (w : world) : world :=
  World (clock w) (vars w) (f (db w)) (log w) (tasks w) (settled w)
        (next_promise w).

Definition logger_debug (msg : string) (w : world) : world :=
  World (clock w) (vars w) (db w) ((clock w, msg) :: log w) (tasks w)
        (settled w) (next_promise w).

(** The promise returned by a call that starts. *)
Definition new_promise (w : world) : world :=
  World (clock w) (vars w) (db w) (log w) (tasks w) (settled w)
        (S (next_promise w)).

(** The call behind promise [p] stops at an [await]. *)
Definition suspend (p : nat) (t : task) (w : world) : world :=
  World (clock w) (vars w) (db w) (log w) (<[p := t]> (tasks w)) (settled w)
        (next_promise w).

(** The call behind promise [p] returns or throws. *)
Definition settle (p : nat) (o : outcome value) (w : world) : world :=
  World (clock w) (vars w) (db w) (log w) (delete p (tasks w))
        (<[p := o]> (settled w)) (next_promise w).

(** [setTimeout] of Node.js: a delay below 1 or above 2^31 - 1 is 1. *)
Definition timer_delay (duration : Z) : Z :=
  if (1 <=? duration) && (duration <=? 2147483647) then duration else 1.

(** [schedulePurge] from line 288 on, behind promise [p]: with deletions
    pending it stays suspended on [purge]; when [purge] has returned it calls
    [delay] and is suspended on the timer. *)
Definition schedulePurge_await (p : nat) (now : Date) (pending : list string)
    (w : world) : world :=
  match pending with
  | [] =>
      suspend p
        (schedulePurge_290
           (clock w
            + timer_delay (purge_single_execution_protection_delay (vars w))))
        w
  | _ :: _ => suspend p (schedulePurge_288 now pending) w
  end.

(** [schedulePurge], up to its first suspension (lines 280-288, and 303-305
    of [purge]). *)
Definition schedulePurge (w : world) : world :=
  let p := next_promise w in
  let w := new_promise w in
  if purge_scheduled (vars w) then
    settle p (fulfilled VUndefined)
      (logger_debug "A purge is already scheduled" w)
  else
    let w :=
      with_vars (fun v => Vars (purge_single_execution_protection_delay v)
                               (purge_every_upserts_count v) 0 true
                               (purge_last_date v)) w in
    let w := logger_debug "Scheduling a new purge" w in
    let now := clock w in
    let w :=
      with_vars (fun v => Vars (purge_single_execution_protection_delay v)
                               (purge_every_upserts_count v)
                               (upserts_since_purge_count v)
                               (purge_scheduled v) (Some now)) w in
    schedulePurge_await p now volatile_tables w.

(** Lines 69-73 of [upsert]. *)
Definition upsert_trigger (w : world) : world :=
  let w :=
    with_vars (fun v => Vars (purge_single_execution_protection_delay v)
                             (purge_every_upserts_count v)
                             (upserts_since_purge_count v + 1)
                             (purge_scheduled v) (purge_last_date v)) w in
  if purge_every_upserts_count (vars w) <=? upserts_since_purge_count (vars w)
  then schedulePurge w
  else w.

(** A call, up to its first [await]. *)
Definition invoke (c : call) (w : world) : world :=
  let p := next_promise w in
  let w := new_promise w in
  match c with
  | call_upsert this i payload expiresIn =>
      let w := upsert_trigger w in
      let update_props := upsert_props payload expiresIn (clock w) in
      suspend p (upsert_83 (table_name this) i update_props) w
  | call_find this i => suspend p (find_104 (table_name this) i (clock w)) w
  | call_findByUid this uid =>
      suspend p (findByUid_128 (table_name this) uid (clock w)) w
  | call_findByUserCode this userCode =>
      suspend p (findByUserCode_154 (table_name this) userCode (clock w)) w
  | call_consume this i => suspend p (consume_179 (table_name this) i) w
  | call_destroy this i => suspend p (destroy_196 (table_name this) i) w
  | call_revokeByGrantId this grantId =>
      suspend p (revokeByGrantId_210 (table_name this) grantId) w
  | call_get this ids orderBy =>
      suspend p (get_230 (table_name this) ids orderBy) w
  | call_destroyAll this => suspend p (destroyAll_243 (table_name this)) w
  end.

(** The database answers the query that the call behind [p] awaits: the
    query is executed on the rows of that moment and the call runs on to
    its next [await] or to its end. *)
Definition resume (p : nat) (t : task) (w : world) : option world :=
  match t with
  | upsert_83 tbl i update_props =>
      match Knex.select (Knex.where_id i) (rows (db w) tbl) with
      | _ :: _ =>
          Some (suspend p
                  (upsert_86 tbl i (with_updated_at (clock w) update_props)) w)
      | [] => Some (suspend p (upsert_91 tbl (with_id i update_props)) w)
      end
  | upsert_86 tbl i update_props =>
      if Knex.binds timestamp update_props then
        Some (settle p (fulfilled VUndefined)
                (with_db (on_table tbl (Knex.update (Knex.where_id i) update_props))
                   w))
      else Some (settle p (rejected DatabaseError) w)
  | upsert_91 tbl update_props =>
      match (if Knex.binds timestamp update_props
             then Knex.insert update_props (clock w) (rows (db w) tbl)
             else None) with
      | Some t' =>
          Some (settle p (fulfilled VUndefined)
                  (with_db (on_table tbl (fun _ => t')) w))
      | None => Some (settle p (rejected DatabaseError) w)
      end
  | find_104 tbl i now =>
      Some (settle p
              (match find i now (rows (db w) tbl) with
               | fulfilled d => fulfilled (VData d)
               | rejected e => rejected e
               end) w)
  | findByUid_128 tbl uid now =>
      Some (settle p
              (match findByUid uid now (rows (db w) tbl) with
               | fulfilled d => fulfilled (VData d)
               | rejected e => rejected e
               end) w)
  | findByUserCode_154 tbl userCode now =>
      Some (settle p
              (match findByUserCode userCode now (rows (db w) tbl) with
               | fulfilled d => fulfilled (VData d)
               | rejected e => rejected e
               end) w)
  | consume_179 tbl i =>
      match Knex.select (Knex.where_id i) (rows (db w) tbl) with
      | [] =>
          Some (settle p
                  (rejected
                     (TypeError "Cannot read properties of undefined (reading 'data')"))
                  w)
      | r :: _ =>
          Some (suspend p
                  (consume_182 tbl i
                     (<["consumed" := JStr (toISOString (clock w))]> (data r)))
                  w)
      end
  | consume_182 tbl i data =>
      Some (settle p (fulfilled VUndefined)
              (with_db (on_table tbl
                          (Knex.update (Knex.where_id i)
                             (Props None (Some data) None None))) w))
  | destroy_196 tbl i =>
      Some (settle p (fulfilled VUndefined)
              (with_db (on_table tbl (fun t => snd (destroy i t))) w))
  | revokeByGrantId_210 tbl grantId =>
      Some (settle p
              (returns_nothing (fst (revokeByGrantId grantId (rows (db w) tbl))))
              (with_db (on_table tbl (fun t => snd (revokeByGrantId grantId t))) w))
  | get_230 tbl ids orderBy =>
      Some (settle p (fulfilled (VRows (get ids orderBy (rows (db w) tbl)))) w)
  | destroyAll_243 tbl =>
      Some (settle p (fulfilled VUndefined)
              (with_db (on_table tbl (fun t => snd (destroyAll t))) w))
  | schedulePurge_288 _ _ => None
  | schedulePurge_290 _ => None
  end.

(** One pending deletion less. *)
Fixpoint remove_first (tbl : string) (pending : list string) : list string :=
  match pending with
  | [] => []
  | x :: pending' =>
      if String.eqb x tbl then pending' else x :: remove_first tbl pending'
  end.

(** The deletion of [tbl] issued by the purge behind [p] is done. *)
Definition deleted (p : nat) (tbl : string) (w : world) : option world :=
  match tasks w !! p with
  | Some (schedulePurge_288 now pending) =>
      if existsb (String.eqb tbl) pending then
        Some (schedulePurge_await p now (remove_first tbl pending)
                (with_db (purge_table now tbl) w))
      else None
  | _ => None
  end.

(** The timer of [delay] fires (lines 290-291), not before its deadline. *)
Definition timeout (p : nat) (w : world) : option world :=
  match tasks w !! p with
  | Some (schedulePurge_290 deadline) =>
      if deadline <=? clock w then
        Some (settle p (fulfilled VUndefined)
                (with_vars (fun v => Vars (purge_single_execution_protection_delay v)
                                          (purge_every_upserts_count v)
                                          (upserts_since_purge_count v)
                                          false (purge_last_date v)) w))
      else None
  | _ => None
  end.

(** What happens next. *)
Inductive label : Type :=
  | Tick (d : Z)                       (* [d] milliseconds pass *)
  | Invoke (c : call)                  (* a client calls a method *)
  | Reply (p : nat)                    (* the database answers a query *)
  | Deleted (p : nat) (tbl : string)   (* it has done a deletion of a purge *)
  | Fires (p : nat).                   (* a timer fires *)

Definition step (l : label) (w : world) : option world :=
  match l with
  | Tick d =>
      if 0 <=? d
      then Some (World (clock w + d) (vars w) (db w) (log w) (tasks w)
                       (settled w) (next_promise w))
      else None
  | Invoke c => Some (invoke c w)
  | Reply p =>
      match tasks w !! p with
      | Some t => resume p t w
      | None => None
      end
  | Deleted p tbl => deleted p tbl w
  | Fires p => timeout p w
  end.

Fixpoint exec (ls : list label) (w : world) : option world :=
  match ls with
  | [] => Some w
  | l :: ls' =>
      match step l w with
      | Some w' => exec ls' w'
      | None => None
      end
  end.

(** The process after start-up: the module is loaded, the purge is
    configured, nothing is running. *)
Definition initial_world (delay every : option Z) (d : database) (now : Date)
  : world :=
  World now (setPurgeProperties delay every initial_vars) d [] ∅ ∅ 0.

(** The instants at which a purge was scheduled, latest first. *)
Definition purge_times (w : world) : list Date :=
  List.map fst
    (List.filter (fun e => String.eqb (snd e) "Scheduling a new purge") (log w)).

(** The cool-down between the end of a purge and the next one. *)
Definition cooldown (w : world) : Z :=
  timer_delay (purge_single_execution_protection_delay (vars w)).

(** A purge of [schedulePurge] is in flight or cooling down. *)
Definition is_purge (t : task) : bool :=
  match t with
  | schedulePurge_288 _ _ | schedulePurge_290 _ => true
  | _ => false
  end.

(** ** The earlier revision of the adapter: a purge awaited by [upsert]

    The second revision kept in the sources has no scheduler: [upsert]
    counts its calls and, every [purge_period] calls, awaits [purgeExpired]
    on its own table before it writes. *)

Record purge_counter : Type := Counter {
  purge_period : Z;
  upserts_count : Z;
}.

(** The counter when that module is loaded. *)
Definition initial_counter : purge_counter := Counter 1000 0.

Definition setPurgePeriod (count : Z) (c : purge_counter) : purge_counter :=
  Counter count (upserts_count c).

(** The state of that revision: its two variables, the database, and what
    [logger.debug] has written, latest first. *)
Record store : Type := Store {
  counter : purge_counter;
  tables : database;
  debug_log : list string;
}.

(** [purgeExpired]: [now] is its [new Date()]. *)
Definition purgeExpired (this : StorageAdapter) (now : Date) (s : store) : store :=
  Store (counter s)
        (purge_table now (table_name this) (tables s))
        ("purging" :: debug_log s).

(** The arguments of a call of [upsert], and the instants it reads: in
    [purgeExpired], at [Date.now()], at [new Date()], and in the database
    on insertion. *)
Record upsert_args : Type := Args {
  arg_id : string;
  arg_payload : jsonb;
  arg_expiresIn : option Z;
  at_purge : Date;
  at_now : Date;
  at_update : Date;
  at_insert : Date;
}.

(** [upsert] of that revision, its queries executed back to back: from
    line 399 on it is the [upsert] above. *)
Definition upsert_awaiting_purge (this : StorageAdapter) (a : upsert_args)
    (s : store) : outcome unit * store :=
  let n := upserts_count (counter s) + 1 in
  let s :=
    if purge_period (counter s) <=? n
    then purgeExpired this (at_purge a)
           (Store (Counter (purge_period (counter s)) 0) (tables s) (debug_log s))
    else Store (Counter (purge_period (counter s)) n) (tables s) (debug_log s) in
  let write :=
    upsert (arg_id a) (arg_payload a) (arg_expiresIn a) (at_now a) (at_update a)
           (at_insert a) in
  (fst (write (rows (tables s) (table_name this))),
   Store (counter s)
         (on_table (table_name this) (fun t => snd (write t)) (tables s))
         (debug_log s)).

(** Calls of [upsert] on one instance, each awaited before the next. *)
Definition upserts_awaiting_purge (this : StorageAdapter)
    (calls : list upsert_args) (s : store) : store :=
  fold_left (fun s a => snd (upsert_awaiting_purge this a s)) calls s.

(** [cleanVolatileData] *)
Definition cleanVolatileData (d : database) : database :=
  fold_left
    (fun d volatile_type_name =>
       let volatile_type := new_StorageAdapter volatile_type_name in
       on_table (table_name volatile_type) (fun t => snd (destroyAll t)) d)
    VOLATILE_TYPES d.

(** ** Sequences of calls and of purges *)

(** Calls of [upsert] made one after the other, none awaited. *)
Definition upsert_calls
    (calls : list (StorageAdapter * string * jsonb * option Z)) : list label :=
  List.map (fun c => match c with
                     | (this, i, payload, expiresIn) =>
                         Invoke (call_upsert this i payload expiresIn)
                     end) calls.

(** A table after the purges of the instants [purges], in that order. *)
Definition purged (purges : list Date) (t : table) : table :=
  fold_left (fun t now => Knex.del (Knex.where_expired now) t) purges t.

(** Calls of [setPurgeProperties], in that order. *)
Definition configured (configs : list (option Z * option Z)) (v : purge_vars)
  : purge_vars :=
  fold_left (fun v c => setPurgeProperties (fst c) (snd c) v) configs v.

(** ** Sample data, for the examples *)

(** The names of the models in snake case, as [to-snake-case] gives them. *)
Definition sample_toSnakeCase (name : string) : string :=
  if String.eqb name "Session" then "session"
  else if String.eqb name "AccessToken" then "access_token"
  else if String.eqb name "AuthorizationCode" then "authorization_code"
  else if String.eqb name "RefreshToken" then "refresh_token"
  else if String.eqb name "ClientCredentials" then "client_credentials"
  else if String.eqb name "Client" then "client"
  else if String.eqb name "InitialAccessToken" then "initial_access_token"
  else if String.eqb name "RegistrationAccessToken" then "registration_access_token"
  else if String.eqb name "DeviceCode" then "device_code"
  else if String.eqb name "Interaction" then "interaction"
  else if String.eqb name "ReplayDetection" then "replay_detection"
  else if String.eqb name "PushedAuthorizationRequest" then "pushed_authorization_request"
  else name.

(** A rendering of instants: the digits do not matter to the adapter. *)
Definition sample_toISOString (d : Date) : string :=
  if d =? 5000 then "1970-01-01T00:00:05.000Z" else "1970-01-01T00:00:00.000Z".

(** The longest plain prefix of a text, and what follows it. *)
Fixpoint plain_prefix (s : string) : string * string :=
  match s with
  | EmptyString => (EmptyString, EmptyString)
  | String c s' =>
      if plain_char c
      then (String c (fst (plain_prefix s')), snd (plain_prefix s'))
      else (EmptyString, s)
  end.

(** A reading of the texts of the adapter: a text [{"key": "value"}] whose
    key and value are plain stands for the test of that property, as in
    PostgreSQL; the other texts are not read.  (Of those PostgreSQL reads
    some, the texts with well-formed escapes and the texts of several
    properties among them; it rejects, as here, a text in which a backslash
    stands before a character that makes no escape.) *)
Definition sample_jsonb_pattern (text : string) : option (jsonb -> bool) :=
  match text with
  | String open (String q0 rest) =>
      let key := fst (plain_prefix rest) in
      match snd (plain_prefix rest) with
      | String q1 (String colon (String space (String q2 rest))) =>
          let value := fst (plain_prefix rest) in
          if Ascii.eqb open "{" && Ascii.eqb q0 quote && Ascii.eqb q1 quote
             && Ascii.eqb colon ":" && Ascii.eqb space " " && Ascii.eqb q2 quote
             && String.eqb (snd (plain_prefix rest)) (String quote "}")
          then Some (holds_string key value)
          else None
      | _ => None
      end
  | _ => None
  end.

(** The instants of a PostgreSQL timestamp, from 4713 BC to 294276 AD, in
    milliseconds since the epoch. *)
Definition sample_timestamp (d : Date) : bool :=
  (-210866803200000 <=? d) && (d <=? 9224318015999999).

Definition sample_payload : jsonb :=
  <["uid" := JStr "u1"]> (<["kind" := JStr "Session"]> ∅).

Definition sample_adapter : StorageAdapter := {| table_name := "oidc.session" |}.

(** A session stored at the instant 1000, for 60 seconds. *)
Definition sample_row : row := Row "s1" sample_payload 1000 None (Some 61000).

(** Three sessions: one that expired at 2000, one that expires at 9000, one
    that never does. *)
Definition sample_table : table :=
  [ Row "old" ∅ 100 None (Some 2000);
    Row "new" ∅ 200 None (Some 9000);
    Row "kept" ∅ 300 None None ].

Definition sample_database : database := <["oidc.session" := sample_table]> ∅.

(** Twenty calls of [upsert], one after the other. *)
Definition sample_burst : list label :=
  repeat (Invoke (call_upsert sample_adapter "s1" sample_payload (Some 60))) 20.

(** Four calls of [upsert], as arguments. *)
Definition sample_calls : list (StorageAdapter * string * jsonb * option Z) :=
  repeat (sample_adapter, "s1", sample_payload, Some 60) 4.

(** The earlier revision with a period of 3, and a call made at the
    instant 10. *)
Definition sample_store : store := Store (Counter 3 0) sample_database [].

Definition sample_args : upsert_args :=
  Args "s1" sample_payload (Some 60) 10 10 10 10.

(** ** Vocabulary of the properties *)

(** What an [upsert] without a time to live does to [expires_at]: a new row
    has none, a rewritten row keeps its own. *)
Definition expires_at_not_written (i : string) (t : table) (r : row) : Prop :=
  ((forall r0, In r0 t -> id r0 <> i) /\ expires_at r = None)
  \/ (exists r0, In r0 t /\ id r0 = i /\ expires_at r = expires_at r0).

(** The rows of a table after the two queries of [upsert], when the
    database takes them. *)
Definition rows_written (i : string) (props : update_props)
    (now_update db_now : Date) (t : table) : table :=
  match Knex.select (Knex.where_id i) t with
  | _ :: _ => Knex.update (Knex.where_id i) (with_updated_at now_update props) t
  | [] => (t ++ [Knex.inserted (with_id i props) db_now])%list
  end.

(** The instants of a list, latest first, are at least [gap] apart. *)
Fixpoint spaced (gap : Z) (times : list Date) : Prop :=
  match times with
  | later :: ((earlier :: _) as rest) => earlier + gap <= later /\ spaced gap rest
  | _ => True
  end.

(** Two task tables hold the same purges. *)
Definition same_purges (m m' : gmap nat task) : Prop :=
  forall q t, is_purge t = true -> (m' !! q = Some t <-> m !! q = Some t).

(** What holds of every world the process can be in: the flag
    [purge_scheduled] is set exactly while one purge is in flight or cooling
    down; the instant of the last purge is the one the log shows; the
    purges logged are a cool-down apart. *)
Record coherent (w : world) : Prop := Coherent {
  idle_no_purge :
    purge_scheduled (vars w) = false ->
    forall p t, tasks w !! p = Some t -> is_purge t = false;
  idle_cooled :
    purge_scheduled (vars w) = false ->
    forall t0, purge_last_date (vars w) = Some t0 -> t0 + cooldown w <= clock w;
  busy_purge :
    purge_scheduled (vars w) = true ->
    exists p t, tasks w !! p = Some t /\ is_purge t = true;
  one_purge :
    forall p q t u, tasks w !! p = Some t -> tasks w !! q = Some u ->
                    is_purge t = true -> is_purge u = true -> p = q;
  running_since :
    forall p now pending,
      tasks w !! p = Some (schedulePurge_288 now pending) ->
      purge_last_date (vars w) = Some now /\ now <= clock w;
  cooling_until :
    forall p deadline,
      tasks w !! p = Some (schedulePurge_290 deadline) ->
      exists t0, purge_last_date (vars w) = Some t0 /\ t0 + cooldown w <= deadline;
  promises_fresh :
    forall p t, tasks w !! p = Some t -> (p < next_promise w)%nat;
  times_last :
    forall t0 l, purge_times w = t0 :: l -> purge_last_date (vars w) = Some t0;
  times_spaced : spaced (cooldown w) (purge_times w);
  times_past : forall t0, In t0 (purge_times w) -> t0 <= clock w;
}.

(** The promises of the suspended calls are below [n]. *)
Definition below (n : nat) (m : gmap nat task) : Prop :=
  forall q u, m !! q = Some u -> (q < n)%nat.

(** No purge is pending in [m'] that was not pending in [m]. *)
Definition no_new_purge (m m' : gmap nat task) : Prop :=
  forall q t, m' !! q = Some t -> is_purge t = true ->
              exists t0, m !! q = Some t0 /\ is_purge t0 = true.

(** What a run other than a call of [upsert] leaves as it was. *)
Definition purge_untouched (w w' : world) : Prop :=
  upserts_since_purge_count (vars w') = upserts_since_purge_count (vars w)
  /\ purge_every_upserts_count (vars w') = purge_every_upserts_count (vars w)
  /\ purge_single_execution_protection_delay (vars w')
     = purge_single_execution_protection_delay (vars w)
  /\ purge_last_date (vars w') = purge_last_date (vars w)
  /\ log w' = log w
  /\ no_new_purge (tasks w) (tasks w').

(** The label is a call of [upsert]. *)
Definition is_upsert (l : label) : bool :=
  match l with
  | Invoke (call_upsert _ _ _ _) => true
  | _ => false
  end.

(** A property given to [setPurgeProperties] that it skips. *)
Definition skipped (given : option Z) : Prop := given = None \/ given = Some 0.

(** A reading of the texts that takes those of a plain key and value for
    what they say. *)
Definition reads_plain (pattern : string -> option (jsonb -> bool)) : Prop :=
  forall key value,
    plain key = true -> plain value = true ->
    pattern (containment_text key value) = Some (holds_string key value).

(** * Properties *)

(** ** Queries *)

Lemma first_data_some (p : row -> bool) (t : table) (d : jsonb) :
  (exists r, In r t /\ p r = true) ->
  (forall r, In r t -> p r = true -> data r = d) ->
  first_data (Knex.select p t) = fulfilled (Some d).
Proof.
  unfold Knex.select. intros [r [Hin Hp]] Hall.
  assert (Hf : In r (List.filter p t)) by (apply filter_In; auto).
  destruct (List.filter p t) as [|r0 l] eqn:E; [destruct Hf|].
  simpl. f_equal. f_equal.
  assert (H0 : In r0 (List.filter p t)) by (rewrite E; left; reflexivity).
  apply filter_In in H0 as [H1 H2]. auto.
Qed.

Lemma first_data_none (p : row -> bool) (t : table) :
  (forall r, In r t -> p r = false) ->
  first_data (Knex.select p t) = fulfilled None.
Proof.
  unfold Knex.select. intros Hall.
  destruct (List.filter p t) as [|r0 l] eqn:E; [reflexivity|].
  assert (H0 : In r0 (List.filter p t)) by (rewrite E; left; reflexivity).
  apply filter_In in H0 as [H1 H2]. rewrite (Hall _ H1) in H2. discriminate.
Qed.

Lemma first_data_inv (p : row -> bool) (t : table) (o : option jsonb) :
  first_data (Knex.select p t) = fulfilled o ->
  match o with
  | Some d => exists r, In r t /\ p r = true /\ data r = d
  | None => forall r, In r t -> p r = false
  end.
Proof.
  unfold Knex.select. intros H.
  destruct (List.filter p t) as [|r0 l] eqn:E; simpl in H; inversion H; subst.
  - intros r Hin. destruct (p r) eqn:Hp; [|reflexivity].
    assert (Hf : In r (List.filter p t)) by (apply filter_In; auto).
    rewrite E in Hf. destruct Hf.
  - assert (H0 : In r0 (List.filter p t)) by (rewrite E; left; reflexivity).
    apply filter_In in H0 as [H1 H2]. eauto.
Qed.

Lemma select_where_id_nil (i : string) (t : table) :
  Knex.select (Knex.where_id i) t = [] <-> (forall r, In r t -> id r <> i).
Proof.
  unfold Knex.select, Knex.where_id. split.
  - intros E r Hin Hid.
    assert (Hf : In r (List.filter (fun r => String.eqb (id r) i) t)).
    { apply filter_In. split; [assumption|]. now apply String.eqb_eq. }
    rewrite E in Hf. destruct Hf.
  - intros Hall.
    destruct (List.filter _ t) as [|r0 l] eqn:E; [reflexivity|].
    assert (H0 : In r0 (List.filter (fun r => String.eqb (id r) i) t))
      by (rewrite E; left; reflexivity).
    apply filter_In in H0 as [H1 H2]. apply String.eqb_eq in H2.
    now destruct (Hall _ H1).
Qed.

(** An id that no row has can be inserted. *)
Lemma insert_fresh (i : string) (props : update_props) (db_now : Date)
    (t : table) :
  Knex.select (Knex.where_id i) t = [] ->
  set_id props = Some i ->
  Knex.insert props db_now t = Some (t ++ [Knex.inserted props db_now])%list.
Proof.
  intros E Hid. unfold Knex.insert. cbv zeta.
  destruct (existsb _ t) eqn:Ex; [|reflexivity].
  apply existsb_exists in Ex as [r [Hin Hr]]. apply String.eqb_eq in Hr.
  cbn [Knex.inserted id] in Hr. rewrite Hid in Hr.
  destruct (proj1 (select_where_id_nil i t) E r Hin Hr).
Qed.

(** The rows of a table after [upsert], when the properties do not carry
    an id: the rows of that id are rewritten, or one row is added. *)
Lemma In_rows_written (i : string) (props : update_props)
    (now_update db_now : Date) (t : table) (r : row) :
  set_id props = None ->
  In r (rows_written i props now_update db_now t) <->
  (exists r0, In r0 t /\ id r0 = i
              /\ r = Knex.assign (with_updated_at now_update props) r0)
  \/ (In r t /\ id r <> i)
  \/ ((forall r0, In r0 t -> id r0 <> i)
      /\ r = Knex.inserted (with_id i props) db_now).
Proof.
  intros Hid. unfold rows_written.
  destruct (Knex.select (Knex.where_id i) t) as [|r1 l] eqn:E.
  - pose proof (proj1 (select_where_id_nil i t) E) as E'.
    clear E; rename E' into E.
    rewrite in_app_iff. simpl. split.
    + intros [H|[H|[]]]; [right; left; split; auto|right; right; auto].
    + intros [[r0 [H1 [H2 _]]]|[[H _]|[_ H]]]; auto.
      now destruct (E _ H1).
  - assert (Hex : exists r0, In r0 t /\ id r0 = i).
    { assert (H0 : In r1 (Knex.select (Knex.where_id i) t))
        by (rewrite E; left; reflexivity).
      apply filter_In in H0 as [H1 H2]. apply String.eqb_eq in H2. eauto. }
    unfold Knex.update. rewrite in_map_iff. unfold Knex.where_id. split.
    + intros [r0 [Hr Hin]].
      destruct (String.eqb (id r0) i) eqn:Ei.
      * apply String.eqb_eq in Ei. left. exists r0. auto.
      * apply String.eqb_neq in Ei. subst r. right. left. auto.
    + intros [[r0 [H1 [H2 H3]]]|[[H1 H2]|[H1 _]]].
      * exists r0. split; [|assumption].
        apply String.eqb_eq in H2. now rewrite H2.
      * exists r. split; [|assumption].
        apply String.eqb_neq in H2. now rewrite H2.
      * destruct Hex as [r0 [Ha Hb]]. now destruct (H1 _ Ha).
Qed.

(** [upsert] leaves at least one row of the id. *)
Lemma rows_written_has_row (i : string) (props : update_props)
    (now_update db_now : Date) (t : table) :
  set_id props = None ->
  exists r, In r (rows_written i props now_update db_now t) /\ id r = i.
Proof.
  intros Hid.
  destruct (Knex.select (Knex.where_id i) t) as [|r1 l] eqn:E.
  - exists (Knex.inserted (with_id i props) db_now). split; [|reflexivity].
    apply In_rows_written; [assumption|]. right. right.
    split; [|reflexivity]. exact (proj1 (select_where_id_nil i t) E).
  - assert (H0 : In r1 (Knex.select (Knex.where_id i) t))
      by (rewrite E; left; reflexivity).
    apply filter_In in H0 as [H1 H2]. apply String.eqb_eq in H2.
    exists (Knex.assign (with_updated_at now_update props) r1). split.
    + apply In_rows_written; [assumption|]. left. exists r1. auto.
    + simpl. rewrite Hid. assumption.
Qed.

(** The queries of [upsert] are taken when its properties are, and only
    then: the insertion is that of an id that no row has. *)
Lemma upsert_write_binds (i : string) (props : update_props)
    (now_update db_now : Date) (t : table) :
  upsert_write i props now_update db_now t
  = if Knex.binds timestamp props
    then Some (rows_written i props now_update db_now t)
    else None.
Proof.
  unfold upsert_write, rows_written. cbv zeta.
  change (Knex.binds timestamp (with_id i props))
    with (Knex.binds timestamp props).
  change (Knex.binds timestamp (with_updated_at now_update props))
    with (Knex.binds timestamp props).
  destruct (Knex.select (Knex.where_id i) t) eqn:E;
    destruct (Knex.binds timestamp props); try reflexivity.
  now apply (insert_fresh i).
Qed.

Lemma upsert_props_id (payload : jsonb) (expiresIn : option Z) (now : Date) :
  set_id (upsert_props payload expiresIn now) = None.
Proof.
  unfold upsert_props. destruct expiresIn as [n|]; [|reflexivity].
  now destruct (n =? 0).
Qed.

Lemma upsert_props_data (payload : jsonb) (expiresIn : option Z) (now : Date) :
  set_data (upsert_props payload expiresIn now) = Some payload.
Proof.
  unfold upsert_props. destruct expiresIn as [n|]; [|reflexivity].
  now destruct (n =? 0).
Qed.

Lemma upsert_props_expires (payload : jsonb) (n : Z) (now : Date) :
  n <> 0 ->
  set_expires_at (upsert_props payload (Some n) now)
  = Some (new_Date (now + n * 1000)).
Proof.
  intros Hn. unfold upsert_props.
  destruct (n =? 0) eqn:E; [|reflexivity]. apply Z.eqb_eq in E. contradiction.
Qed.

Lemma upsert_props_no_ttl (payload : jsonb) (expiresIn : option Z) (now : Date) :
  expiresIn = None \/ expiresIn = Some 0 ->
  upsert_props payload expiresIn now = Props None (Some payload) None None.
Proof. intros [->| ->]; reflexivity. Qed.

(** The database takes the properties of [upsert] unless the time to live
    gives an expiration that cannot be stored. *)
Lemma upsert_props_binds (payload : jsonb) (expiresIn : option Z) (now : Date) :
  Knex.binds timestamp (upsert_props payload expiresIn now)
  = match expiresIn with
    | Some n => (n =? 0) || storable (now + n * 1000)
    | None => true
    end.
Proof.
  unfold upsert_props. destruct expiresIn as [n|]; [|reflexivity].
  destruct (n =? 0); [reflexivity|].
  unfold Knex.binds, new_Date, storable. cbn [set_expires_at orb].
  now destruct (in_range (now + n * 1000)).
Qed.

Arguments upsert_props : simpl never.

Lemma upsert_bound (i : string) (payload : jsonb) (expiresIn : option Z)
    (now now_update db_now : Date) (t : table) :
  Knex.binds timestamp (upsert_props payload expiresIn now) = true ->
  upsert i payload expiresIn now now_update db_now t
  = (fulfilled tt,
     rows_written i (upsert_props payload expiresIn now) now_update db_now t).
Proof. intros Hb. unfold upsert. now rewrite upsert_write_binds, Hb. Qed.

Lemma upsert_unbound (i : string) (payload : jsonb) (expiresIn : option Z)
    (now now_update db_now : Date) (t : table) :
  Knex.binds timestamp (upsert_props payload expiresIn now) = false ->
  upsert i payload expiresIn now now_update db_now t
  = (rejected DatabaseError, t).
Proof. intros Hb. unfold upsert. now rewrite upsert_write_binds, Hb. Qed.

Lemma upsert_no_ttl (i : string) (payload : jsonb) (expiresIn : option Z)
    (now now_update db_now : Date) (t : table) :
  expiresIn = None \/ expiresIn = Some 0 ->
  upsert i payload expiresIn now now_update db_now t
  = (fulfilled tt,
     rows_written i (Props None (Some payload) None None) now_update db_now t).
Proof.
  intros Hz. rewrite upsert_bound.
  - now rewrite (upsert_props_no_ttl _ _ _ Hz).
  - rewrite upsert_props_binds. now destruct Hz as [->| ->].
Qed.

Lemma upsert_ttl (i : string) (payload : jsonb) (n : Z)
    (now now_update db_now : Date) (t : table) :
  n <> 0 ->
  upsert i payload (Some n) now now_update db_now t
  = if storable (now + n * 1000)
    then (fulfilled tt,
          rows_written i (upsert_props payload (Some n) now) now_update db_now t)
    else (rejected DatabaseError, t).
Proof.
  intros Hn. apply Z.eqb_neq in Hn.
  destruct (storable (now + n * 1000)) eqn:E.
  - apply upsert_bound. rewrite upsert_props_binds, Hn, E. reflexivity.
  - apply upsert_unbound. rewrite upsert_props_binds, Hn, E. reflexivity.
Qed.

(** The rows of the id after an [upsert] with a time to live. *)
Lemma upsert_row_ttl (i : string) (payload : jsonb) (n : Z)
    (now now_update db_now : Date) (t : table) (r : row) :
  n <> 0 ->
  storable (now + n * 1000) = true ->
  In r (snd (upsert i payload (Some n) now now_update db_now t)) ->
  id r = i ->
  data r = payload /\ expires_at r = Some (now + n * 1000).
Proof.
  intros Hn Hr Hin Hid. rewrite (upsert_ttl _ _ _ _ _ _ _ Hn), Hr in Hin.
  cbn [snd] in Hin. apply andb_true_iff in Hr as [Hr _].
  apply In_rows_written in Hin; [|apply upsert_props_id].
  destruct Hin as [[r0 [H1 [H2 H3]]]|[[H1 H2]|[H1 H2]]].
  - subst r. simpl.
    rewrite upsert_props_data, upsert_props_expires by assumption.
    unfold new_Date. rewrite Hr. auto.
  - contradiction.
  - subst r. simpl.
    rewrite upsert_props_data, upsert_props_expires by assumption.
    unfold new_Date. rewrite Hr. auto.
Qed.

(** The other rows are those of before. *)
Lemma upsert_row_other (i : string) (payload : jsonb) (expiresIn : option Z)
    (now now_update db_now : Date) (t : table) (r : row) :
  id r <> i ->
  In r (snd (upsert i payload expiresIn now now_update db_now t)) <-> In r t.
Proof.
  intros Hid.
  destruct (Knex.binds timestamp (upsert_props payload expiresIn now)) eqn:Hb;
    [|now rewrite upsert_unbound].
  rewrite upsert_bound by assumption. cbn [snd].
  rewrite In_rows_written by apply upsert_props_id. split.
  - intros [[r0 [H1 [H2 H3]]]|[[H1 H2]|[H1 H2]]]; [| assumption |].
    + subst r. simpl in Hid. rewrite upsert_props_id in Hid. contradiction.
    + subst r. simpl in Hid. contradiction.
  - intros H. right. left. auto.
Qed.

(** A stored model has a row, when the call is fulfilled. *)
Lemma upsert_has_row (i : string) (payload : jsonb) (expiresIn : option Z)
    (now now_update db_now : Date) (t : table) :
  Knex.binds timestamp (upsert_props payload expiresIn now) = true ->
  exists r,
    In r (snd (upsert i payload expiresIn now now_update db_now t)) /\ id r = i.
Proof.
  intros Hb. rewrite upsert_bound by assumption. cbn [snd].
  apply rows_written_has_row, upsert_props_id.
Qed.

(** ** Visibility of a stored model *)

Lemma where_id_true (i : string) (r : row) :
  Knex.where_id i r = true <-> id r = i.
Proof. unfold Knex.where_id. apply String.eqb_eq. Qed.

Lemma holds_string_true (key value : string) (d : jsonb) :
  holds_string key value d = true <-> d !! key = Some (JStr value).
Proof.
  unfold holds_string. destruct (d !! key) as [[| | |s| |]|]; split;
    try discriminate.
  - intros H. apply String.eqb_eq in H. now subst s.
  - intros H. inversion H. apply String.eqb_refl.
Qed.

(** A lookup on the criterion [q], after an [upsert] with a time to live,
    when the stored row meets [q] and no other visible row does. *)
Lemma lookup_after_upsert (q : row -> bool) (i : string) (payload : jsonb)
    (n : Z) (now0 now_update db_now : Date) (t : table) (now : Date) :
  n <> 0 ->
  storable (now0 + n * 1000) = true ->
  (forall r, id r = i -> data r = payload -> q r = true) ->
  (forall r, In r t -> id r <> i -> q r = true ->
             Knex.where_not_expired now r = false) ->
  first_data
    (Knex.select (fun r => q r && Knex.where_not_expired now r)
       (snd (upsert i payload (Some n) now0 now_update db_now t)))
  = fulfilled (if now <? now0 + n * 1000 then Some payload else None).
Proof.
  intros Hn Hr Hq Hother.
  assert (Hb : Knex.binds timestamp (upsert_props payload (Some n) now0) = true).
  { rewrite upsert_props_binds, Hr. apply orb_true_r. }
  pose proof (upsert_has_row i payload (Some n) now0 now_update db_now t Hb)
    as Hhas.
  set (t' := snd (upsert i payload (Some n) now0 now_update db_now t)) in *.
  assert (Hrow : forall r, In r t' -> id r = i ->
                 data r = payload /\ expires_at r = Some (now0 + n * 1000))
    by (intros r; apply upsert_row_ttl; assumption).
  assert (Hrest : forall r, In r t' -> id r <> i ->
                  q r && Knex.where_not_expired now r = false).
  { intros r Hin Hid. apply upsert_row_other in Hin; [|assumption].
    destruct (q r) eqn:Eq; [|reflexivity]. simpl. now apply Hother. }
  destruct (now <? now0 + n * 1000) eqn:E.
  - apply first_data_some.
    + destruct Hhas as [r [Hin Hid]].
      exists r. split; [exact Hin|].
      destruct (Hrow r Hin Hid) as [Hd He].
      rewrite (Hq r Hid Hd). unfold Knex.where_not_expired. now rewrite He.
    + intros r Hin Hp.
      destruct (String.eqb (id r) i) eqn:Ei.
      * apply String.eqb_eq in Ei. now destruct (Hrow r Hin Ei).
      * apply String.eqb_neq in Ei. rewrite (Hrest r Hin Ei) in Hp. discriminate.
  - apply first_data_none. intros r Hin.
    destruct (String.eqb (id r) i) eqn:Ei.
    + apply String.eqb_eq in Ei. destruct (Hrow r Hin Ei) as [_ He].
      unfold Knex.where_not_expired. rewrite He, E. apply andb_false_r.
    + apply String.eqb_neq in Ei. now apply Hrest.
Qed.

(** A purge deletes no row that a later lookup would return. *)
Lemma select_after_del (p q : row -> bool) (t : table) :
  (forall r, p r = true -> q r = false) ->
  Knex.select p (Knex.del q t) = Knex.select p t.
Proof.
  intros Hpq. unfold Knex.select, Knex.del.
  induction t as [|r t' IH]; [reflexivity|].
  cbn [List.filter]. destruct (q r) eqn:Eq; cbn [negb].
  - destruct (p r) eqn:Ep; [|assumption].
    rewrite (Hpq r Ep) in Eq. discriminate.
  - cbn [List.filter]. destruct (p r); [f_equal|]; assumption.
Qed.

Lemma not_expired_not_purged (now_purge now : Date) (r : row) :
  now_purge <= now ->
  Knex.where_not_expired now r = true -> Knex.where_expired now_purge r = false.
Proof.
  unfold Knex.where_not_expired, Knex.where_expired.
  destruct (expires_at r) as [e|]; [|reflexivity].
  intros Hle H. apply Z.ltb_lt in H. apply Z.leb_gt. lia.
Qed.

(** The three lookups return a row only if it is visible: it carries no
    [expires_at], or one strictly after the instant of the lookup. *)
Lemma lookups_return_visible_rows (t : table) (now : Date) (key : string)
    (d : jsonb) :
  find key now t = fulfilled (Some d)
  \/ findByUid key now t = fulfilled (Some d)
  \/ findByUserCode key now t = fulfilled (Some d) ->
  exists r, In r t /\ data r = d
            /\ (expires_at r = None \/ exists e, expires_at r = Some e /\ now < e).
Proof.
  assert (Hvis : forall r, Knex.where_not_expired now r = true ->
            expires_at r = None \/ exists e, expires_at r = Some e /\ now < e).
  { intros r. unfold Knex.where_not_expired.
    destruct (expires_at r) as [e|]; [|auto].
    intros H. apply Z.ltb_lt in H. eauto. }
  unfold findByUid, findByUserCode.
  intros [H|[H|H]];
    [ | destruct (jsonb_pattern _); [|discriminate]
      | destruct (jsonb_pattern _); [|discriminate] ];
    apply first_data_inv in H;
    destruct H as [r [Hin [Hp Hd]]]; apply andb_true_iff in Hp as [_ Hp];
    exists r; auto.
Qed.

(** A model stored under a new id without a time to live is found at every
    instant. *)
Lemma find_new_without_ttl (i : string) (payload : jsonb)
    (now_update db_now : Date) (t : table) (now : Date) :
  (forall r, In r t -> id r <> i) ->
  find i now
    (rows_written i (Props None (Some payload) None None) now_update db_now t)
  = fulfilled (Some payload).
Proof.
  intros Habs.
  assert (Hrow : forall r,
            In r (rows_written i (Props None (Some payload) None None)
                    now_update db_now t) ->
            id r = i -> data r = payload /\ expires_at r = None).
  { intros r Hin Hid. apply In_rows_written in Hin; [|reflexivity].
    destruct Hin as [[r0 [H1 [H2 _]]]|[[_ H1]|[_ H1]]].
    - destruct (Habs r0 H1 H2).
    - contradiction.
    - subst r. auto. }
  apply first_data_some.
  - destruct (rows_written_has_row i (Props None (Some payload) None None)
                now_update db_now t eq_refl) as [r [Hin Hid]].
    exists r. split; [assumption|].
    destruct (Hrow r Hin Hid) as [_ He].
    unfold Knex.where_not_expired. rewrite He.
    rewrite (proj2 (where_id_true i r) Hid). reflexivity.
  - intros r Hin Hp. apply andb_true_iff in Hp as [Hp _].
    apply where_id_true in Hp. now destruct (Hrow r Hin Hp).
Qed.

(** What an [upsert] without a time to live leaves of [expires_at]. *)
Lemma rows_written_without_ttl (i : string) (payload : jsonb)
    (now_update db_now : Date) (t : table) (r : row) :
  In r (rows_written i (Props None (Some payload) None None) now_update db_now t) ->
  id r = i ->
  expires_at_not_written i t r.
Proof.
  intros Hin Hid. apply In_rows_written in Hin; [|reflexivity].
  destruct Hin as [[r0 [H1 [H2 H3]]]|[[H1 H2]|[H1 H2]]].
  - right. exists r0. subst r. auto.
  - contradiction.
  - left. subst r. auto.
Qed.

(** C1 (amended): a model stored by [upsert] with a non-zero time to live of
    [n] seconds, at the instant [now0], when [now0 + n * 1000] milliseconds
    is an instant that a [Date] and the database can hold, is returned by
    [find] while the current instant is strictly before it, and [find]
    returns [null] from that instant on, whether or not a purge has
    meanwhile deleted the expired rows; [findByUid] and [findByUserCode] do
    the same for a model that is the only visible one with that uid or user
    code, when the database reads the text made of the uid or user code as
    the test of that string.  When [now0 + n * 1000] is not such an instant
    the call is rejected and nothing is stored.  With a time to live of
    zero no [expires_at] is written: a model stored under a new id is found
    at every instant.
    [findByUid] and [findByUserCode] are rejected when the database does not
    read the text, and none of the three lookups ever returns a row whose
    [expires_at] is at or before the current instant. *)
Theorem find_visible_until_expiry (i : string) (payload : jsonb) (n : Z)
    (now0 now_update db_now : Date) (t : table) (now : Date) :
  let stored := upsert i payload (Some n) now0 now_update db_now t in
  let t' := snd stored in
  let expiry := now0 + n * 1000 in
  let visible := if now <? expiry then Some payload else None in
  (n <> 0 -> storable expiry = true ->
   fst stored = fulfilled tt
   /\ find i now t' = fulfilled visible
   /\ (forall now_purge,
         now_purge <= now ->
         find i now (Knex.del (Knex.where_expired now_purge) t')
         = fulfilled visible)
   /\ (forall uid,
         payload !! "uid" = Some (JStr uid) ->
         jsonb_pattern (containment_text "uid" uid)
         = Some (holds_string "uid" uid) ->
         (forall r, In r t -> id r <> i ->
                    data r !! "uid" = Some (JStr uid) ->
                    Knex.where_not_expired now r = false) ->
         findByUid uid now t' = fulfilled visible)
   /\ (forall userCode,
         payload !! "userCode" = Some (JStr userCode) ->
         jsonb_pattern (containment_text "userCode" userCode)
         = Some (holds_string "userCode" userCode) ->
         (forall r, In r t -> id r <> i ->
                    data r !! "userCode" = Some (JStr userCode) ->
                    Knex.where_not_expired now r = false) ->
         findByUserCode userCode now t' = fulfilled visible))
  /\ (n <> 0 -> storable expiry = false -> stored = (rejected DatabaseError, t))
  /\ (n = 0 ->
      fst stored = fulfilled tt
      /\ (forall r, In r t' -> id r = i -> expires_at_not_written i t r)
      /\ ((forall r, In r t -> id r <> i) ->
          find i now t' = fulfilled (Some payload)))
  /\ (forall uid,
        jsonb_pattern (containment_text "uid" uid) = None ->
        findByUid uid now t' = rejected DatabaseError)
  /\ (forall userCode,
        jsonb_pattern (containment_text "userCode" userCode) = None ->
        findByUserCode userCode now t' = rejected DatabaseError)
  /\ (forall key d,
        find key now t' = fulfilled (Some d)
        \/ findByUid key now t' = fulfilled (Some d)
        \/ findByUserCode key now t' = fulfilled (Some d) ->
        exists r, In r t' /\ data r = d
                  /\ (expires_at r = None
                      \/ exists e, expires_at r = Some e /\ now < e)).
Proof.
  intros stored t' expiry visible.
  split; [|split; [|split; [|split; [|split]]]].
  - intros Hn Hr.
    assert (Hfind : find i now t' = fulfilled visible).
    { apply (lookup_after_upsert (Knex.where_id i)); [assumption|assumption| |].
      - intros r Hid _. now apply where_id_true.
      - intros r _ Hid Hq. apply where_id_true in Hq. contradiction. }
    split; [|split; [|split; [|split]]].
    + unfold stored. rewrite (upsert_ttl _ _ _ _ _ _ _ Hn). fold expiry.
      now rewrite Hr.
    + exact Hfind.
    + intros now_purge Hle. unfold find.
      rewrite select_after_del; [exact Hfind|].
      intros r Hq. apply andb_true_iff in Hq as [_ Hq].
      now apply (not_expired_not_purged now_purge now).
    + intros uid Hu Hread Hother. unfold findByUid. rewrite Hread.
      apply (lookup_after_upsert
               (Knex.where_data_contains (holds_string "uid" uid)));
        [assumption|assumption| |].
      * intros r _ Hd. unfold Knex.where_data_contains.
        apply holds_string_true. now rewrite Hd.
      * intros r Hin Hid Hq. apply (Hother r Hin Hid).
        now apply holds_string_true.
    + intros userCode Hu Hread Hother. unfold findByUserCode. rewrite Hread.
      apply (lookup_after_upsert
               (Knex.where_data_contains (holds_string "userCode" userCode)));
        [assumption|assumption| |].
      * intros r _ Hd. unfold Knex.where_data_contains.
        apply holds_string_true. now rewrite Hd.
      * intros r Hin Hid Hq. apply (Hother r Hin Hid).
        now apply holds_string_true.
  - intros Hn Hr. unfold stored. rewrite (upsert_ttl _ _ _ _ _ _ _ Hn).
    fold expiry. now rewrite Hr.
  - intros ->. unfold t', stored.
    rewrite (upsert_no_ttl i payload (Some 0) now0 now_update db_now t)
      by now right.
    cbn [fst snd]. split; [reflexivity|]. split.
    + intros r. apply rows_written_without_ttl.
    + apply find_new_without_ttl.
  - intros uid Hread. unfold findByUid. now rewrite Hread.
  - intros userCode Hread. unfold findByUserCode. now rewrite Hread.
  - intros key d. apply lookups_return_visible_rows.
Qed.

(** ** The expiration written by [upsert] *)

(** C4 (amended): [upsert] called with a time to live of [n] seconds that
    is not zero, negative ones included, sets [expires_at] to
    [now + n * 1000] milliseconds when that is an instant that a [Date] and
    the database can hold, and is rejected, nothing written, when it is
    not; called without
    a time to live, or with zero, it does not write [expires_at]: the row
    it inserts has none and the rows it rewrites keep theirs. *)
Theorem upsert_expires_at (i : string) (payload : jsonb) (expiresIn : option Z)
    (now now_update db_now : Date) (t : table) :
  let stored := upsert i payload expiresIn now now_update db_now t in
  let t' := snd stored in
  let not_written :=
    fst stored = fulfilled tt
    /\ (exists r, In r t' /\ id r = i)
    /\ (forall r, In r t' -> id r = i -> expires_at_not_written i t r) in
  match expiresIn with
  | Some n =>
      if n =? 0 then not_written
      else if storable (now + n * 1000) then
        fst stored = fulfilled tt
        /\ (exists r, In r t' /\ id r = i)
        /\ (forall r, In r t' -> id r = i ->
                      expires_at r = Some (now + n * 1000))
        /\ (forall r, id r <> i -> (In r t' <-> In r t))
      else stored = (rejected DatabaseError, t)
  | None => not_written
  end.
Proof.
  intros stored t' not_written.
  assert (Hno : expiresIn = None \/ expiresIn = Some 0 -> not_written).
  { intros Hz. unfold not_written, t', stored.
    rewrite (upsert_no_ttl _ _ _ _ _ _ _ Hz). cbn [fst snd].
    split; [reflexivity|]. split.
    - now apply rows_written_has_row.
    - intros r. apply rows_written_without_ttl. }
  destruct expiresIn as [n|]; [|auto].
  destruct (n =? 0) eqn:E.
  - apply Z.eqb_eq in E. subst n. auto.
  - apply Z.eqb_neq in E.
    destruct (storable (now + n * 1000)) eqn:Hr.
    + split; [|split; [|split]].
      * unfold stored. now rewrite (upsert_ttl _ _ _ _ _ _ _ E), Hr.
      * apply upsert_has_row. rewrite upsert_props_binds, Hr. apply orb_true_r.
      * intros r Hin Hid.
        now apply (upsert_row_ttl i payload n now now_update db_now t).
      * intros r Hid. now apply upsert_row_other.
    + unfold stored. now rewrite (upsert_ttl _ _ _ _ _ _ _ E), Hr.
Qed.

(** C10: on an id that exists, [upsert] without a time to live, or with
    zero, writes [data] and [updated_at] and nothing else: [expires_at],
    [created_at] and the other rows are as before. *)
Theorem upsert_existing_keeps_expiration (i : string) (payload : jsonb)
    (expiresIn : option Z) (now now_update db_now : Date) (t : table) :
  expiresIn = None \/ expiresIn = Some 0 ->
  (exists r0, In r0 t /\ id r0 = i) ->
  snd (upsert i payload expiresIn now now_update db_now t) =
  List.map
    (fun r => if String.eqb (id r) i
              then Row (id r) payload (created_at r) (Some now_update) (expires_at r)
              else r)
    t.
Proof.
  intros Hz [r0 [Hin Hid]]. rewrite (upsert_no_ttl _ _ _ _ _ _ _ Hz).
  cbn [snd]. unfold rows_written.
  destruct (Knex.select (Knex.where_id i) t) as [|r1 l] eqn:E.
  - destruct (proj1 (select_where_id_nil i t) E r0 Hin Hid).
  - reflexivity.
Qed.

(** ** [updated_at] *)

(** [upsert] on an id that exists stamps the rows of that id with the
    instant of the update; the row it inserts has no [updated_at]. *)
Lemma upsert_updated_at (i : string) (payload : jsonb) (expiresIn : option Z)
    (now now_update db_now : Date) (t : table) (r : row) :
  fst (upsert i payload expiresIn now now_update db_now t) = fulfilled tt ->
  In r (snd (upsert i payload expiresIn now now_update db_now t)) ->
  id r = i ->
  ((exists r0, In r0 t /\ id r0 = i) /\ updated_at r = Some now_update)
  \/ ((forall r0, In r0 t -> id r0 <> i) /\ updated_at r = None
      /\ created_at r = db_now).
Proof.
  destruct (Knex.binds timestamp (upsert_props payload expiresIn now)) eqn:Hb;
    [|rewrite upsert_unbound by assumption; discriminate].
  rewrite upsert_bound by assumption. cbn [fst snd].
  intros _ Hin Hid.
  apply In_rows_written in Hin; [|apply upsert_props_id].
  destruct Hin as [[r0 [H1 [H2 H3]]]|[[H1 H2]|[H1 H2]]].
  - left. subst r. split; [eauto|reflexivity].
  - contradiction.
  - right. subst r. repeat split; [assumption|].
    unfold upsert_props. destruct expiresIn as [n|]; [|reflexivity].
    now destruct (n =? 0).
Qed.

(** [consume] writes [data] alone. *)
Lemma consume_writes_data_only (i : string) (now : Date) (t : table) :
  List.map (fun r => (id r, created_at r, updated_at r, expires_at r))
           (snd (consume i now t))
  = List.map (fun r => (id r, created_at r, updated_at r, expires_at r)) t.
Proof.
  unfold consume.
  destruct (Knex.select (Knex.where_id i) t) as [|r1 l]; [reflexivity|].
  cbn [snd]. unfold Knex.update. rewrite map_map. apply map_ext.
  intros r. now destruct (Knex.where_id i r).
Qed.

(** C7 (the code falls short of it): [consume] rewrites the rows of the id
    and leaves every [updated_at] as it was; here a row that was never
    updated is consumed at the instant 5000 and still has no
    [updated_at]. *)
Theorem consume_leaves_updated_at :
  (forall i now t,
     List.map updated_at (snd (consume i now t)) = List.map updated_at t)
  /\ snd (consume "code-1" 5000 [Row "code-1" ∅ 1000 None (Some 9000)])
     = [Row "code-1" (<["consumed" := JStr (toISOString 5000)]> ∅) 1000 None
            (Some 9000)].
Proof.
  split; [|reflexivity].
  intros i now t. pose proof (consume_writes_data_only i now t) as H.
  apply (f_equal (List.map (fun c : string * Date * option Date * option Date =>
                              snd (fst c)))) in H.
  rewrite !map_map in H. exact H.
Qed.

(** ** Absence *)

Lemma consume_existing (i : string) (now : Date) (t : table) :
  (exists r, In r t /\ id r = i) -> fst (consume i now t) = fulfilled tt.
Proof.
  intros [r [Hin Hid]]. unfold consume.
  destruct (Knex.select (Knex.where_id i) t) as [|r1 l] eqn:E; [|reflexivity].
  destruct (proj1 (select_where_id_nil i t) E r Hin Hid).
Qed.

Lemma del_where_id_absent (i : string) (t : table) :
  (forall r, In r t -> id r <> i) -> Knex.del (Knex.where_id i) t = t.
Proof.
  unfold Knex.del. induction t as [|r t' IH]; intros Habs; [reflexivity|].
  simpl.
  assert (Hr : Knex.where_id i r = false).
  { destruct (Knex.where_id i r) eqn:E; [|reflexivity].
    apply where_id_true in E. destruct (Habs r); [now left|assumption]. }
  rewrite Hr. simpl. f_equal. apply IH. intros r0 Hin. apply Habs. now right.
Qed.

Lemma del_nothing (p : row -> bool) (t : table) :
  (forall r, In r t -> p r = false) -> Knex.del p t = t.
Proof.
  unfold Knex.del. induction t as [|r t' IH]; intros Hall; [reflexivity|].
  cbn [List.filter]. rewrite (Hall r (or_introl eq_refl)). cbn [negb].
  f_equal. apply IH. intros r0 Hin. apply Hall. now right.
Qed.

(** C6 (amended): [consume] on an id that no row has is rejected, and writes
    nothing.  On absence [find] is fulfilled with [null]; [findByUid] and
    [findByUserCode] are fulfilled with [null] when the database reads the
    text made of the uid or user code and no visible row matches, and are
    rejected when it does not read it; [destroy] is fulfilled;
    [revokeByGrantId] is fulfilled when the text of the grant id is read
    and rejected when it is not; [upsert] is fulfilled unless its time to
    live gives an expiration that cannot be stored. *)
Theorem only_consume_rejects_absence (i : string) (now : Date) (t : table) :
  (forall r, In r t -> id r <> i) ->
  consume i now t
  = (rejected (TypeError "Cannot read properties of undefined (reading 'data')"),
     t)
  /\ find i now t = fulfilled None
  /\ (forall key,
        (forall r, In r t -> id r = key -> Knex.where_not_expired now r = false) ->
        find key now t = fulfilled None)
  /\ (forall uid,
        match jsonb_pattern (containment_text "uid" uid) with
        | Some pattern =>
            (forall r, In r t -> pattern (data r) = true ->
                       Knex.where_not_expired now r = false) ->
            findByUid uid now t = fulfilled None
        | None => findByUid uid now t = rejected DatabaseError
        end)
  /\ (forall userCode,
        match jsonb_pattern (containment_text "userCode" userCode) with
        | Some pattern =>
            (forall r, In r t -> pattern (data r) = true ->
                       Knex.where_not_expired now r = false) ->
            findByUserCode userCode now t = fulfilled None
        | None => findByUserCode userCode now t = rejected DatabaseError
        end)
  /\ destroy i t = (fulfilled tt, t)
  /\ (forall grantId,
        match jsonb_pattern (containment_text "grantId" grantId) with
        | Some pattern =>
            (forall r, In r t -> pattern (data r) = false) ->
            revokeByGrantId grantId t = (fulfilled tt, t)
        | None => revokeByGrantId grantId t = (rejected DatabaseError, t)
        end)
  /\ (forall payload expiresIn now_update db_now,
        fst (upsert i payload expiresIn now now_update db_now t)
        = match expiresIn with
          | Some n =>
              if (n =? 0) || storable (now + n * 1000)
              then fulfilled tt
              else rejected DatabaseError
          | None => fulfilled tt
          end).
Proof.
  intros Habs.
  assert (Hsel : Knex.select (Knex.where_id i) t = [])
    by now apply select_where_id_nil.
  assert (Hnone : forall q : row -> bool,
            (forall r, In r t -> q r = true ->
                       Knex.where_not_expired now r = false) ->
            first_data
              (Knex.select (fun r => q r && Knex.where_not_expired now r) t)
            = fulfilled None).
  { intros q Hq. apply first_data_none. intros r Hin.
    destruct (q r) eqn:E; [|reflexivity]. simpl. now apply Hq. }
  split; [|split; [|split; [|split; [|split; [|split; [|split]]]]]].
  - unfold consume. now rewrite Hsel.
  - apply Hnone. intros r Hin Hq. apply where_id_true in Hq.
    now destruct (Habs r Hin).
  - intros key Hk. apply Hnone. intros r Hin Hq. apply where_id_true in Hq. auto.
  - intros uid. unfold findByUid.
    destruct (jsonb_pattern (containment_text "uid" uid)) as [pattern|];
      [|reflexivity].
    intros Hu. now apply Hnone.
  - intros userCode. unfold findByUserCode.
    destruct (jsonb_pattern (containment_text "userCode" userCode))
      as [pattern|]; [|reflexivity].
    intros Hu. now apply Hnone.
  - unfold destroy. f_equal. now apply del_where_id_absent.
  - intros grantId. unfold revokeByGrantId.
    destruct (jsonb_pattern (containment_text "grantId" grantId))
      as [pattern|]; [|reflexivity].
    intros Hg. f_equal. now apply del_nothing.
  - intros payload expiresIn now_update db_now.
    pose proof (upsert_props_binds payload expiresIn now) as Hp.
    destruct (Knex.binds timestamp (upsert_props payload expiresIn now)) eqn:Hb.
    + rewrite upsert_bound by assumption. cbn [fst].
      destruct expiresIn as [n|]; [|reflexivity]. now rewrite <- Hp.
    + rewrite upsert_unbound by assumption. cbn [fst].
      destruct expiresIn as [n|]; [|discriminate]. now rewrite <- Hp.
Qed.

(** ** The purge *)

Lemma rows_on_table (tbl tbl' : string) (f : table -> table) (d : database) :
  rows (on_table tbl f d) tbl'
  = if String.eqb tbl' tbl then f (rows d tbl) else rows d tbl'.
Proof.
  unfold rows, on_table. rewrite lookup_insert.
  destruct (String.eqb tbl' tbl) eqn:E.
  - apply String.eqb_eq in E. subst tbl'. now rewrite decide_True.
  - apply String.eqb_neq in E. now rewrite decide_False by congruence.
Qed.

Lemma del_idempotent (p : row -> bool) (t : table) :
  Knex.del p (Knex.del p t) = Knex.del p t.
Proof.
  unfold Knex.del. induction t as [|r t' IH]; [reflexivity|].
  simpl. destruct (p r) eqn:E; simpl; [assumption|].
  rewrite E. simpl. now f_equal.
Qed.

(** The tables listed lose their expired rows, in whatever order the
    deletions are done; the others are untouched. *)
Lemma rows_purge_tables (now : Date) (l : list string) (d : database)
    (tbl : string) :
  rows (fold_left (fun d tbl => purge_table now tbl d) l d) tbl
  = if existsb (String.eqb tbl) l
    then Knex.del (Knex.where_expired now) (rows d tbl)
    else rows d tbl.
Proof.
  revert d. induction l as [|x l' IH]; intros d; [reflexivity|].
  simpl. rewrite IH.
  assert (Hx : rows (purge_table now x d) tbl
               = if String.eqb tbl x
                 then Knex.del (Knex.where_expired now) (rows d x)
                 else rows d tbl) by apply rows_on_table.
  rewrite Hx. clear Hx.
  destruct (String.eqb tbl x) eqn:E; simpl.
  - apply String.eqb_eq in E. subst x.
    destruct (existsb (String.eqb tbl) l'); [apply del_idempotent|reflexivity].
  - reflexivity.
Qed.

Lemma In_del (p : row -> bool) (t : table) (r : row) :
  In r (Knex.del p t) <-> In r t /\ p r = false.
Proof.
  unfold Knex.del. rewrite filter_In. now rewrite negb_true_iff.
Qed.

Lemma where_expired_false (now : Date) (r : row) :
  Knex.where_expired now r = false <->
  ~ (exists e, expires_at r = Some e /\ e <= now).
Proof.
  unfold Knex.where_expired. destruct (expires_at r) as [e|].
  - rewrite Z.leb_gt. split.
    + intros H [e' [He Hle]]. inversion He; subst. lia.
    + intros H. destruct (Z.lt_ge_cases now e) as [Hlt|Hge]; [assumption|].
      destruct H. exists e. split; [reflexivity|lia].
  - split; [|reflexivity]. intros _ [e [He _]]. discriminate.
Qed.

Lemma volatile_table_listed (volatile_type_name : string) :
  In volatile_type_name VOLATILE_TYPES ->
  existsb (String.eqb (table_name (new_StorageAdapter volatile_type_name)))
          volatile_tables = true.
Proof.
  intros Hin. apply existsb_exists.
  exists (table_name (new_StorageAdapter volatile_type_name)). split.
  - unfold volatile_tables. apply in_map_iff. eauto.
  - apply String.eqb_refl.
Qed.

(** C2: after [purge] at the instant [now], with its deletions done, the
    table of each volatile model holds exactly the rows it held whose
    [expires_at] is not at or before [now]: those expiring strictly after
    [now] remain, and in no table is a row without [expires_at] deleted. *)
Theorem purge_deletes_expired (now : Date) (v : purge_vars) (d : database)
    (volatile_type_name : string) :
  In volatile_type_name VOLATILE_TYPES ->
  let tbl := table_name (new_StorageAdapter volatile_type_name) in
  let d' := snd (purge now v d) in
  (forall r, In r (rows d' tbl) <->
             In r (rows d tbl)
             /\ ~ (exists e, expires_at r = Some e /\ e <= now))
  /\ (forall r e, In r (rows d tbl) -> expires_at r = Some e -> now < e ->
                  In r (rows d' tbl))
  /\ (forall any_tbl r, In r (rows d any_tbl) -> expires_at r = None ->
                        In r (rows d' any_tbl)).
Proof.
  intros Hvol tbl d'.
  assert (Hrows : rows d' tbl = Knex.del (Knex.where_expired now) (rows d tbl)).
  { unfold d', purge. cbn [snd]. rewrite rows_purge_tables.
    unfold tbl. now rewrite volatile_table_listed. }
  split; [|split].
  - intros r. rewrite Hrows, In_del. now rewrite where_expired_false.
  - intros r e Hin He Hlt. rewrite Hrows, In_del. split; [assumption|].
    apply where_expired_false. intros [e' [He' Hle]].
    rewrite He in He'. inversion He'; subst. lia.
  - intros any_tbl r Hin He. unfold d', purge. cbn [snd].
    rewrite rows_purge_tables.
    destruct (existsb (String.eqb any_tbl) volatile_tables); [|assumption].
    apply In_del. split; [assumption|].
    unfold Knex.where_expired. now rewrite He.
Qed.

(** ** Statistics *)

Lemma fold_min_created_at (l : list row) (m0 : Date) :
  let m := fold_left (fun m x => Z.min m (created_at x)) l m0 in
  m <= m0
  /\ (forall r, In r l -> m <= created_at r)
  /\ (m = m0 \/ exists r, In r l /\ created_at r = m).
Proof.
  revert m0. induction l as [|x l' IH]; intros m0; simpl.
  - split; [lia|]. split; [intros r []|now left].
  - destruct (IH (Z.min m0 (created_at x))) as [H1 [H2 H3]].
    split; [lia|]. split.
    + intros r [->|Hin]; [lia|auto].
    + destruct H3 as [H3|[r [Hin Hr]]]; [|right; eauto].
      destruct (Z.min_spec m0 (created_at x)) as [[_ Hm]|[_ Hm]].
      * left. congruence.
      * right. exists x. split; [now left|congruence].
Qed.

Lemma fold_max_created_at (l : list row) (m0 : Date) :
  let m := fold_left (fun m x => Z.max m (created_at x)) l m0 in
  m0 <= m
  /\ (forall r, In r l -> created_at r <= m)
  /\ (m = m0 \/ exists r, In r l /\ created_at r = m).
Proof.
  revert m0. induction l as [|x l' IH]; intros m0; simpl.
  - split; [lia|]. split; [intros r []|now left].
  - destruct (IH (Z.max m0 (created_at x))) as [H1 [H2 H3]].
    split; [lia|]. split.
    + intros r [->|Hin]; [lia|auto].
    + destruct H3 as [H3|[r [Hin Hr]]]; [|right; eauto].
      destruct (Z.max_spec m0 (created_at x)) as [[_ Hm]|[_ Hm]].
      * right. exists x. split; [now left|congruence].
      * left. congruence.
Qed.

(** C9 (amended): [getVolatileRecordsStats] returns one entry per volatile
    model, in the order of [VOLATILE_TYPES], with the number of rows of its
    table, expired or not, and the oldest and newest [created_at] among
    them ([null] on an empty table). *)
Theorem stats_count_every_row (d : database) :
  List.map type_name (getVolatileRecordsStats d) = VOLATILE_TYPES
  /\ forall s, In s (getVolatileRecordsStats d) ->
       let t := rows d (table_name (new_StorageAdapter (type_name s))) in
       count s = length t
       /\ match date_min s with
          | Some m => (exists r, In r t /\ created_at r = m)
                      /\ (forall r, In r t -> m <= created_at r)
          | None => t = []
          end
       /\ match date_max s with
          | Some m => (exists r, In r t /\ created_at r = m)
                      /\ (forall r, In r t -> created_at r <= m)
          | None => t = []
          end.
Proof.
  split.
  - unfold getVolatileRecordsStats. rewrite map_map. cbn [type_name].
    apply map_id.
  - intros s Hin. unfold getVolatileRecordsStats in Hin.
    apply in_map_iff in Hin as [ty [Hs _]]. subst s. cbn [type_name count date_min date_max].
    set (t := rows d (table_name (new_StorageAdapter ty))).
    split; [reflexivity|]. split.
    + unfold Knex.min_created_at. destruct t as [|r0 t']; [reflexivity|].
      destruct (fold_min_created_at t' (created_at r0)) as [H1 [H2 H3]].
      split.
      * destruct H3 as [H3|[r [Hr1 Hr2]]].
        -- exists r0. split; [now left|auto].
        -- exists r. split; [now right|assumption].
      * intros r [->|Hr]; auto.
    + unfold Knex.max_created_at. destruct t as [|r0 t']; [reflexivity|].
      destruct (fold_max_created_at t' (created_at r0)) as [H1 [H2 H3]].
      split.
      * destruct H3 as [H3|[r [Hr1 Hr2]]].
        -- exists r0. split; [now left|auto].
        -- exists r. split; [now right|assumption].
      * intros r [->|Hr]; auto.
Qed.

(** ** The worlds of the event loop *)

Lemma same_purges_refl (m : gmap nat task) : same_purges m m.
Proof. intros q t _. reflexivity. Qed.

Lemma same_purges_trans (m1 m2 m3 : gmap nat task) :
  same_purges m1 m2 -> same_purges m2 m3 -> same_purges m1 m3.
Proof.
  intros H12 H23 q t Ht. rewrite (H23 q t Ht). apply H12, Ht.
Qed.

Lemma same_purges_insert (m : gmap nat task) (p : nat) (t : task) :
  is_purge t = false ->
  (forall u, m !! p = Some u -> is_purge u = false) ->
  same_purges m (<[p := t]> m).
Proof.
  intros Ht Hp q u Hu. rewrite lookup_insert_Some. split.
  - intros [[_ <-]|[_ H]]; [congruence|assumption].
  - intros H. right. split; [|assumption].
    intros <-. rewrite (Hp u H) in Hu. discriminate.
Qed.

Lemma same_purges_delete (m : gmap nat task) (p : nat) :
  (forall u, m !! p = Some u -> is_purge u = false) ->
  same_purges m (delete p m).
Proof.
  intros Hp q u Hu. rewrite lookup_delete_Some. split.
  - intros [_ H]. assumption.
  - intros H. split; [|assumption].
    intros <-. rewrite (Hp u H) in Hu. discriminate.
Qed.

Lemma fresh_none (w : world) (p : nat) :
  coherent w -> (next_promise w <= p)%nat -> tasks w !! p = None.
Proof.
  intros Hc Hp. destruct (tasks w !! p) as [t|] eqn:E; [|reflexivity].
  apply (promises_fresh w Hc) in E. lia.
Qed.

(** A run that starts no purge, ends none, and leaves those in flight
    alone keeps the world coherent. *)
Lemma coherent_frame (w w' : world) :
  coherent w ->
  clock w <= clock w' ->
  purge_scheduled (vars w') = purge_scheduled (vars w) ->
  purge_last_date (vars w') = purge_last_date (vars w) ->
  purge_single_execution_protection_delay (vars w')
  = purge_single_execution_protection_delay (vars w) ->
  purge_times w' = purge_times w ->
  same_purges (tasks w) (tasks w') ->
  (forall p t, tasks w' !! p = Some t -> (p < next_promise w')%nat) ->
  coherent w'.
Proof.
  intros Hc Hclock Hs Hl Hd Ht Hp Hfresh.
  assert (Hcd : cooldown w' = cooldown w) by (unfold cooldown; now rewrite Hd).
  constructor; rewrite ?Hs, ?Hl, ?Hcd, ?Ht.
  - intros Hidle p t Hpt. destruct (is_purge t) eqn:E; [|reflexivity].
    apply (Hp p t E) in Hpt. rewrite <- E.
    now apply (idle_no_purge w Hc Hidle p t).
  - intros Hidle t0 H0. pose proof (idle_cooled w Hc Hidle t0 H0). lia.
  - intros Hbusy. destruct (busy_purge w Hc Hbusy) as [p [t [Hpt E]]].
    exists p, t. split; [|assumption]. now apply (Hp p t E).
  - intros p q t u Hpt Hqu Et Eu.
    apply (Hp p t Et) in Hpt. apply (Hp q u Eu) in Hqu.
    now apply (one_purge w Hc p q t u).
  - intros p now pending Hpt.
    apply (Hp p (schedulePurge_288 now pending) eq_refl) in Hpt.
    destruct (running_since w Hc p now pending Hpt) as [H1 H2].
    split; [assumption|lia].
  - intros p deadline Hpt.
    apply (Hp p (schedulePurge_290 deadline) eq_refl) in Hpt.
    apply (cooling_until w Hc p deadline Hpt).
  - exact Hfresh.
  - apply (times_last w Hc).
  - apply (times_spaced w Hc).
  - intros t0 Hin. pose proof (times_past w Hc t0 Hin). lia.
Qed.

Lemma initial_world_coherent (delay every : option Z) (d : database)
    (now : Date) :
  coherent (initial_world delay every d now).
Proof.
  constructor; simpl; try (intros; discriminate); tauto.
Qed.


Lemma below_insert (n p : nat) (t : task) (m : gmap nat task) :
  below n m -> (p < n)%nat -> below n (<[p := t]> m).
Proof.
  intros Hm Hp q u. rewrite lookup_insert_Some.
  intros [[<- _]|[_ H]]; [assumption|]. now apply (Hm q u).
Qed.

Lemma below_delete (n p : nat) (m : gmap nat task) :
  below n m -> below n (delete p m).
Proof.
  intros Hm q u. rewrite lookup_delete_Some. intros [_ H]. now apply (Hm q u).
Qed.

Lemma below_mono (n n' : nat) (m : gmap nat task) :
  below n m -> (n <= n')%nat -> below n' m.
Proof. intros Hm Hn q u H. pose proof (Hm q u H). lia. Qed.

(** There are volatile models: [purge] has deletions to await. *)
Lemma schedulePurge_await_volatile (p : nat) (now : Date) (w : world) :
  schedulePurge_await p now volatile_tables w
  = suspend p (schedulePurge_288 now volatile_tables) w.
Proof. reflexivity. Qed.

(** [upsert] up to its first [await], case by case: the threshold is not
    reached; it is reached while a purge is scheduled; it is reached and a
    purge starts. *)
Lemma invoke_upsert_eq (this : StorageAdapter) (i : string) (payload : jsonb)
    (expiresIn : option Z) (w : world) :
  invoke (call_upsert this i payload expiresIn) w =
  let p := next_promise w in
  let v := vars w in
  let n := upserts_since_purge_count v + 1 in
  let suspended := upsert_83 (table_name this) i
                     (upsert_props payload expiresIn (clock w)) in
  if purge_every_upserts_count v <=? n then
    if purge_scheduled v then
      World (clock w)
        (Vars (purge_single_execution_protection_delay v)
              (purge_every_upserts_count v) n true (purge_last_date v))
        (db w)
        ((clock w, "A purge is already scheduled") :: log w)
        (<[p := suspended]> (delete (S p) (tasks w)))
        (<[S p := fulfilled VUndefined]> (settled w))
        (S (S p))
    else
      World (clock w)
        (Vars (purge_single_execution_protection_delay v)
              (purge_every_upserts_count v) 0 true (Some (clock w)))
        (db w)
        ((clock w, "Scheduling a new purge") :: log w)
        (<[p := suspended]>
           (<[S p := schedulePurge_288 (clock w) volatile_tables]> (tasks w)))
        (settled w)
        (S (S p))
  else
    World (clock w)
      (Vars (purge_single_execution_protection_delay v)
            (purge_every_upserts_count v) n (purge_scheduled v)
            (purge_last_date v))
      (db w) (log w) (<[p := suspended]> (tasks w)) (settled w) (S p).
Proof.
  unfold invoke, upsert_trigger, with_vars.
  cbn [clock vars db log tasks settled next_promise new_promise
       purge_single_execution_protection_delay purge_every_upserts_count
       upserts_since_purge_count purge_scheduled purge_last_date].
  destruct (purge_every_upserts_count (vars w)
            <=? upserts_since_purge_count (vars w) + 1) eqn:E1; [|reflexivity].
  unfold schedulePurge, with_vars, logger_debug.
  cbn [clock vars db log tasks settled next_promise new_promise
       purge_single_execution_protection_delay purge_every_upserts_count
       upserts_since_purge_count purge_scheduled purge_last_date].
  destruct (purge_scheduled (vars w)) eqn:E2; [reflexivity|].
  rewrite schedulePurge_await_volatile. reflexivity.
Qed.


(** A purge starts in an idle world. *)
Lemma coherent_purge_starts (w : world) (t : task) (c : Z)
    (pending : list string) (msgs : gmap nat (outcome value)) :
  coherent w ->
  purge_scheduled (vars w) = false ->
  is_purge t = false ->
  coherent
    (World (clock w)
       (Vars (purge_single_execution_protection_delay (vars w))
             (purge_every_upserts_count (vars w)) c true (Some (clock w)))
       (db w)
       ((clock w, "Scheduling a new purge") :: log w)
       (<[next_promise w := t]>
          (<[S (next_promise w) := schedulePurge_288 (clock w) pending]>
             (tasks w)))
       msgs
       (S (S (next_promise w)))).
Proof.
  intros Hc Hidle Ht.
  pose proof (idle_no_purge w Hc Hidle) as Hnone.
  constructor; cbn [clock vars db log tasks settled next_promise
                    purge_scheduled purge_last_date].
  - intros; discriminate.
  - intros; discriminate.
  - intros _. exists (S (next_promise w)), (schedulePurge_288 (clock w) pending).
    split; [|reflexivity].
    rewrite lookup_insert_ne by lia. apply lookup_insert_eq.
  - intros p q u1 u2. rewrite !lookup_insert_Some.
    intros [[_ <-]|[_ [[<- _]|[_ H1]]]] [[_ <-]|[_ [[<- _]|[_ H2]]]] E1 E2;
      try congruence.
    + rewrite (Hnone _ _ H2) in E2. discriminate.
    + rewrite (Hnone _ _ H1) in E1. discriminate.
    + rewrite (Hnone _ _ H1) in E1. discriminate.
  - intros p now pending'. rewrite !lookup_insert_Some.
    intros [[_ H]|[_ [[_ H]|[_ H]]]].
    + rewrite H in Ht. discriminate.
    + inversion H; subst. split; [reflexivity|lia].
    + apply Hnone in H. discriminate.
  - intros p deadline. rewrite !lookup_insert_Some.
    intros [[_ H]|[_ [[_ H]|[_ H]]]].
    + rewrite H in Ht. discriminate.
    + discriminate.
    + apply Hnone in H. discriminate.
  - apply below_insert; [apply below_insert|lia]; [|lia].
    apply (below_mono (next_promise w)); [|lia].
    exact (promises_fresh w Hc).
  - unfold purge_times. cbn. intros t0 l H. inversion H. reflexivity.
  - unfold purge_times, cooldown. cbn.
    fold (purge_times w). fold (cooldown w).
    destruct (purge_times w) as [|t1 l] eqn:E; [exact I|].
    split.
    + apply (idle_cooled w Hc Hidle). apply (times_last w Hc t1 l E).
    + rewrite <- E. apply (times_spaced w Hc).
  - unfold purge_times. cbn. fold (purge_times w).
    intros t0 [<-|Hin]; [lia|]. apply (times_past w Hc t0 Hin).
Qed.

(** The purge in flight goes on: a deletion is done, or the last one is and
    the cool-down starts. *)
Lemma coherent_purge_continues (w : world) (p : nat) (t t' : task)
    (f : database -> database) :
  coherent w ->
  tasks w !! p = Some t ->
  is_purge t = true ->
  is_purge t' = true ->
  (forall now pending, t' = schedulePurge_288 now pending ->
     purge_last_date (vars w) = Some now /\ now <= clock w) ->
  (forall deadline, t' = schedulePurge_290 deadline ->
     exists t0, purge_last_date (vars w) = Some t0
                /\ t0 + cooldown w <= deadline) ->
  coherent (suspend p t' (with_db f w)).
Proof.
  intros Hc Hp Ht Ht' H288 H290.
  assert (Hbusy : purge_scheduled (vars w) = true).
  { destruct (purge_scheduled (vars w)) eqn:E; [reflexivity|].
    rewrite (idle_no_purge w Hc E p t Hp) in Ht. discriminate. }
  assert (Hone : forall q u, tasks w !! q = Some u -> is_purge u = true -> q = p).
  { intros q u Hq Hu. apply (one_purge w Hc q p u t); assumption. }
  constructor; unfold cooldown, purge_times;
    cbn [suspend with_db clock vars db log tasks settled next_promise];
    fold (cooldown w); fold (purge_times w).
  - intros H. congruence.
  - intros H. congruence.
  - intros _. exists p, t'. split; [apply lookup_insert_eq|assumption].
  - intros q1 q2 u1 u2. rewrite !lookup_insert_Some.
    intros [[<- _]|[_ H1]] [[<- _]|[_ H2]] E1 E2; try reflexivity.
    + symmetry. now apply (Hone q2 u2).
    + now apply (Hone q1 u1).
    + rewrite (Hone q1 u1 H1 E1). symmetry. now apply (Hone q2 u2).
  - intros q now pending. rewrite lookup_insert_Some.
    intros [[_ H]|[_ H]].
    + apply (H288 now pending H).
    + apply (running_since w Hc q now pending H).
  - intros q deadline. rewrite lookup_insert_Some.
    intros [[_ H]|[_ H]].
    + apply (H290 deadline H).
    + apply (cooling_until w Hc q deadline H).
  - apply below_insert; [exact (promises_fresh w Hc)|].
    apply (promises_fresh w Hc p t Hp).
  - apply (times_last w Hc).
  - apply (times_spaced w Hc).
  - apply (times_past w Hc).
Qed.

(** The cool-down is over. *)
Lemma coherent_purge_ends (w : world) (p : nat) (deadline : Date)
    (o : outcome value) :
  coherent w ->
  tasks w !! p = Some (schedulePurge_290 deadline) ->
  deadline <= clock w ->
  coherent
    (settle p o
       (with_vars (fun v => Vars (purge_single_execution_protection_delay v)
                                 (purge_every_upserts_count v)
                                 (upserts_since_purge_count v)
                                 false (purge_last_date v)) w)).
Proof.
  intros Hc Hp Hd.
  constructor; cbn [settle with_vars clock vars db log tasks settled
                    next_promise purge_scheduled purge_last_date].
  - intros _ q u. rewrite lookup_delete_Some. intros [Hne Hq].
    destruct (is_purge u) eqn:E; [|reflexivity].
    destruct Hne. symmetry.
    apply (one_purge w Hc q p u (schedulePurge_290 deadline)); auto.
  - intros _ t0 H0.
    destruct (cooling_until w Hc p deadline Hp) as [t1 [H1 H2]].
    unfold cooldown in *. cbn. rewrite H0 in H1. inversion H1; subst. lia.
  - intros; discriminate.
  - intros q1 q2 u1 u2. rewrite !lookup_delete_Some.
    intros [_ H1] [_ H2]. now apply (one_purge w Hc).
  - intros q now pending. rewrite lookup_delete_Some. intros [_ H].
    apply (running_since w Hc q now pending H).
  - intros q deadline'. rewrite lookup_delete_Some. intros [_ H].
    apply (cooling_until w Hc q deadline' H).
  - apply below_delete. exact (promises_fresh w Hc).
  - apply (times_last w Hc).
  - apply (times_spaced w Hc).
  - apply (times_past w Hc).
Qed.


(** A call that is suspended on a query, at a fresh promise. *)
Lemma coherent_call_suspends (w : world) (t : task) :
  coherent w ->
  is_purge t = false ->
  coherent (suspend (next_promise w) t (new_promise w)).
Proof.
  intros Hc Ht. apply (coherent_frame w); try reflexivity; [assumption| |].
  - apply same_purges_insert; [assumption|].
    intros u. cbn [tasks new_promise].
    rewrite (fresh_none w (next_promise w) Hc) by lia. discriminate.
  - cbn [tasks suspend new_promise next_promise]. apply below_insert; [|lia].
    apply (below_mono (next_promise w)); [exact (promises_fresh w Hc)|lia].
Qed.

Lemma invoke_coherent (c : call) (w : world) :
  coherent w -> coherent (invoke c w).
Proof.
  intros Hc.
  destruct c as [this i payload expiresIn| | | | | | | |];
    try (now apply coherent_call_suspends).
  rewrite invoke_upsert_eq. cbv zeta.
  destruct (purge_every_upserts_count (vars w)
            <=? upserts_since_purge_count (vars w) + 1).
  - destruct (purge_scheduled (vars w)) eqn:E.
    + apply (coherent_frame w);
        cbn [clock vars db log tasks settled next_promise purge_scheduled
             purge_last_date purge_single_execution_protection_delay];
        try reflexivity; try assumption; [now symmetry| |].
      * apply (same_purges_trans _ (delete (S (next_promise w)) (tasks w))).
        -- apply same_purges_delete. intros u.
           rewrite (fresh_none w (S (next_promise w)) Hc) by lia. discriminate.
        -- apply same_purges_insert; [reflexivity|].
           intros u. rewrite lookup_delete_Some. intros [_ H].
           rewrite (fresh_none w (next_promise w) Hc) in H by lia. discriminate.
      * apply below_insert; [apply below_delete|lia].
        apply (below_mono (next_promise w)); [exact (promises_fresh w Hc)|lia].
    + now apply coherent_purge_starts.
  - apply (coherent_frame w);
      cbn [clock vars db log tasks settled next_promise purge_scheduled
             purge_last_date purge_single_execution_protection_delay];
      try reflexivity; try assumption.
    + apply same_purges_insert; [reflexivity|].
      intros u. rewrite (fresh_none w (next_promise w) Hc) by lia. discriminate.
    + apply below_insert; [|lia].
      apply (below_mono (next_promise w)); [exact (promises_fresh w Hc)|lia].
Qed.

(** A call that is not a purge goes on to its next query or to its end. *)
Lemma coherent_task_suspends (w : world) (p : nat) (t t' : task) :
  coherent w -> tasks w !! p = Some t -> is_purge t = false ->
  is_purge t' = false ->
  coherent (suspend p t' w).
Proof.
  intros Hc Hp Ht Ht'. apply (coherent_frame w); try reflexivity; [assumption| |].
  - apply same_purges_insert; [assumption|]. intros u Hu. congruence.
  - cbn [tasks suspend next_promise].
    apply below_insert; [exact (promises_fresh w Hc)|].
    apply (promises_fresh w Hc p t Hp).
Qed.

Lemma coherent_task_settles (w : world) (p : nat) (t : task)
    (o : outcome value) (f : database -> database) :
  coherent w -> tasks w !! p = Some t -> is_purge t = false ->
  coherent (settle p o (with_db f w)).
Proof.
  intros Hc Hp Ht. apply (coherent_frame w); try reflexivity; [assumption| |].
  - apply same_purges_delete. intros u Hu. cbn [tasks with_db] in Hu.
    congruence.
  - cbn [tasks settle with_db next_promise]. apply below_delete.
    exact (promises_fresh w Hc).
Qed.

Lemma with_db_id (w : world) : with_db (fun d => d) w = w.
Proof. now destruct w. Qed.

Lemma resume_coherent (p : nat) (t : task) (w w' : world) :
  coherent w -> tasks w !! p = Some t -> resume p t w = Some w' -> coherent w'.
Proof.
  intros Hc Hp Hr.
  assert (Hsettle : is_purge t = false -> forall o, coherent (settle p o w)).
  { intros Ht o. rewrite <- (with_db_id w).
    now apply (coherent_task_settles w p _ _ _ Hc Hp). }
  destruct t; cbn [resume] in Hr; try discriminate;
    try (inversion Hr; subst w';
         first [ now apply (coherent_task_settles w p _ _ _ Hc Hp)
               | now apply Hsettle ]).
  - destruct (Knex.select (Knex.where_id i) (rows (db w) tbl));
      inversion Hr; subst w';
      now apply (coherent_task_suspends w p _ _ Hc Hp).
  - destruct (Knex.binds _ _); inversion Hr; subst w';
      [now apply (coherent_task_settles w p _ _ _ Hc Hp)|now apply Hsettle].
  - destruct (if Knex.binds _ _ then _ else None);
      inversion Hr; subst w';
      [now apply (coherent_task_settles w p _ _ _ Hc Hp)|now apply Hsettle].
  - destruct (Knex.select (Knex.where_id i) (rows (db w) tbl));
      inversion Hr; subst w'.
    + now apply Hsettle.
    + now apply (coherent_task_suspends w p _ _ Hc Hp).
Qed.

Lemma deleted_coherent (p : nat) (tbl : string) (w w' : world) :
  coherent w -> deleted p tbl w = Some w' -> coherent w'.
Proof.
  intros Hc Hd. unfold deleted in Hd.
  destruct (tasks w !! p) as [t|] eqn:Hp; [|discriminate].
  destruct t; try discriminate.
  destruct (existsb (String.eqb tbl) pending); [|discriminate].
  inversion Hd; subst w'. clear Hd.
  destruct (running_since w Hc p now pending Hp) as [Hlast Hnow].
  unfold schedulePurge_await.
  destruct (remove_first tbl pending) as [|x pending'].
  - apply (coherent_purge_continues w p _ _ _ Hc Hp); try reflexivity.
    + intros now' pending' H. discriminate.
    + intros deadline H. inversion H; subst.
      exists now. split; [assumption|].
      unfold cooldown. cbn. lia.
  - apply (coherent_purge_continues w p _ _ _ Hc Hp); try reflexivity.
    + intros now' pending'' H. inversion H; subst. auto.
    + intros deadline H. discriminate.
Qed.

Lemma timeout_coherent (p : nat) (w w' : world) :
  coherent w -> timeout p w = Some w' -> coherent w'.
Proof.
  intros Hc Hd. unfold timeout in Hd.
  destruct (tasks w !! p) as [t|] eqn:Hp; [|discriminate].
  destruct t; try discriminate.
  destruct (deadline <=? clock w) eqn:E; [|discriminate].
  inversion Hd; subst w'. apply Z.leb_le in E.
  now apply (coherent_purge_ends w p deadline).
Qed.

Lemma step_coherent (l : label) (w w' : world) :
  coherent w -> step l w = Some w' -> coherent w'.
Proof.
  intros Hc Hs. destruct l as [d|c|p|p tbl|p]; cbn [step] in Hs.
  - destruct (0 <=? d) eqn:E; [|discriminate]. apply Z.leb_le in E.
    inversion Hs; subst w'.
    apply (coherent_frame w); cbn; try reflexivity; try assumption; [lia| |].
    + apply same_purges_refl.
    + exact (promises_fresh w Hc).
  - inversion Hs; subst w'. now apply invoke_coherent.
  - destruct (tasks w !! p) as [t|] eqn:Hp; [|discriminate].
    now apply (resume_coherent p t w).
  - now apply (deleted_coherent p tbl w).
  - now apply (timeout_coherent p w).
Qed.

Lemma exec_coherent (ls : list label) (w w' : world) :
  coherent w -> exec ls w = Some w' -> coherent w'.
Proof.
  revert w. induction ls as [|l ls' IH]; intros w Hc He; cbn [exec] in He.
  - inversion He; subst. assumption.
  - destruct (step l w) as [w1|] eqn:Hs; [|discriminate].
    apply (IH w1); [|assumption]. now apply (step_coherent l w).
Qed.


(** ** The write counter *)

Lemma no_new_purge_insert (m : gmap nat task) (p : nat) (t : task) :
  (is_purge t = true -> exists t0, m !! p = Some t0 /\ is_purge t0 = true) ->
  no_new_purge m (<[p := t]> m).
Proof.
  intros Ht q u. rewrite lookup_insert_Some.
  intros [[<- <-]|[_ H]] Hu; [auto|eauto].
Qed.

Lemma no_new_purge_delete (m : gmap nat task) (p : nat) :
  no_new_purge m (delete p m).
Proof. intros q u. rewrite lookup_delete_Some. intros [_ H] Hu. eauto. Qed.

Lemma suspend_untouched (w : world) (p : nat) (t : task)
    (f : database -> database) :
  (is_purge t = true ->
   exists t0, tasks w !! p = Some t0 /\ is_purge t0 = true) ->
  purge_untouched w (suspend p t (with_db f w)).
Proof.
  intros Ht. repeat split. now apply no_new_purge_insert.
Qed.

Lemma settle_untouched (w : world) (p : nat) (o : outcome value)
    (f : database -> database) :
  purge_untouched w (settle p o (with_db f w)).
Proof. repeat split. apply no_new_purge_delete. Qed.

Lemma suspend_untouched_same (w : world) (p : nat) (t : task) :
  is_purge t = false -> purge_untouched w (suspend p t w).
Proof.
  intros Ht. repeat split. apply no_new_purge_insert. congruence.
Qed.

Lemma settle_untouched_same (w : world) (p : nat) (o : outcome value) :
  purge_untouched w (settle p o w).
Proof. repeat split. apply no_new_purge_delete. Qed.

Lemma resume_untouched (p : nat) (t : task) (w w' : world) :
  resume p t w = Some w' -> purge_untouched w w'.
Proof.
  intros Hr.
  destruct t; cbn [resume] in Hr; try discriminate;
    try (inversion Hr; subst w';
         first [ apply settle_untouched | apply settle_untouched_same ]).
  - destruct (Knex.select (Knex.where_id i) (rows (db w) tbl));
      inversion Hr; subst w'; now apply suspend_untouched_same.
  - destruct (Knex.binds _ _); inversion Hr; subst w';
      [apply settle_untouched|apply settle_untouched_same].
  - destruct (if Knex.binds _ _ then _ else None);
      inversion Hr; subst w';
      [apply settle_untouched|apply settle_untouched_same].
  - destruct (Knex.select (Knex.where_id i) (rows (db w) tbl));
      inversion Hr; subst w'.
    + apply settle_untouched_same.
    + now apply suspend_untouched_same.
Qed.

Lemma step_untouched (l : label) (w w' : world) :
  is_upsert l = false -> step l w = Some w' -> purge_untouched w w'.
Proof.
  intros Hl Hs. destruct l as [d|c|p|p tbl|p]; cbn [step] in Hs.
  - destruct (0 <=? d); [|discriminate]. inversion Hs; subst w'.
    repeat split. intros q t Hq Ht. eauto.
  - inversion Hs; subst w'.
    destruct c; try discriminate; cbn [invoke];
      repeat split; apply no_new_purge_insert; discriminate.
  - destruct (tasks w !! p) as [t|] eqn:Hp; [|discriminate].
    now apply (resume_untouched p t w).
  - unfold deleted in Hs.
    destruct (tasks w !! p) as [t|] eqn:Hp; [|discriminate].
    destruct t; try discriminate.
    destruct (existsb (String.eqb tbl) pending); [|discriminate].
    inversion Hs; subst w'. unfold schedulePurge_await.
    destruct (remove_first tbl pending);
      apply suspend_untouched; intros _; eauto.
  - unfold timeout in Hs.
    destruct (tasks w !! p) as [t|] eqn:Hp; [|discriminate].
    destruct t; try discriminate.
    destruct (deadline <=? clock w); [|discriminate].
    inversion Hs; subst w'. repeat split. apply no_new_purge_delete.
Qed.



(** ** A call of [upsert] and the purge it starts *)

(** The answer of the database is all that a suspended call other than a
    purge waits for. *)
Lemma reply_enabled (p : nat) (t : task) (w : world) :
  tasks w !! p = Some t -> is_purge t = false ->
  exists w', step (Reply p) w = Some w'.
Proof.
  intros Hp Ht. cbn [step]. rewrite Hp.
  destruct t; try discriminate; cbn [resume]; eauto.
  - destruct (Knex.select (Knex.where_id i) (rows (db w) tbl)); eauto.
  - destruct (Knex.binds _ _); eauto.
  - destruct (if Knex.binds _ _ then _ else None); eauto.
  - destruct (Knex.select (Knex.where_id i) (rows (db w) tbl)); eauto.
Qed.

(** The two queries of a call of [upsert], answered one after the other:
    the call is settled and its table is what the queries leave. *)
Lemma upsert_replies (tbl i : string) (props : update_props) (p : nat)
    (w : world) :
  tasks w !! p = Some (upsert_83 tbl i props) ->
  exists w',
    exec [Reply p; Reply p] w = Some w'
    /\ settled w' !! p
       = Some (if Knex.binds timestamp props then fulfilled VUndefined
               else rejected DatabaseError)
    /\ tasks w' !! p = None
    /\ (forall q, q <> p -> tasks w' !! q = tasks w !! q)
    /\ vars w' = vars w
    /\ rows (db w') tbl
       = match upsert_write i props (clock w) (clock w) (rows (db w) tbl) with
         | Some t' => t'
         | None => rows (db w) tbl
         end.
Proof.
  intros Hp. cbn [exec step]. rewrite Hp. cbn [resume].
  rewrite upsert_write_binds. unfold rows_written.
  destruct (Knex.select (Knex.where_id i) (rows (db w) tbl)) as [|r l] eqn:E;
    cbn [suspend tasks]; rewrite lookup_insert_eq; cbn [resume db clock].
  - change (Knex.binds timestamp (with_id i props))
      with (Knex.binds timestamp props).
    destruct (Knex.binds timestamp props).
    + cbn [suspend db clock].
      rewrite (insert_fresh i (with_id i props) (clock w) _ E eq_refl).
      eexists. split; [reflexivity|].
      cbn [settle with_db suspend settled tasks vars db].
      split; [apply lookup_insert_eq|]. split; [apply lookup_delete_eq|].
      split; [|split; [reflexivity|]].
      * intros q Hq. rewrite lookup_delete_ne by congruence.
        now rewrite lookup_insert_ne by congruence.
      * rewrite rows_on_table. now rewrite String.eqb_refl.
    + eexists. split; [reflexivity|].
      cbn [settle suspend settled tasks vars db].
      split; [apply lookup_insert_eq|]. split; [apply lookup_delete_eq|].
      split; [|split; reflexivity].
      intros q Hq. rewrite lookup_delete_ne by congruence.
      now rewrite lookup_insert_ne by congruence.
  - change (Knex.binds timestamp (with_updated_at (clock w) props))
      with (Knex.binds timestamp props).
    destruct (Knex.binds timestamp props).
    + eexists. split; [reflexivity|].
      cbn [settle with_db suspend settled tasks vars db].
      split; [apply lookup_insert_eq|]. split; [apply lookup_delete_eq|].
      split; [|split; [reflexivity|]].
      * intros q Hq. rewrite lookup_delete_ne by congruence.
        now rewrite lookup_insert_ne by congruence.
      * rewrite rows_on_table. now rewrite String.eqb_refl.
    + eexists. split; [reflexivity|].
      cbn [settle suspend settled tasks vars db].
      split; [apply lookup_insert_eq|]. split; [apply lookup_delete_eq|].
      split; [|split; reflexivity].
      intros q Hq. rewrite lookup_delete_ne by congruence.
      now rewrite lookup_insert_ne by congruence.
Qed.

Lemma snd_upsert (i : string) (payload : jsonb) (expiresIn : option Z)
    (now now_update db_now : Date) (t : table) :
  snd (upsert i payload expiresIn now now_update db_now t)
  = match upsert_write i (upsert_props payload expiresIn now) now_update
            db_now t with
    | Some t' => t'
    | None => t
    end.
Proof. unfold upsert. now destruct (upsert_write _ _ _ _ _). Qed.

(** C5: a call of [upsert] that reaches the threshold starts the purge and
    does not wait for it: the two queries of the call can be answered at
    once, and the call is then settled, its row written, while the purge
    has done none of its deletions and the cool-down has not begun.  The
    call is fulfilled, unless its time to live gives an expiration that
    cannot be stored, which the database rejects. *)
Theorem upsert_does_not_await_purge (this : StorageAdapter) (i : string)
    (payload : jsonb) (expiresIn : option Z) (w : world) :
  purge_scheduled (vars w) = false ->
  purge_every_upserts_count (vars w) <= upserts_since_purge_count (vars w) + 1 ->
  let p := next_promise w in
  exists w',
    exec [Invoke (call_upsert this i payload expiresIn); Reply p; Reply p] w
    = Some w'
    /\ settled w' !! p
       = Some (match expiresIn with
               | Some n =>
                   if (n =? 0) || storable (clock w + n * 1000)
                   then fulfilled VUndefined
                   else rejected DatabaseError
               | None => fulfilled VUndefined
               end)
    /\ tasks w' !! p = None
    /\ tasks w' !! S p = Some (schedulePurge_288 (clock w) volatile_tables)
    /\ purge_scheduled (vars w') = true
    /\ rows (db w') (table_name this)
       = snd (upsert i payload expiresIn (clock w) (clock w) (clock w)
                (rows (db w) (table_name this))).
Proof.
  intros Hidle Hreach p.
  change (exec [Invoke (call_upsert this i payload expiresIn); Reply p; Reply p] w)
    with (exec [Reply p; Reply p]
               (invoke (call_upsert this i payload expiresIn) w)).
  rewrite invoke_upsert_eq. cbv zeta.
  apply Z.leb_le in Hreach. rewrite Hreach, Hidle. fold p.
  match goal with
  | |- context [exec _ ?W] =>
      destruct (upsert_replies (table_name this) i
                  (upsert_props payload expiresIn (clock w)) p W)
        as [w' [H1 [H2 [H3 [H4 [H5 H6]]]]]]
  end.
  { cbn [tasks]. apply lookup_insert_eq. }
  cbn [clock db vars tasks] in H2, H3, H4, H5, H6.
  exists w'. split; [exact H1|]. split.
  { rewrite H2, upsert_props_binds. now destruct expiresIn. }
  split; [exact H3|]. split.
  { rewrite H4 by lia. rewrite lookup_insert_ne by lia. apply lookup_insert_eq. }
  split; [now rewrite H5|].
  now rewrite H6, snd_upsert.
Qed.


(** Whatever the counter, a call of [upsert] whose two queries are answered
    at once does to its table what [upsert] does. *)
Lemma upsert_runs_to_completion (this : StorageAdapter) (i : string)
    (payload : jsonb) (expiresIn : option Z) (w : world) :
  let p := next_promise w in
  exists w',
    exec [Invoke (call_upsert this i payload expiresIn); Reply p; Reply p] w
    = Some w'
    /\ settled w' !! p
       = Some (returns_nothing
                 (fst (upsert i payload expiresIn (clock w) (clock w) (clock w)
                         (rows (db w) (table_name this)))))
    /\ rows (db w') (table_name this)
       = snd (upsert i payload expiresIn (clock w) (clock w) (clock w)
                (rows (db w) (table_name this))).
Proof.
  intros p.
  change (exec [Invoke (call_upsert this i payload expiresIn); Reply p; Reply p] w)
    with (exec [Reply p; Reply p]
               (invoke (call_upsert this i payload expiresIn) w)).
  rewrite invoke_upsert_eq. cbv zeta. fold p.
  assert (Hfst : returns_nothing
                   (fst (upsert i payload expiresIn (clock w) (clock w) (clock w)
                           (rows (db w) (table_name this))))
                 = if Knex.binds timestamp (upsert_props payload expiresIn (clock w))
                   then fulfilled VUndefined else rejected DatabaseError).
  { destruct (Knex.binds timestamp (upsert_props payload expiresIn (clock w))) eqn:Hb.
    - now rewrite upsert_bound.
    - now rewrite upsert_unbound. }
  rewrite Hfst, snd_upsert.
  destruct (purge_every_upserts_count (vars w)
            <=? upserts_since_purge_count (vars w) + 1);
    [destruct (purge_scheduled (vars w))|];
    match goal with
    | |- context [exec _ ?W] =>
        destruct (upsert_replies (table_name this) i
                    (upsert_props payload expiresIn (clock w)) p W)
          as [w' [H1 [H2 [_ [_ [_ H6]]]]]];
          [cbn [tasks]; apply lookup_insert_eq|];
          cbn [clock db] in H6; exists w'; auto
    end.
Qed.

(** The deletions of a purge in flight, done one after the other: the
    database is the one [purge] returns, and the cool-down starts. *)
Lemma deletions_run_purge (p : nat) (now : Date) (pending : list string)
    (w : world) :
  pending <> [] ->
  tasks w !! p = Some (schedulePurge_288 now pending) ->
  exists w',
    exec (List.map (Deleted p) pending) w = Some w'
    /\ db w' = fold_left (fun d tbl => purge_table now tbl d) pending (db w)
    /\ tasks w' !! p = Some (schedulePurge_290 (clock w + cooldown w))
    /\ vars w' = vars w
    /\ clock w' = clock w.
Proof.
  revert w. induction pending as [|x rest IH]; intros w Hne Hp; [contradiction|].
  cbn [List.map exec step fold_left]. unfold deleted. rewrite Hp.
  cbn [existsb remove_first]. rewrite String.eqb_refl. cbn [orb].
  destruct rest as [|y rest'].
  - cbn [List.map exec fold_left schedulePurge_await]. eexists.
    split; [reflexivity|].
    cbn [suspend with_db db tasks vars clock]. repeat split.
    apply lookup_insert_eq.
  - assert (Hne' : y :: rest' <> []) by discriminate.
    cbn [schedulePurge_await].
    destruct (IH (suspend p (schedulePurge_288 now (y :: rest'))
                    (with_db (purge_table now x) w)) Hne')
      as [w' [H1 [H2 [H3 [H4 H5]]]]].
    { cbn [suspend tasks]. apply lookup_insert_eq. }
    exists w'. split; [exact H1|]. split; [exact H2|]. split; [exact H3|].
    split; assumption.
Qed.

(** ** The debounce of the purge *)

Lemma resume_clock (p : nat) (t : task) (w w' : world) :
  resume p t w = Some w' -> clock w' = clock w.
Proof.
  intros Hr. destruct t; cbn [resume] in Hr; try discriminate;
    try (inversion Hr; subst w'; reflexivity).
  - destruct (Knex.select (Knex.where_id i) (rows (db w) tbl));
      inversion Hr; subst w'; reflexivity.
  - destruct (Knex.binds _ _); inversion Hr; subst w'; reflexivity.
  - destruct (if Knex.binds _ _ then _ else None);
      inversion Hr; subst w'; reflexivity.
  - destruct (Knex.select (Knex.where_id i) (rows (db w) tbl));
      inversion Hr; subst w'; reflexivity.
Qed.

Lemma step_clock (l : label) (w w' : world) :
  step l w = Some w' -> clock w <= clock w'.
Proof.
  intros Hs. destruct l as [d|c|p|p tbl|p]; cbn [step] in Hs.
  - destruct (0 <=? d) eqn:E; [|discriminate]. apply Z.leb_le in E.
    inversion Hs; subst w'. cbn. lia.
  - assert (Hw : w' = invoke c w) by congruence.
    subst w'. destruct c; try (cbn [invoke suspend new_promise clock]; lia).
    rewrite invoke_upsert_eq. cbv zeta.
    destruct (purge_every_upserts_count (vars w)
              <=? upserts_since_purge_count (vars w) + 1);
      [destruct (purge_scheduled (vars w))|]; cbn; lia.
  - destruct (tasks w !! p) as [t|]; [|discriminate].
    rewrite (resume_clock p t w w' Hs). lia.
  - unfold deleted in Hs.
    destruct (tasks w !! p) as [t|]; [|discriminate].
    destruct t; try discriminate.
    destruct (existsb (String.eqb tbl) pending); [|discriminate].
    inversion Hs; subst w'. unfold schedulePurge_await.
    destruct (remove_first tbl pending); cbn; lia.
  - unfold timeout in Hs.
    destruct (tasks w !! p) as [t|]; [|discriminate].
    destruct t; try discriminate.
    destruct (deadline <=? clock w); [|discriminate].
    inversion Hs; subst w'. cbn. lia.
Qed.

(** A run logs at most one purge, at the instant of the run, and leaves
    the cool-down as configured. *)
Lemma step_purge_times (l : label) (w w' : world) :
  step l w = Some w' ->
  cooldown w' = cooldown w
  /\ (purge_times w' = purge_times w
      \/ purge_times w' = clock w :: purge_times w).
Proof.
  intros Hs. destruct (is_upsert l) eqn:Hl.
  - destruct l as [d|c|p|p tbl|p]; try discriminate.
    destruct c; try discriminate.
    assert (Hw : w' = invoke (call_upsert this i payload expiresIn) w)
      by (cbn [step] in Hs; congruence).
    subst w'. rewrite invoke_upsert_eq. cbv zeta.
    destruct (purge_every_upserts_count (vars w)
              <=? upserts_since_purge_count (vars w) + 1);
      [destruct (purge_scheduled (vars w))|];
      (split; [reflexivity|]); [left|right|left]; reflexivity.
  - destruct (step_untouched l w w' Hl Hs) as [_ [_ [H1 [_ [H2 _]]]]].
    unfold cooldown, purge_times. rewrite H1, H2. auto.
Qed.

Lemma exec_purge_times (ls : list label) (w w' : world) :
  exec ls w = Some w' ->
  clock w <= clock w'
  /\ cooldown w' = cooldown w
  /\ exists recent, purge_times w' = (recent ++ purge_times w)%list
                    /\ forall t, In t recent -> clock w <= t.
Proof.
  revert w. induction ls as [|l ls' IH]; intros w He; cbn [exec] in He.
  - inversion He; subst. split; [lia|]. split; [reflexivity|].
    exists []. split; [reflexivity|]. intros t [].
  - destruct (step l w) as [w1|] eqn:Hs; [|discriminate].
    destruct (IH w1 He) as [H1 [H2 [recent [H3 H4]]]].
    pose proof (step_clock l w w1 Hs) as Hc.
    destruct (step_purge_times l w w1 Hs) as [Hd Ht].
    split; [lia|]. split; [congruence|].
    destruct Ht as [Ht|Ht]; rewrite Ht in H3.
    + exists recent. split; [assumption|].
      intros t Hin. specialize (H4 t Hin). lia.
    + exists (recent ++ [clock w])%list. split.
      * rewrite <- app_assoc. assumption.
      * intros t Hin. apply in_app_iff in Hin as [Hin|[<-|[]]]; [|lia].
        specialize (H4 t Hin). lia.
Qed.

(** Instants a gap apart, within a window shorter than the gap: at most one
    of them is recent. *)
Lemma spaced_window (gap lo hi : Z) (recent old : list Date) :
  spaced gap (recent ++ old)%list ->
  (forall t, In t recent -> lo <= t) ->
  (forall t, In t (recent ++ old)%list -> t <= hi) ->
  hi - lo < gap ->
  (length recent <= 1)%nat.
Proof.
  intros Hsp Hlo Hhi Hgap.
  destruct recent as [|a [|b rest]]; cbn [length]; try lia.
  exfalso. cbn in Hsp. destruct Hsp as [Hab _].
  assert (Ha : a <= hi) by (apply Hhi; now left).
  assert (Hb : lo <= b) by (apply Hlo; right; now left).
  lia.
Qed.

(** An answer of the database changes neither the variables, nor the log,
    nor the other suspended calls. *)
Lemma resume_frame (q : nat) (t : task) (w w' : world) :
  resume q t w = Some w' ->
  vars w' = vars w /\ log w' = log w
  /\ forall p, p <> q -> tasks w' !! p = tasks w !! p.
Proof.
  assert (Hsettle : forall o f,
            vars (settle q o (with_db f w)) = vars w
            /\ log (settle q o (with_db f w)) = log w
            /\ forall p, p <> q ->
                 tasks (settle q o (with_db f w)) !! p = tasks w !! p).
  { intros o f. cbn [settle with_db vars log tasks]. repeat split.
    intros p Hp. now rewrite lookup_delete_ne by congruence. }
  assert (Hsettle' : forall o,
            vars (settle q o w) = vars w /\ log (settle q o w) = log w
            /\ forall p, p <> q -> tasks (settle q o w) !! p = tasks w !! p).
  { intros o. cbn [settle vars log tasks]. repeat split.
    intros p Hp. now rewrite lookup_delete_ne by congruence. }
  assert (Hsuspend : forall u,
            vars (suspend q u w) = vars w /\ log (suspend q u w) = log w
            /\ forall p, p <> q -> tasks (suspend q u w) !! p = tasks w !! p).
  { intros u. cbn [suspend vars log tasks]. repeat split.
    intros p Hp. now rewrite lookup_insert_ne by congruence. }
  intros Hr.
  destruct t; cbn [resume] in Hr; try discriminate;
    try (inversion Hr; subst w'; first [ apply Hsettle | apply Hsettle' ]).
  - destruct (Knex.select (Knex.where_id i) (rows (db w) tbl));
      inversion Hr; subst w'; apply Hsuspend.
  - destruct (Knex.binds _ _); inversion Hr; subst w';
      [apply Hsettle|apply Hsettle'].
  - destruct (if Knex.binds _ _ then _ else None);
      inversion Hr; subst w'; [apply Hsettle|apply Hsettle'].
  - destruct (Knex.select (Knex.where_id i) (rows (db w) tbl));
      inversion Hr; subst w'; [apply Hsettle'|apply Hsuspend].
Qed.

(** While a purge is scheduled, a call leaves the flag set, the purges logged
    as they were, and the suspended calls where they are. *)
Lemma invoke_busy (c : call) (w : world) (p : nat) (t : task) :
  coherent w ->
  purge_scheduled (vars w) = true ->
  tasks w !! p = Some t ->
  purge_scheduled (vars (invoke c w)) = true
  /\ purge_times (invoke c w) = purge_times w
  /\ clock (invoke c w) = clock w
  /\ tasks (invoke c w) !! p = Some t.
Proof.
  intros Hc Hbusy Hp.
  pose proof (promises_fresh w Hc p t Hp) as Hlt.
  destruct c;
    try (cbn [invoke suspend new_promise vars tasks clock];
         repeat split; [assumption|];
         rewrite lookup_insert_ne by lia; assumption).
  rewrite invoke_upsert_eq. cbv zeta. rewrite Hbusy.
  destruct (purge_every_upserts_count (vars w)
            <=? upserts_since_purge_count (vars w) + 1);
    cbn [vars tasks clock purge_scheduled];
    repeat split; rewrite ?lookup_insert_ne by lia;
    rewrite ?lookup_delete_ne by lia; assumption.
Qed.

(** The flag [purge_scheduled] is cleared by the timer of [delay] and by
    nothing else. *)
Lemma flag_cleared_by_timer (l : label) (w w' : world) :
  step l w = Some w' ->
  purge_scheduled (vars w) = true ->
  purge_scheduled (vars w') = false ->
  exists p deadline,
    l = Fires p /\ tasks w !! p = Some (schedulePurge_290 deadline)
    /\ deadline <= clock w.
Proof.
  intros Hs Hbusy Hidle. destruct l as [d|c|q|q tbl|q]; cbn [step] in Hs.
  - destruct (0 <=? d); [|discriminate].
    assert (Hw : vars w' = vars w) by (inversion Hs; reflexivity).
    congruence.
  - assert (Hw : w' = invoke c w) by congruence. subst w'.
    destruct c; try (cbn [invoke suspend new_promise vars] in Hidle; congruence).
    rewrite invoke_upsert_eq in Hidle. cbv zeta in Hidle.
    rewrite Hbusy in Hidle.
    destruct (purge_every_upserts_count (vars w)
              <=? upserts_since_purge_count (vars w) + 1);
      cbn [vars purge_scheduled] in Hidle; congruence.
  - destruct (tasks w !! q) as [t|]; [|discriminate].
    destruct (resume_frame q t w w' Hs) as [Hv _]. congruence.
  - unfold deleted in Hs.
    destruct (tasks w !! q) as [t|]; [|discriminate].
    destruct t; try discriminate.
    destruct (existsb (String.eqb tbl) pending); [|discriminate].
    assert (Hv : vars w' = vars w).
    { inversion Hs. unfold schedulePurge_await.
      now destruct (remove_first tbl pending). }
    congruence.
  - unfold timeout in Hs.
    destruct (tasks w !! q) as [t|] eqn:Hq; [|discriminate].
    destruct t; try discriminate.
    destruct (deadline <=? clock w) eqn:E; [|discriminate].
    apply Z.leb_le in E. eauto.
Qed.

(** During the cool-down a run schedules no purge: the timer is still
    pending and the flag set, or the deadline of the timer is reached. *)
Lemma cooling_step (p : nat) (deadline : Date) (l : label) (w w' : world) :
  coherent w ->
  tasks w !! p = Some (schedulePurge_290 deadline) ->
  step l w = Some w' ->
  purge_times w' = purge_times w
  /\ ((tasks w' !! p = Some (schedulePurge_290 deadline)
       /\ purge_scheduled (vars w') = true)
      \/ deadline <= clock w').
Proof.
  intros Hc Hp Hs.
  assert (Hbusy : purge_scheduled (vars w) = true).
  { destruct (purge_scheduled (vars w)) eqn:E; [reflexivity|].
    pose proof (idle_no_purge w Hc E p _ Hp). discriminate. }
  destruct l as [d|c|q|q tbl|q]; cbn [step] in Hs.
  - destruct (0 <=? d); [|discriminate].
    assert (Hw : w' = World (clock w + d) (vars w) (db w) (log w) (tasks w)
                            (settled w) (next_promise w)) by congruence.
    subst w'. split; [reflexivity|]. left. now split.
  - assert (Hw : w' = invoke c w) by congruence. subst w'.
    destruct (invoke_busy c w p _ Hc Hbusy Hp) as [H1 [H2 [_ H3]]].
    split; [assumption|]. left. now split.
  - destruct (tasks w !! q) as [t|] eqn:Hq; [|discriminate].
    destruct (resume_frame q t w w' Hs) as [Hv [Hl Ht]].
    split; [unfold purge_times; now rewrite Hl|]. left.
    assert (Hne : p <> q).
    { intros ->. rewrite Hp in Hq. inversion Hq; subst t. discriminate. }
    rewrite (Ht p Hne), Hv. now split.
  - unfold deleted in Hs.
    destruct (tasks w !! q) as [t|] eqn:Hq; [|discriminate].
    destruct t; try discriminate.
    assert (Hpq : q = p)
      by (apply (one_purge w Hc q p _ _ Hq Hp); reflexivity).
    subst q. rewrite Hp in Hq. discriminate.
  - unfold timeout in Hs.
    destruct (tasks w !! q) as [t|] eqn:Hq; [|discriminate].
    destruct t; try discriminate.
    assert (Hpq : q = p)
      by (apply (one_purge w Hc q p _ _ Hq Hp); reflexivity).
    subst q. rewrite Hp in Hq. inversion Hq; subst deadline0.
    destruct (deadline <=? clock w) eqn:E; [|discriminate].
    apply Z.leb_le in E.
    assert (Hw : log w' = log w /\ clock w' = clock w)
      by (inversion Hs; split; reflexivity).
    destruct Hw as [Hl Hk].
    split; [unfold purge_times; now rewrite Hl|]. right. lia.
Qed.

Lemma cooling_exec (p : nat) (deadline : Date) (ls : list label)
    (w w' : world) :
  coherent w ->
  tasks w !! p = Some (schedulePurge_290 deadline) ->
  exec ls w = Some w' ->
  (clock w' < deadline ->
   purge_scheduled (vars w') = true /\ purge_times w' = purge_times w)
  /\ (forall t, In t (purge_times w') -> In t (purge_times w) \/ deadline <= t).
Proof.
  revert w. induction ls as [|l ls' IH]; intros w Hc Hp He; cbn [exec] in He.
  - assert (Hw : w' = w) by congruence. subst w'. split; [|auto].
    intros _. split; [|reflexivity].
    destruct (purge_scheduled (vars w)) eqn:E; [reflexivity|].
    pose proof (idle_no_purge w Hc E p _ Hp). discriminate.
  - destruct (step l w) as [w1|] eqn:Hs; [|discriminate].
    pose proof (step_coherent l w w1 Hc Hs) as Hc1.
    destruct (cooling_step p deadline l w w1 Hc Hp Hs) as [Ht [[Hp1 _]|Hd]].
    + rewrite <- Ht. now apply IH.
    + destruct (exec_purge_times ls' w1 w' He) as [Hk [_ [recent [Hr Hlo]]]].
      split; [intros Hlt; lia|].
      intros t Hin. rewrite Hr in Hin. apply in_app_iff in Hin as [Hin|Hin].
      * right. specialize (Hlo t Hin). lia.
      * left. now rewrite <- Ht.
Qed.

(** C3: whatever the calls, the purges scheduled are a cool-down apart or
    more, so that in any lapse of time shorter than the cool-down at most
    one purge is scheduled, however many the calls of [upsert]; the flag
    [purge_scheduled] is set exactly while a purge is in flight or cooling
    down, and a call made meanwhile schedules none; the timer that clears
    the flag fires a cool-down or more after the purge was scheduled.  With
    [purge_single_execution_protection_delay] at 2000 the cool-down is 2000
    milliseconds.  The cool-down runs from the end of the purge: the timer
    set when the last deletion is done has its deadline a cool-down after
    that instant; until that deadline the flag stays set and no purge is
    scheduled, so that every later purge is scheduled at the deadline or
    after; and the flag is cleared by that timer alone. *)
Theorem purge_is_debounced (delay every : option Z) (d : database)
    (start : Date) (ls : list label) (w : world) :
  exec ls (initial_world delay every d start) = Some w ->
  spaced (cooldown w) (purge_times w)
  /\ (forall ls' w',
        exec ls' w = Some w' -> clock w' - clock w < cooldown w ->
        (length (purge_times w') <= S (length (purge_times w)))%nat)
  /\ (purge_scheduled (vars w) = true <->
      exists p t, tasks w !! p = Some t /\ is_purge t = true)
  /\ (purge_scheduled (vars w) = true ->
      forall c, purge_times (invoke c w) = purge_times w
                /\ purge_last_date (vars (invoke c w)) = purge_last_date (vars w)
                /\ purge_scheduled (vars (invoke c w)) = true)
  /\ (forall p w',
        step (Fires p) w = Some w' ->
        purge_scheduled (vars w') = false
        /\ exists t0, purge_last_date (vars w) = Some t0
                      /\ t0 + cooldown w <= clock w)
  /\ (delay = Some 2000 -> cooldown w = 2000)
  /\ (forall p tbl w' deadline,
        step (Deleted p tbl) w = Some w' ->
        tasks w' !! p = Some (schedulePurge_290 deadline) ->
        deadline = clock w + cooldown w)
  /\ (forall p deadline ls' w',
        tasks w !! p = Some (schedulePurge_290 deadline) ->
        exec ls' w = Some w' ->
        (clock w' < deadline ->
         purge_scheduled (vars w') = true /\ purge_times w' = purge_times w)
        /\ (forall t, In t (purge_times w') ->
                      In t (purge_times w) \/ deadline <= t))
  /\ (forall l w',
        step l w = Some w' ->
        purge_scheduled (vars w) = true ->
        purge_scheduled (vars w') = false ->
        exists p deadline,
          l = Fires p /\ tasks w !! p = Some (schedulePurge_290 deadline)
          /\ deadline <= clock w).
Proof.
  intros He.
  assert (Hc : coherent w).
  { apply (exec_coherent ls _ w (initial_world_coherent delay every d start) He). }
  split; [apply (times_spaced w Hc)|].
  split; [|split; [|split; [|split; [|split; [|split; [|split]]]]]].
  - intros ls' w' He' Hlapse.
    assert (Hc' : coherent w') by apply (exec_coherent ls' w w' Hc He').
    destruct (exec_purge_times ls' w w' He') as [_ [Hcd [recent [Ht Hlo]]]].
    rewrite Ht, length_app.
    enough (length recent <= 1)%nat by lia.
    apply (spaced_window (cooldown w) (clock w) (clock w') recent (purge_times w)).
    + rewrite <- Ht, <- Hcd. apply (times_spaced w' Hc').
    + assumption.
    + rewrite <- Ht. apply (times_past w' Hc').
    + assumption.
  - split; [apply (busy_purge w Hc)|].
    intros [p [t [Hp Ht]]].
    destruct (purge_scheduled (vars w)) eqn:E; [reflexivity|].
    rewrite (idle_no_purge w Hc E p t Hp) in Ht. discriminate.
  - intros Hbusy c. destruct c; try (repeat split; assumption).
    rewrite invoke_upsert_eq. cbv zeta. rewrite Hbusy.
    destruct (purge_every_upserts_count (vars w)
              <=? upserts_since_purge_count (vars w) + 1);
      repeat split; assumption.
  - intros p w' Hs. cbn [step] in Hs. unfold timeout in Hs.
    destruct (tasks w !! p) as [t|] eqn:Hp; [|discriminate].
    destruct t; try discriminate.
    destruct (deadline <=? clock w) eqn:E; [|discriminate].
    apply Z.leb_le in E. inversion Hs; subst w'.
    split; [reflexivity|].
    destruct (cooling_until w Hc p deadline Hp) as [t0 [H1 H2]].
    exists t0. split; [assumption|lia].
  - intros ->.
    destruct (exec_purge_times ls _ w He) as [_ [Hcd _]].
    rewrite Hcd. reflexivity.
  - intros p tbl w' deadline Hs Hp. cbn [step] in Hs. unfold deleted in Hs.
    destruct (tasks w !! p) as [t|]; [|discriminate].
    destruct t; try discriminate.
    destruct (existsb (String.eqb tbl) pending); [|discriminate].
    assert (Hw : w' = schedulePurge_await p now (remove_first tbl pending)
                        (with_db (purge_table now tbl) w)) by congruence.
    subst w'. unfold schedulePurge_await in Hp.
    destruct (remove_first tbl pending);
      cbn [suspend with_db tasks vars clock] in Hp;
      rewrite lookup_insert_eq in Hp; [|discriminate].
    unfold cooldown. congruence.
  - intros p deadline ls' w' Hp He'.
    now apply (cooling_exec p deadline ls' w w').
  - intros l w'. apply flag_cleared_by_timer.
Qed.

(** * Further properties *)

(** ** Lookups after a write *)

Lemma filter_map_same (p : row -> bool) (f : row -> row) (t : table) :
  (forall r, p (f r) = p r) ->
  List.filter p (List.map f t) = List.map f (List.filter p t).
Proof.
  intros Hp. induction t as [|r t' IH]; [reflexivity|].
  cbn [List.map List.filter]. rewrite Hp.
  destruct (p r); cbn [List.map]; now rewrite IH.
Qed.

(** An update of the rows of an id that writes neither [id] nor
    [expires_at] leaves every lookup by id to find the same rows, with
    the data written. *)
Lemma find_after_update (i : string) (props : update_props) (d : jsonb)
    (t : table) (now : Date) :
  set_id props = None -> set_expires_at props = None ->
  set_data props = Some d ->
  find i now (Knex.update (Knex.where_id i) props t)
  = match find i now t with
    | fulfilled (Some _) => fulfilled (Some d)
    | other => other
    end.
Proof.
  intros Hid He Hd. unfold find, Knex.update, Knex.select.
  rewrite filter_map_same.
  - destruct (List.filter _ t) as [|r l] eqn:E; [reflexivity|].
    cbn [List.map first_data].
    assert (Hr : In r (List.filter
                         (fun r => Knex.where_id i r
                                   && Knex.where_not_expired now r) t))
      by (rewrite E; now left).
    apply filter_In in Hr as [_ Hr]. apply andb_true_iff in Hr as [Hr _].
    rewrite Hr. cbn [Knex.assign data]. now rewrite Hd.
  - intros r. unfold Knex.where_id, Knex.where_not_expired.
    destruct (String.eqb (id r) i) eqn:Er; [|now rewrite Er].
    cbn [Knex.assign id expires_at]. rewrite Hid, He.
    cbn [default from_option]. now rewrite Er.
Qed.

(** X1: [consume] then [find]: a model that [find] returned is returned
    with the property [consumed] added to the data of the first row of the
    id, and a model that [find] did not return, expired or absent, is still
    not returned: [consume] changes no visibility. *)
Theorem consume_then_find (i : string) (now now' : Date) (t : table)
    (r0 : row) (l : list row) :
  Knex.select (Knex.where_id i) t = r0 :: l ->
  fst (consume i now t) = fulfilled tt
  /\ find i now' (snd (consume i now t))
     = match find i now' t with
       | fulfilled (Some _) =>
           fulfilled (Some (<["consumed" := JStr (toISOString now)]> (data r0)))
       | other => other
       end.
Proof.
  intros Hsel. unfold consume. rewrite Hsel. cbn [fst snd].
  split; [reflexivity|]. now apply find_after_update.
Qed.

(** X2: [upsert] without a time to live, or with zero, on an id that
    exists: [find] returns the new payload if it returned the model
    before, and [null] if it did not: a model that has expired and is not
    purged yet stays invisible. *)
Theorem upsert_without_ttl_keeps_visibility (i : string) (payload : jsonb)
    (expiresIn : option Z) (now0 now_update db_now : Date) (t : table)
    (now : Date) :
  expiresIn = None \/ expiresIn = Some 0 ->
  (exists r0, In r0 t /\ id r0 = i) ->
  find i now (snd (upsert i payload expiresIn now0 now_update db_now t))
  = match find i now t with
    | fulfilled (Some _) => fulfilled (Some payload)
    | other => other
    end.
Proof.
  intros Hz [r0 [Hin Hid]]. unfold upsert. cbn [snd].
  rewrite (upsert_props_no_ttl _ _ _ Hz). unfold upsert_write.
  destruct (Knex.select (Knex.where_id i) t) as [|r1 l] eqn:E.
  - destruct (proj1 (select_where_id_nil i t) E r0 Hin Hid).
  - now apply find_after_update.
Qed.

Lemma select_after_del_in (p q : row -> bool) (t : table) :
  (forall r, In r t -> p r = true -> q r = false) ->
  Knex.select p (Knex.del q t) = Knex.select p t.
Proof.
  unfold Knex.select, Knex.del.
  induction t as [|r t' IH]; intros Hpq; [reflexivity|].
  cbn [List.filter].
  assert (IH' : List.filter p (List.filter (fun r => negb (q r)) t')
                = List.filter p t').
  { apply IH. intros r' Hin. apply Hpq. now right. }
  destruct (q r) eqn:Eq; cbn [negb].
  - destruct (p r) eqn:Ep; [|assumption].
    rewrite (Hpq r (or_introl eq_refl) Ep) in Eq. discriminate.
  - cbn [List.filter]. destruct (p r); [f_equal|]; assumption.
Qed.

(** X3: [destroy] then [find] returns [null], whether the id existed or
    not; a second [destroy] is fulfilled and changes nothing; the lookups of
    the other ids are as before. *)
Theorem destroy_then_find (i : string) (now : Date) (t : table) :
  find i now (snd (destroy i t)) = fulfilled None
  /\ destroy i (snd (destroy i t)) = (fulfilled tt, snd (destroy i t))
  /\ (forall j, j <> i -> find j now (snd (destroy i t)) = find j now t).
Proof.
  unfold destroy. cbn [snd]. split; [|split].
  - apply first_data_none. intros r Hin. apply In_del in Hin as [_ Hr].
    now rewrite Hr.
  - now rewrite del_idempotent.
  - intros j Hj. unfold find. rewrite select_after_del; [reflexivity|].
    intros r Hr. apply andb_true_iff in Hr as [Hr _].
    apply where_id_true in Hr. unfold Knex.where_id.
    apply String.eqb_neq. congruence.
Qed.

Lemma holds_string_false (key value : string) (d : jsonb) :
  holds_string key value d = false <-> d !! key <> Some (JStr value).
Proof.
  rewrite <- holds_string_true.
  destruct (holds_string key value d); split; congruence.
Qed.

(** X4: when the database reads the text made of the grant id as the test
    of that string, [revokeByGrantId] is fulfilled and deletes exactly the
    rows whose payload holds that grant id, expired or not: the models of
    the grant are not found any more, the lookups of the models of other
    grants are as before, and a second revocation deletes nothing.  When
    the database does not read the text, the call is rejected and no row is
    deleted. *)
Theorem revokeByGrantId_cascades (grantId : string) (t : table) :
  let t' := snd (revokeByGrantId grantId t) in
  (jsonb_pattern (containment_text "grantId" grantId)
   = Some (holds_string "grantId" grantId) ->
   fst (revokeByGrantId grantId t) = fulfilled tt
   /\ (forall r, In r t' <->
                 In r t /\ data r !! "grantId" <> Some (JStr grantId))
   /\ (forall i now,
         (forall r, In r t -> id r = i ->
                    data r !! "grantId" = Some (JStr grantId)) ->
         find i now t' = fulfilled None)
   /\ (forall i now,
         (forall r, In r t -> id r = i ->
                    data r !! "grantId" <> Some (JStr grantId)) ->
         find i now t' = find i now t)
   /\ revokeByGrantId grantId t' = (fulfilled tt, t'))
  /\ (jsonb_pattern (containment_text "grantId" grantId) = None ->
      revokeByGrantId grantId t = (rejected DatabaseError, t)).
Proof.
  intros t'. unfold t', revokeByGrantId. split.
  - intros ->. cbn [fst snd]. unfold Knex.where_data_contains.
    split; [reflexivity|]. split; [|split; [|split]].
    + intros r. rewrite In_del. now rewrite holds_string_false.
    + intros i now Hall. apply first_data_none. intros r Hin.
      apply In_del in Hin as [Hin Hr].
      destruct (Knex.where_id i r) eqn:Ei; [|reflexivity].
      apply where_id_true in Ei. apply holds_string_false in Hr.
      destruct (Hr (Hall r Hin Ei)).
    + intros i now Hall. unfold find. apply f_equal.
      apply select_after_del_in. intros r Hin Hr.
      apply andb_true_iff in Hr as [Hr _]. apply where_id_true in Hr.
      apply holds_string_false. auto.
    + now rewrite del_idempotent.
  - now intros ->.
Qed.

(** ** Models that do not expire *)

(** X5: a model stored under a new id without a time to live, or with
    zero, is found at every instant, whatever the purges done since. *)
Theorem durable_model_survives_purges (i : string) (payload : jsonb)
    (expiresIn : option Z) (now0 now_update db_now : Date) (t : table)
    (purges : list Date) (now : Date) :
  expiresIn = None \/ expiresIn = Some 0 ->
  (forall r, In r t -> id r <> i) ->
  find i now
       (purged purges (snd (upsert i payload expiresIn now0 now_update db_now t)))
  = fulfilled (Some payload).
Proof.
  intros Hz Habs.
  rewrite (upsert_no_ttl _ _ _ _ _ _ _ Hz). cbn [snd].
  set (t' := rows_written i (Props None (Some payload) None None) now_update
               db_now t).
  assert (Hinv : (exists r, In r t' /\ id r = i)
                 /\ forall r, In r t' -> id r = i ->
                              data r = payload /\ expires_at r = None).
  { split; [now apply rows_written_has_row|].
    intros r Hin Hid.
    apply In_rows_written in Hin; [|reflexivity].
    destruct Hin as [[r0 [H1 [H2 _]]]|[[_ H1]|[_ H1]]].
    - destruct (Habs r0 H1 H2).
    - contradiction.
    - subst r. auto. }
  clearbody t'. revert t' Hinv. unfold purged.
  induction purges as [|p purges' IH]; intros t' [[r [Hin Hid]] Hall];
    cbn [fold_left].
  - apply first_data_some.
    + exists r. split; [assumption|].
      destruct (Hall r Hin Hid) as [_ He].
      unfold Knex.where_not_expired. rewrite He.
      rewrite (proj2 (where_id_true i r) Hid). reflexivity.
    + intros r' Hin' Hp. apply andb_true_iff in Hp as [Hp _].
      apply where_id_true in Hp. now destruct (Hall r' Hin' Hp).
  - apply IH. split.
    + exists r. split; [|assumption]. apply In_del. split; [assumption|].
      destruct (Hall r Hin Hid) as [_ He].
      unfold Knex.where_expired. now rewrite He.
    + intros r' Hin'. apply In_del in Hin' as [Hin' _]. now apply Hall.
Qed.

(** ** Ids *)

Lemma NoDup_ids_del (p : row -> bool) (t : table) :
  List.NoDup (List.map id t) -> List.NoDup (List.map id (Knex.del p t)).
Proof.
  unfold Knex.del. induction t as [|r t' IH]; intros Hn; [assumption|].
  cbn [List.map] in Hn. apply List.NoDup_cons_iff in Hn as [Hr Hn].
  cbn [List.filter]. destruct (negb (p r)); [|now apply IH].
  cbn [List.map]. apply List.NoDup_cons; [|now apply IH].
  intros Hin. apply Hr. apply in_map_iff in Hin as [r' [Hid Hin]].
  apply filter_In in Hin as [Hin _]. apply in_map_iff. eauto.
Qed.

Lemma ids_update (p : row -> bool) (props : update_props) (t : table) :
  set_id props = None ->
  List.map id (Knex.update p props t) = List.map id t.
Proof.
  intros Hid. unfold Knex.update. rewrite map_map. apply map_ext.
  intros r. destruct (p r); [|reflexivity].
  cbn [Knex.assign id]. now rewrite Hid.
Qed.

(** X6: the ids of a table stay unique: [upsert] inserts a row only for an
    id that no row has, [consume] rewrites rows in place, and [destroy],
    [revokeByGrantId] and the deletion of a purge only remove rows. *)
Theorem ids_stay_unique (t : table) :
  List.NoDup (List.map id t) ->
  (forall i payload expiresIn now now_update db_now,
     List.NoDup
       (List.map id (snd (upsert i payload expiresIn now now_update db_now t))))
  /\ (forall i now, List.NoDup (List.map id (snd (consume i now t))))
  /\ (forall i, List.NoDup (List.map id (snd (destroy i t))))
  /\ (forall grantId,
        List.NoDup (List.map id (snd (revokeByGrantId grantId t))))
  /\ (forall now, List.NoDup (List.map id (Knex.del (Knex.where_expired now) t))).
Proof.
  intros Hn. split; [|split; [|split; [|split]]].
  - intros i payload expiresIn now now_update db_now.
    destruct (Knex.binds timestamp (upsert_props payload expiresIn now)) eqn:Hb;
      [|now rewrite upsert_unbound].
    rewrite upsert_bound by assumption. cbn [snd]. unfold rows_written.
    destruct (Knex.select (Knex.where_id i) t) as [|r l] eqn:E.
    + rewrite map_app. cbn [List.map Knex.inserted id with_id set_id].
      cbn [default from_option].
      apply List.NoDup_app; [assumption|apply List.NoDup_cons|];
        [intros []|apply List.NoDup_nil|].
      intros x Hx [<-|[]]. apply in_map_iff in Hx as [r [Hid Hin]].
      exact (proj1 (select_where_id_nil i t) E r Hin Hid).
    + rewrite ids_update; [assumption|].
      cbn [with_updated_at set_id]. apply upsert_props_id.
  - intros i now. unfold consume.
    destruct (Knex.select (Knex.where_id i) t); [assumption|].
    cbn [snd]. now rewrite ids_update.
  - intros i. now apply NoDup_ids_del.
  - intros grantId. unfold revokeByGrantId.
    destruct (jsonb_pattern _); [now apply NoDup_ids_del|assumption].
  - intros now. now apply NoDup_ids_del.
Qed.

(** When ids are unique, [upsert] on an id that exists keeps the number of
    rows, and on a new id adds one. *)
Lemma upsert_length (i : string) (payload : jsonb) (expiresIn : option Z)
    (now now_update db_now : Date) (t : table) :
  fst (upsert i payload expiresIn now now_update db_now t) = fulfilled tt ->
  length (snd (upsert i payload expiresIn now now_update db_now t))
  = match Knex.select (Knex.where_id i) t with
    | [] => S (length t)
    | _ :: _ => length t
    end.
Proof.
  destruct (Knex.binds timestamp (upsert_props payload expiresIn now)) eqn:Hb;
    [|rewrite upsert_unbound by assumption; discriminate].
  rewrite upsert_bound by assumption. cbn [fst snd]. intros _.
  unfold rows_written. destruct (Knex.select (Knex.where_id i) t).
  - rewrite length_app. cbn [length]. lia.
  - unfold Knex.update. apply length_map.
Qed.

(** ** Listing *)

(** X7: [get] lists the rows of the table, those that have expired
    included, or with [ids] the rows whose id is one of them (none for an
    empty array), in the order the database sorts them. *)
Theorem get_lists_rows (ids : option (list string))
    (orderBy : list row -> list row) (t : table) (r : row) :
  (forall l, Permutation (orderBy l) l) ->
  (In r (get ids orderBy t) <->
   In r t /\ match ids with
             | Some l => In (id r) l
             | None => True
             end)
  /\ (ids = None -> length (get ids orderBy t) = length t)
  /\ (ids = Some [] -> get ids orderBy t = orderBy []).
Proof.
  intros Hperm. split; [|split].
  - unfold get, Knex.select. split.
    + intros Hin. apply (Permutation_in _ (Hperm _)) in Hin.
      apply filter_In in Hin as [Hin Hr]. split; [assumption|].
      destruct ids as [l|]; [|exact I].
      unfold Knex.where_id_in in Hr. apply existsb_exists in Hr as [x [Hx Hr]].
      apply String.eqb_eq in Hr. now rewrite Hr.
    + intros [Hin Hr]. apply (Permutation_in _ (Permutation_sym (Hperm _))).
      apply filter_In. split; [assumption|].
      destruct ids as [l|]; [|reflexivity].
      apply existsb_exists. exists (id r). split; [assumption|].
      apply String.eqb_refl.
  - intros ->. unfold get, Knex.select.
    rewrite (Permutation_length (Hperm _)). f_equal.
    induction t as [|x t' IH]; [reflexivity|]. cbn [List.filter]. now f_equal.
  - intros ->. unfold get, Knex.select. f_equal.
    induction t as [|x t' IH]; [reflexivity|]. exact IH.
Qed.

(** ** The purge and the lookups *)

(** X8: a purge changes no lookup made at its instant or later: [find],
    [findByUid] and [findByUserCode] return after it what they would have
    returned without it, in every table. *)
Theorem purge_invisible_to_lookups (now_purge now : Date) (v : purge_vars)
    (d : database) (tbl key : string) :
  now_purge <= now ->
  let d' := snd (purge now_purge v d) in
  find key now (rows d' tbl) = find key now (rows d tbl)
  /\ findByUid key now (rows d' tbl) = findByUid key now (rows d tbl)
  /\ findByUserCode key now (rows d' tbl) = findByUserCode key now (rows d tbl).
Proof.
  intros Hle d'. unfold d', purge. cbn [snd]. rewrite rows_purge_tables.
  destruct (existsb (String.eqb tbl) volatile_tables); [|repeat split].
  unfold find, findByUid, findByUserCode.
  repeat split; try (destruct (jsonb_pattern _); [|reflexivity]);
    rewrite select_after_del; try reflexivity;
    intros r Hr; apply andb_true_iff in Hr as [_ Hr];
    now apply (not_expired_not_purged now_purge now).
Qed.

Lemma lookup_purge_tables (now : Date) (l : list string) (d : database)
    (tbl : string) :
  fold_left (fun d tbl => purge_table now tbl d) l d !! tbl
  = if existsb (String.eqb tbl) l
    then Some (Knex.del (Knex.where_expired now) (rows d tbl))
    else d !! tbl.
Proof.
  revert d. induction l as [|x l' IH]; intros d; [reflexivity|].
  cbn [fold_left existsb]. rewrite IH.
  assert (Hx : rows (purge_table now x d) tbl
               = if String.eqb tbl x
                 then Knex.del (Knex.where_expired now) (rows d x)
                 else rows d tbl) by apply rows_on_table.
  rewrite Hx. clear Hx. unfold purge_table at 1, on_table.
  rewrite lookup_insert.
  destruct (String.eqb tbl x) eqn:E; cbn [orb].
  - apply String.eqb_eq in E. subst x. rewrite decide_True by reflexivity.
    destruct (existsb (String.eqb tbl) l'); [|reflexivity].
    now rewrite del_idempotent.
  - apply String.eqb_neq in E. rewrite decide_False by congruence.
    reflexivity.
Qed.

Lemma existsb_Permutation (f : string -> bool) (l l' : list string) :
  Permutation l l' -> existsb f l = existsb f l'.
Proof.
  intros Hp.
  destruct (existsb f l) eqn:E1, (existsb f l') eqn:E2; try reflexivity.
  - apply existsb_exists in E1 as [x [Hx Hf]].
    assert (E : existsb f l' = true).
    { apply existsb_exists. exists x. split; [|assumption].
      now apply (Permutation_in _ Hp). }
    congruence.
  - apply existsb_exists in E2 as [x [Hx Hf]].
    assert (E : existsb f l = true).
    { apply existsb_exists. exists x. split; [|assumption].
      now apply (Permutation_in _ (Permutation_sym Hp)). }
    congruence.
Qed.

Lemma purge_tables_Permutation (now : Date) (l l' : list string)
    (d : database) :
  Permutation l l' ->
  fold_left (fun d tbl => purge_table now tbl d) l d
  = fold_left (fun d tbl => purge_table now tbl d) l' d.
Proof.
  intros Hp. apply map_eq. intros tbl. rewrite !lookup_purge_tables.
  now rewrite (existsb_Permutation _ l l' Hp).
Qed.

Lemma del_del_later (now1 now2 : Date) (t : table) :
  now1 <= now2 ->
  Knex.del (Knex.where_expired now2) (Knex.del (Knex.where_expired now1) t)
  = Knex.del (Knex.where_expired now2) t.
Proof.
  intros Hle. unfold Knex.del.
  induction t as [|r t' IH]; [reflexivity|]. cbn [List.filter].
  destruct (Knex.where_expired now1 r) eqn:E1; cbn [negb].
  - assert (E2 : Knex.where_expired now2 r = true).
    { unfold Knex.where_expired in *. destruct (expires_at r); [|discriminate].
      apply Z.leb_le in E1. apply Z.leb_le. lia. }
    rewrite E2. cbn [negb]. exact IH.
  - cbn [List.filter]. destruct (negb (Knex.where_expired now2 r));
      [f_equal|]; exact IH.
Qed.

(** X9: a purge done again at the same instant deletes nothing more, and
    a purge at a later instant leaves the database that it would have left
    without the earlier one. *)
Theorem later_purge_subsumes (now1 now2 : Date) (v v' : purge_vars)
    (d : database) :
  now1 <= now2 ->
  snd (purge now2 v' (snd (purge now1 v d))) = snd (purge now2 v d).
Proof.
  intros Hle. unfold purge. cbn [snd]. apply map_eq. intros tbl.
  rewrite !lookup_purge_tables, rows_purge_tables.
  destruct (existsb (String.eqb tbl) volatile_tables); [|reflexivity].
  now rewrite del_del_later.
Qed.

(** ** The purge in the event loop *)

Lemma exec_app (ls1 ls2 : list label) (w : world) :
  exec (ls1 ++ ls2)%list w
  = match exec ls1 w with
    | Some w1 => exec ls2 w1
    | None => None
    end.
Proof.
  revert w. induction ls1 as [|l ls1' IH]; intros w; [reflexivity|].
  cbn [app exec]. destruct (step l w); [apply IH|reflexivity].
Qed.

Lemma remove_first_Permutation (x : string) (pending : list string) :
  In x pending -> Permutation pending (x :: remove_first x pending).
Proof.
  induction pending as [|y pending' IH]; intros Hin; [destruct Hin|].
  cbn [remove_first]. destruct (String.eqb y x) eqn:E.
  - apply String.eqb_eq in E. now subst y.
  - destruct Hin as [Hin|Hin]; [apply String.eqb_neq in E; congruence|].
    apply (perm_trans (l' := y :: x :: remove_first x pending'));
      [apply perm_skip; now apply IH|apply perm_swap].
Qed.

(** The deletions of a purge in flight, done in whatever order the
    database finishes them: the database is the one [purge] returns, and
    the cool-down starts when the last one is done. *)
Lemma deletions_in_any_order (p : nat) (now : Date)
    (order pending : list string) (w : world) :
  Permutation order pending ->
  pending <> [] ->
  tasks w !! p = Some (schedulePurge_288 now pending) ->
  exists w',
    exec (List.map (Deleted p) order) w = Some w'
    /\ db w' = fold_left (fun d tbl => purge_table now tbl d) pending (db w)
    /\ tasks w' !! p = Some (schedulePurge_290 (clock w + cooldown w))
    /\ vars w' = vars w
    /\ clock w' = clock w.
Proof.
  revert pending w.
  induction order as [|x rest IH]; intros pending w Hperm Hne Hp.
  - apply Permutation_nil in Hperm. contradiction.
  - assert (Hin : In x pending)
      by (apply (Permutation_in _ Hperm); now left).
    assert (Hrest : Permutation rest (remove_first x pending)).
    { apply (Permutation_cons_inv (a := x)).
      rewrite Hperm. now apply remove_first_Permutation. }
    assert (Hdb : forall d,
              fold_left (fun d tbl => purge_table now tbl d)
                        (remove_first x pending) (purge_table now x d)
              = fold_left (fun d tbl => purge_table now tbl d) pending d).
    { intros d.
      rewrite (purge_tables_Permutation now pending
                 (x :: remove_first x pending) d); [reflexivity|].
      now apply remove_first_Permutation. }
    cbn [List.map exec step]. unfold deleted. rewrite Hp.
    assert (Hex : existsb (String.eqb x) pending = true).
    { apply existsb_exists. exists x. split; [assumption|apply String.eqb_refl]. }
    rewrite Hex.
    destruct (remove_first x pending) as [|y pending'] eqn:E.
    + apply Permutation_sym, Permutation_nil in Hrest. subst rest.
      cbn [List.map exec schedulePurge_await]. eexists.
      split; [reflexivity|].
      cbn [suspend with_db db tasks vars clock].
      split; [apply (Hdb (db w))|]. repeat split. apply lookup_insert_eq.
    + cbn [schedulePurge_await].
      destruct (IH (y :: pending')
                  (suspend p (schedulePurge_288 now (y :: pending'))
                     (with_db (purge_table now x) w)) Hrest)
        as [w' [H1 [H2 [H3 [H4 H5]]]]].
      * discriminate.
      * cbn [suspend tasks]. apply lookup_insert_eq.
      * exists w'. split; [exact H1|].
        split; [rewrite H2; apply (Hdb (db w))|].
        split; [exact H3|]. split; assumption.
Qed.

Lemma timer_delay_positive (duration : Z) : 1 <= timer_delay duration.
Proof.
  unfold timer_delay.
  destruct (1 <=? duration) eqn:E; cbn [andb]; [|lia].
  destruct (duration <=? 2147483647); [|lia]. now apply Z.leb_le.
Qed.

(** X10: a purge in flight comes to its end: whatever the order in which
    its deletions are done, the database is then the one [purge] returns;
    the timer started at that moment cannot fire before the cool-down has
    passed, and when it fires the flag [purge_scheduled] is cleared and the
    promise of [schedulePurge] fulfilled. *)
Theorem purge_completes_and_rearms (p : nat) (now : Date)
    (order pending : list string) (w : world) :
  Permutation order pending ->
  pending <> [] ->
  tasks w !! p = Some (schedulePurge_288 now pending) ->
  (exists w',
     exec (List.map (Deleted p) order ++ [Tick (cooldown w); Fires p])%list w
     = Some w'
     /\ db w' = fold_left (fun d tbl => purge_table now tbl d) pending (db w)
     /\ purge_scheduled (vars w') = false
     /\ tasks w' !! p = None
     /\ settled w' !! p = Some (fulfilled VUndefined)
     /\ clock w' = clock w + cooldown w)
  /\ (forall d, d < cooldown w ->
        exec (List.map (Deleted p) order ++ [Tick d; Fires p])%list w = None).
Proof.
  intros Hperm Hne Hp.
  destruct (deletions_in_any_order p now order pending w Hperm Hne Hp)
    as [w1 [H1 [H2 [H3 [H4 H5]]]]].
  pose proof (timer_delay_positive
                (purge_single_execution_protection_delay (vars w))) as Hpos.
  fold (cooldown w) in Hpos.
  split.
  - rewrite exec_app, H1. cbn [exec step].
    destruct (0 <=? cooldown w) eqn:E; [|apply Z.leb_gt in E; lia].
    unfold timeout. cbn [tasks clock]. rewrite H3, H5.
    destruct (clock w + cooldown w <=? clock w + cooldown w) eqn:E';
      [|apply Z.leb_gt in E'; lia].
    eexists. split; [reflexivity|].
    cbn [settle with_vars db vars purge_scheduled tasks settled clock].
    split; [exact H2|]. split; [reflexivity|].
    split; [apply lookup_delete_eq|]. split; [apply lookup_insert_eq|reflexivity].
  - intros d Hd. rewrite exec_app, H1. cbn [exec step].
    destruct (0 <=? d) eqn:E; [|reflexivity].
    unfold timeout. cbn [tasks clock]. rewrite H3, H5.
    destruct (clock w + cooldown w <=? clock w + d) eqn:E';
      [apply Z.leb_le in E'; lia|reflexivity].
Qed.

(** ** The threshold *)

Lemma invoke_upsert_below (this : StorageAdapter) (i : string)
    (payload : jsonb) (expiresIn : option Z) (w : world) :
  upserts_since_purge_count (vars w) + 1 < purge_every_upserts_count (vars w) ->
  let w' := invoke (call_upsert this i payload expiresIn) w in
  upserts_since_purge_count (vars w') = upserts_since_purge_count (vars w) + 1
  /\ purge_every_upserts_count (vars w') = purge_every_upserts_count (vars w)
  /\ purge_scheduled (vars w') = purge_scheduled (vars w)
  /\ purge_last_date (vars w') = purge_last_date (vars w)
  /\ log w' = log w
  /\ clock w' = clock w.
Proof.
  intros Hlt w'. unfold w'. rewrite invoke_upsert_eq. cbv zeta.
  apply Z.leb_gt in Hlt. rewrite Hlt. repeat split.
Qed.

Lemma upserts_below_threshold
    (calls : list (StorageAdapter * string * jsonb * option Z)) (w : world) :
  upserts_since_purge_count (vars w) + Z.of_nat (length calls)
  < purge_every_upserts_count (vars w) ->
  exists w',
    exec (upsert_calls calls) w = Some w'
    /\ upserts_since_purge_count (vars w')
       = upserts_since_purge_count (vars w) + Z.of_nat (length calls)
    /\ purge_every_upserts_count (vars w') = purge_every_upserts_count (vars w)
    /\ purge_scheduled (vars w') = purge_scheduled (vars w)
    /\ purge_last_date (vars w') = purge_last_date (vars w)
    /\ log w' = log w
    /\ clock w' = clock w.
Proof.
  revert w. induction calls as [|[[[this i] payload] expiresIn] calls' IH];
    intros w Hlt.
  - exists w. cbn [upsert_calls List.map exec length]. repeat split. cbn. lia.
  - cbn [length] in Hlt. rewrite Nat2Z.inj_succ in Hlt.
    cbn [upsert_calls List.map exec step]. fold (upsert_calls calls').
    destruct (invoke_upsert_below this i payload expiresIn w) as
      [H1 [H2 [H3 [H4 [H5 H6]]]]]; [lia|].
    destruct (IH (invoke (call_upsert this i payload expiresIn) w))
      as [w' [G0 [G1 [G2 [G3 [G4 [G5 G6]]]]]]]; [rewrite H1, H2; lia|].
    exists w'. split; [exact G0|].
    cbn [length]. rewrite Nat2Z.inj_succ.
    repeat split; try congruence. rewrite G1, H1. lia.
Qed.

(** X11: from a world where no purge is scheduled, the calls of [upsert]
    that leave the counter below the threshold schedule none, and the call
    that brings it to the threshold schedules one, at once: the counter is
    back to zero and the instant is recorded as that of the last purge. *)
Theorem first_purge_at_threshold
    (calls : list (StorageAdapter * string * jsonb * option Z))
    (this : StorageAdapter) (i : string) (payload : jsonb)
    (expiresIn : option Z) (w : world) :
  purge_scheduled (vars w) = false ->
  upserts_since_purge_count (vars w) + Z.of_nat (length calls) + 1
  = purge_every_upserts_count (vars w) ->
  (exists w1,
     exec (upsert_calls calls) w = Some w1
     /\ purge_times w1 = purge_times w
     /\ purge_scheduled (vars w1) = false)
  /\ (exists w2,
        exec (upsert_calls calls
              ++ [Invoke (call_upsert this i payload expiresIn)])%list w
        = Some w2
        /\ purge_times w2 = clock w :: purge_times w
        /\ upserts_since_purge_count (vars w2) = 0
        /\ purge_scheduled (vars w2) = true
        /\ purge_last_date (vars w2) = Some (clock w)).
Proof.
  intros Hidle Hth.
  destruct (upserts_below_threshold calls w)
    as [w1 [G0 [G1 [G2 [G3 [G4 [G5 G6]]]]]]]; [lia|].
  split.
  - exists w1. split; [exact G0|]. unfold purge_times. rewrite G5.
    split; [reflexivity|congruence].
  - rewrite exec_app, G0. cbn [exec step].
    rewrite invoke_upsert_eq. cbv zeta.
    assert (E : (purge_every_upserts_count (vars w1)
                 <=? upserts_since_purge_count (vars w1) + 1) = true)
      by (apply Z.leb_le; lia).
    rewrite E, G3, Hidle. eexists. split; [reflexivity|].
    unfold purge_times. cbn [log vars upserts_since_purge_count purge_scheduled
                             purge_last_date].
    rewrite G5, G6. repeat split.
Qed.

(** ** Wiping and configuring *)

Lemma rows_wipe_tables (l : list string) (d : database) (tbl : string) :
  rows (fold_left
          (fun d name =>
             on_table (table_name (new_StorageAdapter name))
                      (fun t => snd (destroyAll t)) d) l d) tbl
  = if existsb (fun name =>
                  String.eqb tbl (table_name (new_StorageAdapter name))) l
    then [] else rows d tbl.
Proof.
  revert d. induction l as [|x l' IH]; intros d; [reflexivity|].
  cbn [fold_left existsb]. rewrite IH, rows_on_table.
  assert (Hnil : forall t : table, snd (destroyAll t) = []).
  { intros t. unfold destroyAll, Knex.del. cbn [snd].
    induction t as [|r t' IHt]; [reflexivity|exact IHt]. }
  rewrite Hnil.
  destruct (String.eqb tbl (table_name (new_StorageAdapter x))); cbn [orb];
    [|reflexivity].
  now destruct (existsb _ l').
Qed.

(** X12: [deleteVolatileRecords] empties the table of every volatile
    model, whatever its rows, and leaves every other table, that of the
    clients among them, as it was; the statistics are then all zero. *)
Theorem deleteVolatileRecords_wipes (d : database) :
  (forall name, In name VOLATILE_TYPES ->
     rows (deleteVolatileRecords d) (table_name (new_StorageAdapter name)) = [])
  /\ (forall tbl, ~ In tbl volatile_tables ->
        rows (deleteVolatileRecords d) tbl = rows d tbl)
  /\ (forall s, In s (getVolatileRecordsStats (deleteVolatileRecords d)) ->
        count s = 0%nat /\ date_min s = None /\ date_max s = None).
Proof.
  assert (Hvol : forall name, In name VOLATILE_TYPES ->
            rows (deleteVolatileRecords d)
                 (table_name (new_StorageAdapter name)) = []).
  { intros name Hin. unfold deleteVolatileRecords. cbv zeta.
    rewrite rows_wipe_tables.
    assert (E : existsb (fun name0 =>
                  String.eqb (table_name (new_StorageAdapter name))
                             (table_name (new_StorageAdapter name0)))
                  VOLATILE_TYPES = true).
    { apply existsb_exists. exists name. split; [assumption|].
      apply String.eqb_refl. }
    now rewrite E. }
  split; [exact Hvol|]. split.
  - intros tbl Hout. unfold deleteVolatileRecords. cbv zeta.
    rewrite rows_wipe_tables.
    destruct (existsb _ VOLATILE_TYPES) eqn:E; [|reflexivity].
    apply existsb_exists in E as [name [Hin E]]. apply String.eqb_eq in E.
    destruct Hout. unfold volatile_tables. apply in_map_iff. eauto.
  - intros s Hin. unfold getVolatileRecordsStats in Hin.
    apply in_map_iff in Hin as [name [Hs Hin]]. subst s.
    cbn [count date_min date_max]. now rewrite (Hvol name Hin).
Qed.

Lemma setPurgeProperties_nonzero (delay every : option Z) (v : purge_vars) :
  let v' := setPurgeProperties delay every v in
  (purge_single_execution_protection_delay v <> 0 ->
   purge_single_execution_protection_delay v' <> 0)
  /\ (purge_every_upserts_count v <> 0 -> purge_every_upserts_count v' <> 0)
  /\ upserts_since_purge_count v' = upserts_since_purge_count v
  /\ purge_scheduled v' = purge_scheduled v
  /\ purge_last_date v' = purge_last_date v.
Proof.
  unfold setPurgeProperties.
  cbn [purge_single_execution_protection_delay purge_every_upserts_count
       upserts_since_purge_count purge_scheduled purge_last_date].
  repeat split.
  - intros H. destruct delay as [n|]; [|assumption].
    destruct (n =? 0) eqn:E; [assumption|now apply Z.eqb_neq].
  - intros H. destruct every as [n|]; [|assumption].
    destruct (n =? 0) eqn:E; [assumption|now apply Z.eqb_neq].
Qed.

Lemma configured_app (a b : list (option Z * option Z)) (v : purge_vars) :
  configured (a ++ b)%list v = configured b (configured a v).
Proof. unfold configured. apply fold_left_app. Qed.

(** Calls that give no delay, or zero, leave the delay as it was; the same
    for the threshold. *)
Lemma configured_skipped (configs : list (option Z * option Z))
    (v : purge_vars) :
  (Forall (fun c => skipped (fst c)) configs ->
   purge_single_execution_protection_delay (configured configs v)
   = purge_single_execution_protection_delay v)
  /\ (Forall (fun c => skipped (snd c)) configs ->
      purge_every_upserts_count (configured configs v)
      = purge_every_upserts_count v).
Proof.
  unfold configured. revert v.
  induction configs as [|[delay every] configs' IH]; intros v;
    cbn [fold_left fst snd]; [split; reflexivity|].
  destruct (IH (setPurgeProperties delay every v)) as [IH1 IH2].
  split; intros Hall; inversion Hall as [|c l Hc Hl]; subst.
  - rewrite (IH1 Hl). cbn [fst] in Hc.
    destruct Hc as [->| ->]; reflexivity.
  - rewrite (IH2 Hl). cbn [snd] in Hc.
    destruct Hc as [->| ->]; reflexivity.
Qed.

(** X13: [setPurgeProperties] skips a property that is zero or missing and
    leaves its value as it was: after any calls, the delay is the last one
    given that was not zero, or the delay of before if there was none, and
    so is the threshold; hence a delay and a threshold that are not zero
    never become zero (a threshold of 0 and a delay of 0 cannot be
    configured); the counter, the flag and the instant of the last purge
    are left alone; and [getPurgeInfo] reports these values. *)
Theorem setPurgeProperties_skips_zero (configs : list (option Z * option Z))
    (v : purge_vars) :
  purge_single_execution_protection_delay v <> 0 ->
  purge_every_upserts_count v <> 0 ->
  let v' := configured configs v in
  purge_single_execution_protection_delay v' <> 0
  /\ purge_every_upserts_count v' <> 0
  /\ upserts_since_purge_count v' = upserts_since_purge_count v
  /\ purge_scheduled v' = purge_scheduled v
  /\ purge_last_date v' = purge_last_date v
  /\ (forall delay every, delay <> 0 -> every <> 0 ->
        getPurgeInfo (configured (configs ++ [(Some delay, Some every)])%list v)
        = Vars delay every (upserts_since_purge_count v) (purge_scheduled v)
               (purge_last_date v))
  /\ (Forall (fun c => skipped (fst c)) configs ->
      purge_single_execution_protection_delay (getPurgeInfo v')
      = purge_single_execution_protection_delay v)
  /\ (Forall (fun c => skipped (snd c)) configs ->
      purge_every_upserts_count (getPurgeInfo v')
      = purge_every_upserts_count v)
  /\ (forall before delay every after,
        configs = (before ++ (Some delay, every) :: after)%list ->
        delay <> 0 ->
        Forall (fun c => skipped (fst c)) after ->
        purge_single_execution_protection_delay (getPurgeInfo v') = delay)
  /\ (forall before delay every after,
        configs = (before ++ (delay, Some every) :: after)%list ->
        every <> 0 ->
        Forall (fun c => skipped (snd c)) after ->
        purge_every_upserts_count (getPurgeInfo v') = every).
Proof.
  intros Hd He v'.
  assert (Hall : purge_single_execution_protection_delay v' <> 0
                 /\ purge_every_upserts_count v' <> 0
                 /\ upserts_since_purge_count v' = upserts_since_purge_count v
                 /\ purge_scheduled v' = purge_scheduled v
                 /\ purge_last_date v' = purge_last_date v).
  { unfold v', configured. clear v'. revert v Hd He.
    induction configs as [|[delay every] configs' IH]; intros v Hd He;
      cbn [fold_left fst snd]; [auto|].
    destruct (setPurgeProperties_nonzero delay every v)
      as [H1 [H2 [H3 [H4 H5]]]].
    destruct (IH (setPurgeProperties delay every v) (H1 Hd) (H2 He))
      as [G1 [G2 [G3 [G4 G5]]]].
    repeat split; try assumption; congruence. }
  destruct Hall as [H1 [H2 [H3 [H4 H5]]]].
  split; [assumption|]. split; [assumption|]. split; [assumption|].
  split; [assumption|]. split; [assumption|].
  unfold getPurgeInfo.
  split; [|split; [|split; [|split]]].
  - intros delay every Hdelay Hevery. unfold configured.
    rewrite fold_left_app. cbn [fold_left fst snd]. fold (configured configs v).
    fold v'. unfold setPurgeProperties.
    apply Z.eqb_neq in Hdelay, Hevery. rewrite Hdelay, Hevery.
    now rewrite H3, H4, H5.
  - apply (proj1 (configured_skipped configs v)).
  - apply (proj2 (configured_skipped configs v)).
  - intros before delay every after -> Hdelay Hafter. unfold v'.
    rewrite configured_app.
    change (configured ((Some delay, every) :: after) (configured before v))
      with (configured after
              (setPurgeProperties (Some delay) every (configured before v))).
    rewrite (proj1 (configured_skipped after _) Hafter).
    unfold setPurgeProperties.
    cbn [purge_single_execution_protection_delay].
    apply Z.eqb_neq in Hdelay. now rewrite Hdelay.
  - intros before delay every after -> Hevery Hafter. unfold v'.
    rewrite configured_app.
    change (configured ((delay, Some every) :: after) (configured before v))
      with (configured after
              (setPurgeProperties delay (Some every) (configured before v))).
    rewrite (proj2 (configured_skipped after _) Hafter).
    unfold setPurgeProperties.
    cbn [purge_every_upserts_count].
    apply Z.eqb_neq in Hevery. now rewrite Hevery.
Qed.

(** ** The earlier revision *)

Lemma upsert_awaiting_purge_step (this : StorageAdapter) (a : upsert_args)
    (s : store) :
  let n := purge_period (counter s) in
  let c := upserts_count (counter s) in
  let s' := snd (upsert_awaiting_purge this a s) in
  purge_period (counter s') = n
  /\ (forall tbl, tbl <> table_name this ->
        rows (tables s') tbl = rows (tables s) tbl)
  /\ (if n <=? c + 1
      then upserts_count (counter s') = 0
           /\ debug_log s' = "purging" :: debug_log s
      else upserts_count (counter s') = c + 1
           /\ debug_log s' = debug_log s).
Proof.
  cbv zeta. unfold upsert_awaiting_purge. cbv zeta. cbn [snd].
  destruct (purge_period (counter s) <=? upserts_count (counter s) + 1);
    cbn [purgeExpired counter tables debug_log purge_period upserts_count].
  - split; [reflexivity|]. split; [|split; reflexivity].
    intros tbl Hne. rewrite rows_on_table.
    apply String.eqb_neq in Hne. rewrite Hne.
    unfold purge_table. rewrite rows_on_table. now rewrite Hne.
  - split; [reflexivity|]. split; [|split; reflexivity].
    intros tbl Hne. rewrite rows_on_table.
    apply String.eqb_neq in Hne. now rewrite Hne.
Qed.

Lemma upserts_awaiting_purge_invariant (this : StorageAdapter)
    (calls : list upsert_args) (s : store) :
  let n := purge_period (counter s) in
  let c := upserts_count (counter s) in
  let s' := upserts_awaiting_purge this calls s in
  0 <= c < n ->
  exists purges : nat,
    debug_log s' = (repeat "purging" purges ++ debug_log s)%list
    /\ Z.of_nat purges * n + upserts_count (counter s')
       = c + Z.of_nat (length calls)
    /\ 0 <= upserts_count (counter s') < n
    /\ purge_period (counter s') = n
    /\ (forall tbl, tbl <> table_name this ->
          rows (tables s') tbl = rows (tables s) tbl).
Proof.
  cbv zeta. unfold upserts_awaiting_purge. revert s.
  induction calls as [|a calls' IH]; intros s Hc; cbn [fold_left length].
  - exists 0%nat. cbn [repeat app]. repeat split; try lia.
  - destruct (upsert_awaiting_purge_step this a s) as [H1 [H2 H3]].
    set (s1 := snd (upsert_awaiting_purge this a s)) in *.
    assert (Hc1 : 0 <= upserts_count (counter s1) < purge_period (counter s1)).
    { rewrite H1.
      destruct (purge_period (counter s) <=? upserts_count (counter s) + 1)
        eqn:E; destruct H3 as [H3 _]; rewrite H3; [lia|].
      apply Z.leb_gt in E. lia. }
    destruct (IH s1 Hc1) as [purges [G1 [G2 [G3 [G4 G5]]]]].
    rewrite H1 in G2, G3, G4. rewrite Nat2Z.inj_succ.
    destruct (purge_period (counter s) <=? upserts_count (counter s) + 1)
      eqn:E; destruct H3 as [H3 H4].
    + apply Z.leb_le in E. exists (S purges). rewrite G1, H4.
      split.
      { change (S purges) with (1 + purges)%nat.
        rewrite (Nat.add_comm 1 purges), repeat_app, <- app_assoc.
        reflexivity. }
      split; [rewrite H3 in G2; lia|]. split; [assumption|].
      split; [assumption|]. intros tbl Hne. rewrite G5 by assumption. auto.
    + exists purges. rewrite G1, H4. split; [reflexivity|].
      split; [rewrite H3 in G2; lia|]. split; [assumption|].
      split; [assumption|]. intros tbl Hne. rewrite G5 by assumption. auto.
Qed.

(** X14: in the earlier revision, with a period [n] of 1 or more, calls of
    [upsert] on one instance purge its table once every [n] calls: after
    [k] calls from a counter at [c] the counter is [(c + k) mod n] and
    [purgeExpired] has run [(c + k) / n] times; the tables of the other
    models are never purged by these calls. *)
Theorem upserts_purge_every_period (this : StorageAdapter)
    (calls : list upsert_args) (s : store) :
  let n := purge_period (counter s) in
  let c := upserts_count (counter s) in
  let s' := upserts_awaiting_purge this calls s in
  0 <= c < n ->
  upserts_count (counter s') = (c + Z.of_nat (length calls)) mod n
  /\ debug_log s'
     = (repeat "purging" (Z.to_nat ((c + Z.of_nat (length calls)) / n))
        ++ debug_log s)%list
  /\ purge_period (counter s') = n
  /\ (forall tbl, tbl <> table_name this ->
        rows (tables s') tbl = rows (tables s) tbl).
Proof.
  cbv zeta. intros Hc.
  destruct (upserts_awaiting_purge_invariant this calls s Hc)
    as [purges [G1 [G2 [G3 [G4 G5]]]]].
  assert (Hq : (upserts_count (counter s) + Z.of_nat (length calls))
               / purge_period (counter s) = Z.of_nat purges).
  { symmetry.
    apply (Z.div_unique _ _ _
             (upserts_count (counter (upserts_awaiting_purge this calls s))));
      [left; assumption|lia]. }
  split.
  - apply (Z.mod_unique _ _ (Z.of_nat purges)); [left; assumption|lia].
  - rewrite Hq, Nat2Z.id. auto.
Qed.

(** [setPurgePeriod] takes any number: with a period of 1 or less every
    call of [upsert] purges. *)
Lemma upsert_purges_each_call (this : StorageAdapter) (a : upsert_args)
    (period : Z) (s : store) :
  period <= 1 -> 0 <= upserts_count (counter s) ->
  let s' := snd (upsert_awaiting_purge this a
                   (Store (setPurgePeriod period (counter s)) (tables s)
                          (debug_log s))) in
  debug_log s' = "purging" :: debug_log s
  /\ upserts_count (counter s') = 0.
Proof.
  intros Hp Hc. cbv zeta. unfold upsert_awaiting_purge, setPurgePeriod.
  cbv zeta. cbn [snd counter tables debug_log purge_period upserts_count].
  destruct (period <=? upserts_count (counter s) + 1) eqn:E;
    [|apply Z.leb_gt in E; lia].
  split; reflexivity.
Qed.

(** ** Statistics after a purge *)

Lemma del_expired_is_live (now : Date) (t : table) :
  Knex.del (Knex.where_expired now) t
  = Knex.select (Knex.where_not_expired now) t.
Proof.
  unfold Knex.del, Knex.select. apply filter_ext. intros r.
  unfold Knex.where_expired, Knex.where_not_expired.
  destruct (expires_at r) as [e|]; [|reflexivity].
  rewrite Z.ltb_antisym. reflexivity.
Qed.

(** X15: right after a purge the statistics count the live rows: for
    each volatile model the count is the number of rows that were in its
    table and had not expired at the instant of the purge. *)
Theorem stats_after_purge (now : Date) (v : purge_vars) (d : database) :
  List.map (fun s => (type_name s, count s))
           (getVolatileRecordsStats (snd (purge now v d)))
  = List.map
      (fun name =>
         (name,
          length (Knex.select (Knex.where_not_expired now)
                    (rows d (table_name (new_StorageAdapter name))))))
      VOLATILE_TYPES.
Proof.
  unfold getVolatileRecordsStats. rewrite map_map.
  apply map_ext_in. intros name Hin. cbn [type_name count]. f_equal.
  unfold purge. cbn [snd]. rewrite rows_purge_tables.
  rewrite (volatile_table_listed name Hin). unfold Knex.count.
  now rewrite del_expired_is_live.
Qed.

End Adapter.

(** * The properties on sample data *)

(** The sample reading takes the texts of a plain key and value for what
    they say. *)
Lemma plain_prefix_plain (s rest : string) :
  plain s = true ->
  plain_prefix (s ++ String quote rest)%string = (s, String quote rest).
Proof.
  induction s as [|c s' IH]; intros Hs; [reflexivity|].
  cbn [plain] in Hs. apply andb_true_iff in Hs as [Hc Hs'].
  change (plain_prefix (String c (s' ++ String quote rest)%string)
          = (String c s', String quote rest)).
  cbn [plain_prefix]. rewrite Hc, (IH Hs'). reflexivity.
Qed.

Lemma sample_jsonb_pattern_reads_plain : reads_plain sample_jsonb_pattern.
Proof.
  intros key value Hk Hv.
  change (containment_text key value)
    with (String "{"%char
            (String quote
               (key ++ String quote
                         (String ":"%char
                            (String " "%char
                               (String quote (value ++ String quote
                                   "}"))))))%string).
  unfold sample_jsonb_pattern.
  rewrite (plain_prefix_plain key _ Hk). cbn [fst snd].
  rewrite (plain_prefix_plain value _ Hv). cbn [fst snd].
  rewrite String.eqb_refl. reflexivity.
Qed.

(** C1 at work: a session stored at the instant 1000 for 60 seconds is
    found, by its id and by its uid, one millisecond before the instant
    61000, and not at that instant. *)
Lemma find_visible_until_expiry_witness :
  let t' := snd (upsert sample_timestamp "s1" sample_payload (Some 60)
                        1000 1000 1000 []) in
  find "s1" 60999 t' = fulfilled (Some sample_payload)
  /\ findByUid sample_jsonb_pattern "u1" 60999 t'
     = fulfilled (Some sample_payload)
  /\ findByUid sample_jsonb_pattern "u1" 61000 t' = fulfilled None.
Proof.
  assert (Hn : 60 <> 0) by lia.
  assert (Hother : forall now (r : row),
            In r [] -> id r <> "s1" -> data r !! "uid" = Some (JStr "u1") ->
            Knex.where_not_expired now r = false) by (intros now r []).
  pose proof (proj1 (find_visible_until_expiry sample_jsonb_pattern
                       sample_timestamp "s1" sample_payload 60 1000 1000 1000
                       [] 60999)
                Hn eq_refl) as H1.
  pose proof (proj1 (find_visible_until_expiry sample_jsonb_pattern
                       sample_timestamp "s1" sample_payload 60 1000 1000 1000
                       [] 61000)
                Hn eq_refl) as H2.
  exact (conj (proj1 (proj2 H1))
           (conj (proj1 (proj2 (proj2 (proj2 H1))) "u1" eq_refl eq_refl
                    (Hother 60999))
                 (proj1 (proj2 (proj2 (proj2 H2))) "u1" eq_refl eq_refl
                    (Hother 61000)))).
Defined.

(** A time to live that takes the expiration out of the range of [Date],
    on an id that exists and on a new one: the call is rejected and nothing
    is stored; so is it for an expiration before the first instant of a
    timestamp.  One second less and the model is stored. *)
Example upsert_out_of_range :
  upsert sample_timestamp "s1" sample_payload (Some 8640000000000) 1000 1000
         1000 [sample_row]
  = (rejected DatabaseError, [sample_row])
  /\ upsert sample_timestamp "s2" sample_payload (Some 8640000000000) 1000 1000
            1000 [sample_row]
     = (rejected DatabaseError, [sample_row])
  /\ upsert sample_timestamp "s2" sample_payload (Some (-210866803201)) 0 0 0 []
     = (rejected DatabaseError, [])
  /\ List.map expires_at
       (snd (upsert sample_timestamp "s2" sample_payload (Some 8639999999999)
                    1000 1000 1000 []))
     = [Some 8640000000000000].
Proof. repeat split. Qed.

(** C1 as stated fails on a time to live of zero: the session stored at
    the instant 1000 is still found at that instant, which is not before
    [1000 + 0], and at any later one. *)
Lemma find_zero_ttl_counterexample :
  (1000 <? 1000 + 0 * 1000) = false
  /\ find "s1" 1000 (snd (upsert sample_timestamp "s1" sample_payload (Some 0)
      1000 1000 1000 []))
     = fulfilled (Some sample_payload)
  /\ find "s1" 999999999
       (snd (upsert sample_timestamp "s1" sample_payload (Some 0) 1000 1000
           1000 []))
     = fulfilled (Some sample_payload).
Proof. repeat split. Qed.

(** C2 at work: the purge of the instant 5000 keeps the session that
    expires at 9000. *)
Lemma purge_deletes_expired_witness :
  In (Row "new" ∅ 200 None (Some 9000))
     (rows (snd (purge sample_toSnakeCase 5000 initial_vars sample_database))
           "oidc.session").
Proof.
  refine (proj1 (proj2 (purge_deletes_expired sample_toSnakeCase 5000
                          initial_vars sample_database "Session" _))
                (Row "new" ∅ 200 None (Some 9000)) 9000 _ eq_refl _).
  - left. reflexivity.
  - right. left. reflexivity.
  - lia.
Defined.

(** What that purge leaves of the three sessions. *)
Example purge_sample_database :
  rows (snd (purge sample_toSnakeCase 5000 initial_vars sample_database))
       "oidc.session"
  = [ Row "new" ∅ 200 None (Some 9000); Row "kept" ∅ 300 None None ].
Proof. vm_compute. reflexivity. Qed.

(** C3 at work: with a threshold of 5 and a cool-down of 2000 milliseconds,
    twenty calls of [upsert] in a row schedule one purge, at the instant 0;
    its deletions are done at the instant 300; twenty more calls made at
    the instant 2299, before the 2300 of the timer, schedule none. *)
Lemma purge_is_debounced_witness :
  let run := exec sample_toSnakeCase sample_toISOString sample_jsonb_pattern
              sample_timestamp in
  let deletions := List.map (Deleted 5) (volatile_tables sample_toSnakeCase) in
  match run (sample_burst ++ [Tick 300] ++ deletions)%list
            (initial_world (Some 2000) (Some 5) ∅ 0) with
  | Some w =>
      match run (Tick 1999 :: sample_burst) w with
      | Some w' =>
          purge_scheduled (vars w') = true /\ purge_times w' = purge_times w
      | None => False
      end
  | None => False
  end.
Proof.
  cbv zeta.
  set (run := exec sample_toSnakeCase sample_toISOString sample_jsonb_pattern
              sample_timestamp).
  set (first := (sample_burst ++ [Tick 300]
                 ++ List.map (Deleted 5) (volatile_tables
                     sample_toSnakeCase))%list).
  set (w0 := initial_world (Some 2000) (Some 5) ∅ 0).
  assert (Happ : run (first ++ Tick 1999 :: sample_burst)%list w0
                 = match run first w0 with
                   | Some w => run (Tick 1999 :: sample_burst) w
                   | None => None
                   end)
    by apply exec_app.
  destruct (run first w0) as [w|] eqn:E; [|vm_compute in E; discriminate E].
  subst run first w0.
  destruct (purge_is_debounced sample_toSnakeCase sample_toISOString
      sample_jsonb_pattern sample_timestamp (Some 2000) (Some 5) ∅ 0 _ w E)
    as [_ [_ [_ [_ [_ [_ [_ [H _]]]]]]]].
  assert (Hp : tasks w !! 5%nat = Some (schedulePurge_290 2300)).
  { pose proof (f_equal (fun o => match o with
                                  | Some w => tasks w !! 5%nat
                                  | None => None
                                  end) E) as Hp.
    vm_compute in Hp. symmetry. exact Hp. }
  destruct (exec sample_toSnakeCase sample_toISOString sample_jsonb_pattern
              sample_timestamp
              (Tick 1999 :: sample_burst) w) as [w'|] eqn:E';
    [|vm_compute in Happ; discriminate Happ].
  assert (Hk : clock w' = 2299).
  { pose proof (f_equal (fun o => match o with
                                  | Some w => clock w
                                  | None => 0
                                  end) Happ) as Hk.
    vm_compute in Hk. symmetry. exact Hk. }
  refine (proj1 (H 5%nat 2300 _ w' Hp E') _). lia.
Defined.

(** The twenty calls schedule exactly one purge, at the fifth; the fifteen
    calls that follow count on, each reaching the threshold in vain. *)
Example burst_schedules_one_purge :
  option_map (fun w => (purge_times w, upserts_since_purge_count (vars w),
                        purge_scheduled (vars w), length (log w)))
    (exec sample_toSnakeCase sample_toISOString sample_jsonb_pattern
              sample_timestamp sample_burst
          (initial_world (Some 2000) (Some 5) ∅ 0))
  = Some ([0], 15, true, 12%nat).
Proof. vm_compute. reflexivity. Qed.

(** Once the deletions of that purge are done, at the instant 300, the
    timer cannot fire before the instant 2300; when it has, the next call
    of [upsert] schedules the second purge. *)
Example second_purge_after_cooldown :
  let deletions := List.map (Deleted 5) (volatile_tables sample_toSnakeCase) in
  let upsert := Invoke (call_upsert sample_adapter "s1" sample_payload (Some
      60)) in
  let w0 := initial_world (Some 2000) (Some 5) ∅ 0 in
  let run := exec sample_toSnakeCase sample_toISOString sample_jsonb_pattern
              sample_timestamp in
  run (sample_burst ++ [Tick 300] ++ deletions
       ++ [Tick 1999; Fires 5])%list w0 = None
  /\ option_map purge_times
       (run (sample_burst ++ [Tick 300] ++ deletions
             ++ [Tick 1999; upsert])%list w0)
     = Some [0]
  /\ option_map purge_times
       (run (sample_burst ++ [Tick 300] ++ deletions
             ++ [Tick 2000; Fires 5; upsert])%list w0)
     = Some [2300; 0].
Proof. vm_compute. repeat split. Qed.

(** C4 as stated fails on a time to live of zero: the row inserted has no
    [expires_at], where the claim has [1000 + 0]. *)
Lemma upsert_zero_ttl_counterexample :
  List.map expires_at
    (snd (upsert sample_timestamp "s1" sample_payload (Some 0) 1000 1000 1000
        []))
  = [None]
  /\ List.map expires_at
       (snd (upsert sample_timestamp "s1" sample_payload (Some 0) 70000 70000
           70000 [sample_row]))
     = [Some 61000].
Proof. repeat split. Qed.

(** A negative time to live does set [expires_at], in the past. *)
Example upsert_negative_ttl :
  List.map expires_at
    (snd (upsert sample_timestamp "s1" sample_payload (Some (-5)) 1000 1000
        1000 []))
  = [Some (-4000)].
Proof. reflexivity. Qed.

(** C5 at work: with a threshold of 1 the first call of [upsert] starts a
    purge, and is fulfilled while the purge has all its deletions to do. *)
Lemma upsert_does_not_await_purge_witness :
  exists w',
    exec sample_toSnakeCase sample_toISOString sample_jsonb_pattern
              sample_timestamp
      [Invoke (call_upsert sample_adapter "s1" sample_payload (Some 60));
       Reply 0%nat; Reply 0%nat]
      (initial_world (Some 2000) (Some 1) ∅ 0)
    = Some w'
    /\ settled w' !! 0%nat = Some (fulfilled VUndefined)
    /\ tasks w' !! 0%nat = None
    /\ tasks w' !! 1%nat
       = Some (schedulePurge_288 0 (volatile_tables sample_toSnakeCase))
    /\ purge_scheduled (vars w') = true
    /\ rows (db w') "oidc.session"
       = snd (upsert sample_timestamp "s1" sample_payload (Some 60) 0 0 0 []).
Proof.
  assert (H : 1 <= 0 + 1) by lia.
  exact (upsert_does_not_await_purge sample_toSnakeCase sample_toISOString
      sample_jsonb_pattern sample_timestamp sample_adapter "s1" sample_payload (Some 60)
           (initial_world (Some 2000) (Some 1) ∅ 0) eq_refl H).
Defined.

(** C6 at work: no session has the id ["gone"], and none the uid ["u9"]. *)
Lemma only_consume_rejects_absence_witness :
  consume sample_toISOString "gone" 5000 sample_table
  = (rejected (TypeError
      "Cannot read properties of undefined (reading 'data')"),
     sample_table)
  /\ find "gone" 5000 sample_table = fulfilled None
  /\ findByUid sample_jsonb_pattern "u9" 5000 sample_table = fulfilled None.
Proof.
  assert (H : forall r, In r sample_table -> id r <> "gone").
  { intros r [<-|[<-|[<-|[]]]]; discriminate. }
  assert (Hu : forall r, In r sample_table ->
                 holds_string "uid" "u9" (data r) = true ->
                 Knex.where_not_expired 5000 r = false).
  { intros r [<-|[<-|[<-|[]]]]; discriminate. }
  pose proof (only_consume_rejects_absence sample_toISOString
      sample_jsonb_pattern sample_timestamp "gone" 5000 sample_table H) as T.
  exact (conj (proj1 T)
           (conj (proj1 (proj2 T))
                 (proj1 (proj2 (proj2 (proj2 T))) "u9" Hu))).
Defined.

(** C6 as stated fails on a uid with a backslash: the text
    [{"uid": "x\y"}] is not JSON, and [findByUid] is rejected with the error
    of the database although no session has that uid; so is
    [findByUserCode]. *)
Lemma findByUid_backslash_counterexample :
  findByUid sample_jsonb_pattern "x\y" 5000 [] = rejected DatabaseError
  /\ findByUid sample_jsonb_pattern "x\y" 5000 sample_table
     = rejected DatabaseError
  /\ findByUserCode sample_jsonb_pattern "x\y" 5000 sample_table
     = rejected DatabaseError.
Proof. repeat split. Qed.

(** [consume] on a session that exists adds the property and leaves the
    columns alone. *)
Example consume_sample_row :
  consume sample_toISOString "s1" 5000 [sample_row]
  = (fulfilled tt,
     [Row "s1" (<["consumed" := JStr "1970-01-01T00:00:05.000Z"]>
         sample_payload)
          1000 None (Some 61000)]).
Proof. vm_compute. reflexivity. Qed.


(** C9 as stated fails on a row that has expired and is not purged yet: of
    the three sessions two are live at the instant 5000, and the count
    is 3. *)
Lemma stats_count_counterexample :
  List.map count (getVolatileRecordsStats sample_toSnakeCase sample_database)
  = [3; 0; 0; 0; 0; 0; 0; 0; 0; 0; 0]%nat
  /\ length (Knex.select (Knex.where_not_expired 5000)
               (rows sample_database "oidc.session")) = 2%nat.
Proof. vm_compute. repeat split. Qed.

(** The statistics of the three sessions. *)
Example stats_sample_database :
  hd_error (getVolatileRecordsStats sample_toSnakeCase sample_database)
  = Some (Stats "Session" 3 (Some 100) (Some 300)).
Proof. vm_compute. reflexivity. Qed.

(** C10 at work: the session stored until the instant 61000 is stored again
    at the instant 7000 without a time to live, and expires as before. *)
Lemma upsert_existing_keeps_expiration_witness :
  snd (upsert sample_timestamp "s1" ∅ None 7000 7001 7002 [sample_row])
  = [Row "s1" ∅ 1000 (Some 7001) (Some 61000)].
Proof.
  refine (upsert_existing_keeps_expiration sample_timestamp "s1" ∅ None 7000
      7001 7002
            [sample_row] (or_introl eq_refl) _).
  exists sample_row. split; [left|]; reflexivity.
Defined.

(** The same in the event loop: a session is stored at the instant 0 for
    60 seconds; [find] called at 59999 is fulfilled with it, and [find]
    called at 60000 with [null], no purge having run. *)
Example find_across_expiry :
  option_map (fun w => (settled w !! 1%nat, settled w !! 2%nat,
                        length (rows (db w) "oidc.session")))
    (exec sample_toSnakeCase sample_toISOString sample_jsonb_pattern
              sample_timestamp
       [ Invoke (call_upsert sample_adapter "s1" sample_payload (Some 60));
         Reply 0%nat; Reply 0%nat;
         Tick 59999; Invoke (call_find sample_adapter "s1"); Reply 1%nat;
         Tick 1; Invoke (call_find sample_adapter "s1"); Reply 2%nat ]
       (initial_world None None ∅ 0))
  = Some (Some (fulfilled (VData (Some sample_payload))),
          Some (fulfilled (VData None)), 1%nat).
Proof. vm_compute. reflexivity. Qed.

(** And [consume] on an id that no row has is rejected there too. *)
Example consume_missing_is_rejected :
  option_map (fun w => settled w !! 0%nat)
    (exec sample_toSnakeCase sample_toISOString sample_jsonb_pattern
              sample_timestamp
       [ Invoke (call_consume sample_adapter "gone"); Reply 0%nat ]
       (initial_world None None sample_database 0))
  = Some (Some (rejected
                  (TypeError "Cannot read properties of undefined (reading 'data')"))).
Proof. vm_compute. reflexivity. Qed.

(** Two calls of [upsert] for one new id, both having found no row before
    either inserts: the second insertion is rejected by the primary key,
    and the table holds one row. *)
Example overlapping_upserts :
  option_map (fun w => (settled w !! 0%nat, settled w !! 1%nat,
                        List.map id (rows (db w) "oidc.session")))
    (exec sample_toSnakeCase sample_toISOString sample_jsonb_pattern
          sample_timestamp
       [ Invoke (call_upsert sample_adapter "s1" sample_payload (Some 60));
         Invoke (call_upsert sample_adapter "s1" sample_payload (Some 60));
         Reply 0%nat; Reply 1%nat; Reply 0%nat; Reply 1%nat ]
       (initial_world None None ∅ 0))
  = Some (Some (fulfilled VUndefined), Some (rejected DatabaseError), ["s1"]).
Proof. vm_compute. reflexivity. Qed.

(** * The further properties on sample data *)

(** X1 at work: the session consumed at the instant 5000 is found at 6000
    with the property [consumed]. *)
Lemma consume_then_find_witness :
  find "s1" 6000 (snd (consume sample_toISOString "s1" 5000 [sample_row]))
  = fulfilled
      (Some (<["consumed" := JStr "1970-01-01T00:00:05.000Z"]> sample_payload)).
Proof.
  exact (proj2 (consume_then_find sample_toISOString "s1" 5000 6000
                  [sample_row] sample_row [] eq_refl)).
Defined.

(** X2 at work: the session that expired at 61000 is stored again at 70000
    without a time to live, and is not found. *)
Lemma upsert_without_ttl_keeps_visibility_witness :
  find "s1" 70000 (snd (upsert sample_timestamp "s1" ∅ None 70000 70000 70000
      [sample_row]))
  = fulfilled None.
Proof.
  refine (upsert_without_ttl_keeps_visibility sample_timestamp "s1" ∅ None
      70000 70000 70000
            [sample_row] 70000 (or_introl eq_refl) _).
  exists sample_row. split; [left|]; reflexivity.
Defined.

(** X5 at work: a client stored without a time to live is found after two
    purges. *)
Lemma durable_model_survives_purges_witness :
  find "c1" 999999
       (purged [5000; 100000]
          (snd (upsert sample_timestamp "c1" sample_payload None 0 0 0
              sample_table)))
  = fulfilled (Some sample_payload).
Proof.
  refine (durable_model_survives_purges sample_timestamp "c1" sample_payload
      None 0 0 0
            sample_table [5000; 100000] 999999 (or_introl eq_refl) _).
  intros r [<-|[<-|[<-|[]]]]; discriminate.
Defined.

(** X6 at work: the three sessions have three ids, and still have after an
    [upsert] of one of them. *)
Lemma ids_stay_unique_witness :
  List.NoDup
    (List.map id (snd (upsert sample_timestamp "new" sample_payload (Some 5) 0
        0 0 sample_table))).
Proof.
  refine (proj1 (ids_stay_unique sample_toISOString sample_jsonb_pattern
      sample_timestamp
                   sample_table _) "new"
                sample_payload (Some 5) 0 0 0).
  repeat (apply List.NoDup_cons;
          [cbn; intros H; repeat (destruct H as [H|H]; try discriminate);
           exact H|]).
  apply List.NoDup_nil.
Defined.

(** X7 at work: [get] lists the session that has expired. *)
Lemma get_lists_rows_witness :
  In (Row "old" ∅ 100 None (Some 2000))
     (get (Some ["old"]) (fun l => l) sample_table).
Proof.
  refine (proj2 (proj1 (get_lists_rows (Some ["old"]) (fun l => l)
                          sample_table (Row "old" ∅ 100 None (Some 2000))
                          (fun l => Permutation_refl l))) _).
  split; left; reflexivity.
Defined.

(** X8 at work: [find] at the instant 6000 after the purge of 5000. *)
Lemma purge_invisible_to_lookups_witness :
  find "new" 6000
       (rows (snd (purge sample_toSnakeCase 5000 initial_vars sample_database))
             "oidc.session")
  = find "new" 6000 (rows sample_database "oidc.session").
Proof.
  assert (H : 5000 <= 6000) by lia.
  exact (proj1 (purge_invisible_to_lookups sample_toSnakeCase
                  sample_jsonb_pattern 5000 6000
                  initial_vars sample_database "oidc.session" "new" H)).
Defined.

(** X9 at work: the purge of 5000 after the purge of 1000. *)
Lemma later_purge_subsumes_witness :
  snd (purge sample_toSnakeCase 5000 initial_vars
         (snd (purge sample_toSnakeCase 1000 initial_vars sample_database)))
  = snd (purge sample_toSnakeCase 5000 initial_vars sample_database).
Proof.
  assert (H : 1000 <= 5000) by lia.
  exact (later_purge_subsumes sample_toSnakeCase 1000 5000 initial_vars
           initial_vars sample_database H).
Defined.

(** X10 at work: the purge started by the first call of [upsert], with a
    threshold of 1, at the instant 5000, its deletions done in reverse order,
        and the timer
    fired 2000 milliseconds later. *)
Lemma purge_completes_and_rearms_witness :
  exists w',
    exec sample_toSnakeCase sample_toISOString sample_jsonb_pattern
              sample_timestamp
      (List.map (Deleted 1) (rev (volatile_tables sample_toSnakeCase))
       ++ [Tick 2000; Fires 1])%list
      (invoke sample_toSnakeCase
         (call_upsert sample_adapter "s1" sample_payload (Some 60))
         (initial_world (Some 2000) (Some 1) sample_database 5000))
    = Some w'
    /\ purge_scheduled (vars w') = false
    /\ rows (db w') "oidc.session"
       = [ Row "new" ∅ 200 None (Some 9000); Row "kept" ∅ 300 None None ].
Proof.
  assert (Hne : volatile_tables sample_toSnakeCase <> []) by discriminate.
  destruct (proj1 (purge_completes_and_rearms sample_toSnakeCase
                     sample_toISOString sample_jsonb_pattern sample_timestamp
                         1 5000
                     (rev (volatile_tables sample_toSnakeCase))
                     (volatile_tables sample_toSnakeCase)
                     (invoke sample_toSnakeCase
                        (call_upsert sample_adapter "s1" sample_payload (Some
                            60))
                        (initial_world (Some 2000) (Some 1) sample_database
                            5000))
                     (Permutation_sym (Permutation_rev _)) Hne eq_refl))
    as [w' [H1 [H2 [H3 _]]]].
  exists w'. split; [exact H1|]. split; [exact H3|].
  rewrite H2. vm_compute. reflexivity.
Defined.

(** X11 at work: with a threshold of 5, four calls schedule nothing and the
    fifth schedules the purge. *)
Lemma first_purge_at_threshold_witness :
  exists w2,
    exec sample_toSnakeCase sample_toISOString sample_jsonb_pattern
              sample_timestamp
      (upsert_calls sample_calls
       ++ [Invoke (call_upsert sample_adapter "s1" sample_payload (Some
           60))])%list
      (initial_world (Some 2000) (Some 5) ∅ 0)
    = Some w2
    /\ purge_times w2 = [0]
    /\ upserts_since_purge_count (vars w2) = 0.
Proof.
  destruct (proj2 (first_purge_at_threshold sample_toSnakeCase
                     sample_toISOString sample_jsonb_pattern sample_timestamp
                         sample_calls
                     sample_adapter "s1"
                     sample_payload (Some 60)
                     (initial_world (Some 2000) (Some 5) ∅ 0)
                     eq_refl eq_refl))
    as [w2 [H1 [H2 [H3 _]]]].
  exists w2. split; [exact H1|]. split; [exact H2|exact H3].
Defined.

(** X13 at work: a delay of 500 and a threshold of 10 are configured; two
    calls with zeros follow and change nothing. *)
Lemma setPurgeProperties_skips_zero_witness :
  getPurgeInfo
    (configured [(Some 500, Some 10); (Some 0, None); (None, Some 0)]
                initial_vars)
  = Vars 500 10 0 false None
  /\ purge_single_execution_protection_delay
       (getPurgeInfo
          (configured [(Some 500, Some 10); (Some 0, None); (None, Some 0)]
                      initial_vars))
     = 500.
Proof.
  assert (H1 : 2000 <> 0) by lia. assert (H2 : 1000 <> 0) by lia.
  assert (H3 : 500 <> 0) by lia.
  assert (Hs : Forall (fun c : option Z * option Z => skipped (fst c))
                      [(Some 0, None); (None, Some 0)]).
  { constructor; [right; reflexivity|].
    constructor; [left; reflexivity|]. constructor. }
  split; [reflexivity|].
  exact (proj1 (proj2 (proj2 (proj2 (proj2 (proj2 (proj2 (proj2 (proj2
           (setPurgeProperties_skips_zero
              [(Some 500, Some 10); (Some 0, None); (None, Some 0)]
              initial_vars H1 H2)))))))))
           [] 500 (Some 10) [(Some 0, None); (None, Some 0)] eq_refl H3 Hs).
Defined.

(** X14 at work: seven calls with a period of 3 purge twice and leave the
    counter at 1. *)
Lemma upserts_purge_every_period_witness :
  upserts_count
    (counter (upserts_awaiting_purge sample_timestamp sample_adapter (repeat
        sample_args 7)
                sample_store))
  = 1
  /\ debug_log (upserts_awaiting_purge sample_timestamp sample_adapter (repeat
      sample_args 7)
                  sample_store)
     = ["purging"; "purging"].
Proof.
  assert (H : 0 <= 0 < 3) by lia.
  exact (conj (proj1 (upserts_purge_every_period sample_timestamp sample_adapter
                        (repeat sample_args 7) sample_store H))
              (proj1 (proj2 (upserts_purge_every_period sample_timestamp
                  sample_adapter
                               (repeat sample_args 7) sample_store H)))).
Defined.

(** X4 at work, on three tokens of the grant G1 and one of the grant G2:
    the revocation of G1 leaves the fourth alone. *)
Lemma revokeByGrantId_cascades_witness :
  let token i g := Row i (<["grantId" := JStr g]> ∅) 0 None (Some 9000) in
  let t := [token "a" "G1"; token "b" "G1"; token "c" "G2"; token "d" "G1"] in
  let t' := snd (revokeByGrantId sample_jsonb_pattern "G1" t) in
  t' = [token "c" "G2"]
  /\ find "a" 5000 t' = fulfilled None
  /\ revokeByGrantId sample_jsonb_pattern "G1" t' = (fulfilled tt, t').
Proof.
  cbv zeta. split; [reflexivity|].
  pose proof (proj1 (revokeByGrantId_cascades sample_jsonb_pattern "G1"
                       [ Row "a" (<["grantId" := JStr "G1"]> ∅) 0 None (Some
                           9000);
                         Row "b" (<["grantId" := JStr "G1"]> ∅) 0 None (Some
                             9000);
                         Row "c" (<["grantId" := JStr "G2"]> ∅) 0 None (Some
                             9000);
                         Row "d" (<["grantId" := JStr "G1"]> ∅) 0 None (Some
                             9000) ])
                eq_refl) as T.
  split.
  - refine (proj1 (proj2 (proj2 T)) "a" 5000 _).
    intros r [<-|[<-|[<-|[<-|[]]]]]; try discriminate; reflexivity.
  - exact (proj2 (proj2 (proj2 (proj2 T)))).
Defined.

(** A grant id with a backslash: the revocation is rejected and no token
    is deleted. *)
Example revoke_backslash_grant :
  let t := [Row "a" (<["grantId" := JStr "G\1"]> ∅) 0 None (Some 9000)] in
  revokeByGrantId sample_jsonb_pattern "G\1" t = (rejected DatabaseError, t).
Proof. reflexivity. Qed.

(** X12 and X15 on the three sessions. *)
Example wipe_and_count_sample_database :
  rows (deleteVolatileRecords sample_toSnakeCase sample_database) "oidc.session"
  = []
  /\ hd_error (List.map count
                 (getVolatileRecordsStats sample_toSnakeCase
                    (snd (purge sample_toSnakeCase 5000 initial_vars
                            sample_database))))
     = Some 2%nat.
Proof. vm_compute. repeat split. Qed.
